(** * WhisperQ front end: reaction aggregation, burst detection, live channel

    A shallow embedding of the logic of the WhisperQ audience/presenter
    client:

    - [ReactionStore]: the zustand store [useReactionStore]
      (stores/reactionStore): sliding-window scoring and the glow rule;
    - [Audience]: [handleReaction] (burst detection over the click window)
      and [handleSubmitQuestion] of pages/AudiencePage;
    - [Channel]: the message handler and the connection callbacks of
      hooks/useWebSocket, as a machine over timed events;
    - [ClickPath]: a click followed through the whole of [handleReaction],
      beside the store it leaves alone;
    - [StoreOps], [Dashboard], [Admin], [Join], [AudienceView]: the store
      under all four of its actions, and the handlers and derived values of
      the presenter dashboard, the admin page, the join page and the
      audience page that use it or stand beside it.

    The properties follow the definitions, one module per component.

    Conventions.  JavaScript numbers are modelled by [Z]: every number the
    modelled code handles is a millisecond clock value or a small count, on
    which IEEE doubles are exact.  [Date.now()] is an explicit argument
    [now].  A zustand [set] call merges a partial state into the store,
    which is modelled by [Partial] and [merge]. *)

From Stdlib Require Import String ZArith NArith List Bool Sorted Lia.
Import ListNotations.
Local Open Scope Z_scope.

(* ================================================================== *)
(** ** JavaScript control flow: exceptions, try/catch/finally *)
(* ================================================================== *)

Module Js.

(** A thrown value: [new Error(message)], or the error a rejected promise
    carries. *)
Inductive Exn : Type := Error (message : string).

(** How a statement ends.  [Stuck]: JavaScript goes on with a value the
    typed model has no counterpart for (a count that is not a number, say);
    nothing is claimed about such a run. *)
Inductive Completion (A : Type) : Type :=
| Normal (v : A)
| Throw (e : Exn)
| Stuck.
Arguments Normal {A} v.
Arguments Throw {A} e.
Arguments Stuck {A}.

(** A statement over a state [S]: writes made before a throw stay made. *)
Definition Eff (S A : Type) : Type := S -> S * Completion A.

Definition bind {S A B : Type} (c : Eff S A) (k : A -> Eff S B) : Eff S B :=
  fun s =>
    match c s with
    | (s1, Normal v) => k v s1
    | (s1, Throw e) => (s1, Throw e)
    | (s1, Stuck) => (s1, Stuck)
    end.

(** A computation that reads no state. *)
Definition lift {S A : Type} (c : Completion A) : Eff S A := fun s => (s, c).

Definition modify {S : Type} (f : S -> S) : Eff S unit := fun s => (f s, Normal tt).

(** [try { body } catch (e) { handler(e) }] *)
Definition tryCatch {S A : Type} (body : Eff S A) (handler : Exn -> Eff S A) : Eff S A :=
  fun s =>
    match body s with
    | (s1, Normal v) => (s1, Normal v)
    | (s1, Throw e) => handler e s1
    | (s1, Stuck) => (s1, Stuck)
    end.

(** [try { body } catch (e) { handler(e) } finally { fin }]: [fin] runs
    on every path and the completion is that of the [try]/[catch] part
    unless [fin] itself throws. *)
Definition tryCatchFinally {S A : Type}
  (body : Eff S A) (handler : Exn -> Eff S A) (fin : Eff S unit) : Eff S A :=
  fun s =>
    let (s2, r2) := tryCatch body handler s in
    match r2, fin s2 with
    | Stuck, _ => (s2, Stuck)
    | _, (s3, Normal _) => (s3, r2)
    | _, (s3, Throw e) => (s3, Throw e)
    | _, (s3, Stuck) => (s3, Stuck)
    end.

Module Notations.
  Declare Scope js_scope.
  Delimit Scope js_scope with js.
  Notation "x <- c ;; k" := (bind c (fun x => k))
    (at level 61, c at next level, right associativity) : js_scope.
  Notation "c ;; k" := (bind c (fun _ => k))
    (at level 61, right associativity) : js_scope.
End Notations.

End Js.

(* ================================================================== *)
(** ** The reaction store *)
(* ================================================================== *)

Module ReactionStore.

(** Modelled from the spec: [ReactionType] of '@/types', a module the store
    imports and that is not among the modelled sources.  The data model gives
    [Kind(confused|more)], and the store compares [type] with the two
    literals ['confused'] and ['more']. *)
Inductive ReactionType : Type := confused | more.

Definition ReactionType_eqb (a b : ReactionType) : bool :=
  match a, b with
  | confused, confused | more, more => true
  | _, _ => false
  end.

(** Modelled from the spec: [ReactionCount] of '@/types', the per-type
    score map of the data model: an object with the two numeric keys
    [confused] and [more], as the store builds and reads it. *)
Record ReactionCount : Type := mkCount { count_confused : Z; count_more : Z }.

(** [{ ...rc, [type]: count }] *)
Definition setKey (rc : ReactionCount) (k : ReactionType) (count : Z) : ReactionCount :=
  match k with
  | confused => mkCount count (count_more rc)
  | more => mkCount (count_confused rc) count
  end.

Definition getKey (rc : ReactionCount) (k : ReactionType) : Z :=
  match k with
  | confused => count_confused rc
  | more => count_more rc
  end.

Definition GLOW_THRESHOLD : Z := 5.
Definition SLIDING_WINDOW_MS : Z := 30000.

Record TimestampedReaction : Type := mkReaction {
  type : ReactionType;
  timestamp : Z;
  points : Z
}.

Record ReactionState : Type := mkState {
  recentReactions : ReactionCount;
  intensity : Z;
  dominantType : option ReactionType;
  glowActive : bool;
  reactions : list TimestampedReaction
}.

(** What an updater hands to zustand's [set]: the keys it returns; a key
    that is left out keeps its value. *)
Record Partial : Type := mkPartial {
  p_recentReactions : option ReactionCount;
  p_intensity : option Z;
  p_dominantType : option (option ReactionType);
  p_glowActive : option bool;
  p_reactions : option (list TimestampedReaction)
}.

Definition orKeep {A : Type} (new : option A) (old : A) : A :=
  match new with Some v => v | None => old end.

Definition merge (st : ReactionState) (p : Partial) : ReactionState :=
  mkState (orKeep (p_recentReactions p) (recentReactions st))
          (orKeep (p_intensity p) (intensity st))
          (orKeep (p_dominantType p) (dominantType st))
          (orKeep (p_glowActive p) (glowActive st))
          (orKeep (p_reactions p) (reactions st)).

(** [set((state) => partial)] *)
Definition set (updater : ReactionState -> Partial) (st : ReactionState) : ReactionState :=
  merge st (updater st).

Definition initial : ReactionState :=
  mkState (mkCount 0 0) 0 None false [].

(** [l.filter(r => r.type === k).reduce((sum, r) => sum + r.points, 0)] *)
Definition scoreOf (k : ReactionType) (l : list TimestampedReaction) : Z :=
  fold_left (fun sum r => sum + points r)
            (filter (fun r => ReactionType_eqb (type r) k) l) 0.

(** The [let dominant = null; if ... else if ...] block shared by the three
    updaters. *)
Definition dominantOf (c m : Z) : option ReactionType :=
  if c >=? GLOW_THRESHOLD then Some confused
  else if m >=? GLOW_THRESHOLD then Some more
  else None.

Definition glowOf (c m : Z) : bool :=
  (c >=? GLOW_THRESHOLD) || (m >=? GLOW_THRESHOLD).

Definition addReaction (ty : ReactionType) (isRapidClick : bool) (now : Z)
  : ReactionState -> ReactionState :=
  set (fun state =>
    let points := if isRapidClick then 2 else 1 in
    let newReactions :=
      filter (fun r => now - timestamp r <? SLIDING_WINDOW_MS) (reactions state)
      ++ [mkReaction ty now points] in
    let c := scoreOf confused newReactions in
    let m := scoreOf more newReactions in
    let dominant := dominantOf c m in
    let glow := glowOf c m in
    let intens := if glow then 100 else 0 in
    mkPartial (Some (mkCount c m)) (Some intens) (Some dominant) (Some glow)
              (Some newReactions)).

Definition setReactionsFromBackend (c m : Z) : ReactionState -> ReactionState :=
  set (fun _ =>
    let dominant := dominantOf c m in
    let glow := glowOf c m in
    mkPartial (Some (mkCount c m)) (Some (if glow then 100 else 0))
              (Some dominant) (Some glow) None).

Definition updateReactions (ty : ReactionType) (count intens : Z)
  : ReactionState -> ReactionState :=
  set (fun state =>
    let newReactions := setKey (recentReactions state) ty count in
    let dominant := dominantOf (count_confused newReactions) (count_more newReactions) in
    let glow := glowOf (count_confused newReactions) (count_more newReactions) in
    mkPartial (Some newReactions) (Some (if glow then 100 else intens))
              (Some dominant) (Some glow) None).

(** [set({ ... })] with a constant object. *)
Definition resetReactions : ReactionState -> ReactionState :=
  set (fun _ =>
    mkPartial (Some (mkCount 0 0)) (Some 0) (Some None) (Some false) (Some [])).

(** The calls of the claims on reachable states, with the clock value an
    [addReaction] call reads. *)
Inductive Action : Type :=
| AddReaction (ty : ReactionType) (isRapidClick : bool) (now : Z)
| SetReactionsFromBackend (c m : Z)
| ResetReactions.

Definition perform (a : Action) : ReactionState -> ReactionState :=
  match a with
  | AddReaction ty r now => addReaction ty r now
  | SetReactionsFromBackend c m => setReactionsFromBackend c m
  | ResetReactions => resetReactions
  end.

Inductive reachable : ReactionState -> Prop :=
| reach_initial : reachable initial
| reach_perform a st : reachable st -> reachable (perform a st).

(** The glow rule, stated on a store state: the three derived fields as
    functions of the two displayed scores. *)
Definition glowRule (st : ReactionState) : Prop :=
  let c := count_confused (recentReactions st) in
  let m := count_more (recentReactions st) in
  (glowActive st = true <-> (5 <= c \/ 5 <= m)) /\
  (5 <= c -> dominantType st = Some confused) /\
  (c < 5 -> 5 <= m -> dominantType st = Some more) /\
  (c < 5 -> m < 5 -> dominantType st = None) /\
  (glowActive st = true -> intensity st = 100) /\
  (glowActive st = false -> intensity st = 0).

(** The sum of the points of the events of type [k], by recursion on the
    log: the reading of "sum of points per type" that [scoreOf] is compared
    with. *)
Fixpoint sumPoints (k : ReactionType) (l : list TimestampedReaction) : Z :=
  match l with
  | [] => 0
  | r :: l' => (if ReactionType_eqb (type r) k then points r else 0) + sumPoints k l'
  end.

Definition inWindow (now : Z) (r : TimestampedReaction) : Prop :=
  now - timestamp r < 30000.

(** An [addReaction] call: type, rapid flag, and the clock value it reads. *)
Definition Call : Type := (ReactionType * bool * Z)%type.

Definition timeOf (c : Call) : Z := snd c.

(** The event a call appends. *)
Definition eventOf (c : Call) : TimestampedReaction :=
  let '(ty, isRapidClick, now) := c in
  mkReaction ty now (if isRapidClick then 2 else 1).

(** [addReaction] calls in sequence. *)
Definition record (calls : list Call) (st : ReactionState) : ReactionState :=
  fold_left (fun acc c => let '(ty, isRapidClick, now) := c in
                          addReaction ty isRapidClick now acc)
            calls st.

(** The events of [l] inside the 30-second window at [now]. *)
Definition windowAt (now : Z) (l : list TimestampedReaction) : list TimestampedReaction :=
  filter (fun r => now - timestamp r <? 30000) l.

(** The four fields an authoritative snapshot writes. *)
Definition displayed (st : ReactionState)
  : ReactionCount * Z * option ReactionType * bool :=
  (recentReactions st, intensity st, dominantType st, glowActive st).

End ReactionStore.

(* ================================================================== *)
(** ** The audience page *)
(* ================================================================== *)

Module Audience.
Import Js Js.Notations.

(** A JavaScript string as its UTF-16 code units. *)
Definition JsString : Type := list N.

(** WhiteSpace and LineTerminator of ECMAScript, the code units
    [String.prototype.trim] strips. *)
Definition isWhiteSpace (c : N) : bool :=
  ((9 <=? c) && (c <=? 13) ||
   (c =? 32) || (c =? 160) || (c =? 5760) ||
   (8192 <=? c) && (c <=? 8202) ||
   (c =? 8232) || (c =? 8233) || (c =? 8239) || (c =? 8287) ||
   (c =? 12288) || (c =? 65279))%N.

Fixpoint trimStart (s : JsString) : JsString :=
  match s with
  | [] => []
  | c :: s' => if isWhiteSpace c then trimStart s' else s
  end.

Definition trimEnd (s : JsString) : JsString := rev (trimStart (rev s)).

(** [s.trim()] *)
Definition trim (s : JsString) : JsString := trimEnd (trimStart s).

(** [!s]: the empty string is the one falsy string. *)
Definition isEmpty (s : JsString) : bool :=
  match s with [] => true | _ :: _ => false end.

Fixpoint digits (u : Decimal.uint) : JsString :=
  match u with
  | Decimal.Nil => []
  | Decimal.D0 u' => 48%N :: digits u'
  | Decimal.D1 u' => 49%N :: digits u'
  | Decimal.D2 u' => 50%N :: digits u'
  | Decimal.D3 u' => 51%N :: digits u'
  | Decimal.D4 u' => 52%N :: digits u'
  | Decimal.D5 u' => 53%N :: digits u'
  | Decimal.D6 u' => 54%N :: digits u'
  | Decimal.D7 u' => 55%N :: digits u'
  | Decimal.D8 u' => 56%N :: digits u'
  | Decimal.D9 u' => 57%N :: digits u'
  end.

(** [n.toString()] on an integer. *)
Definition toString (n : Z) : JsString :=
  match Z.to_int n with
  | Decimal.Pos u => digits u
  | Decimal.Neg u => 45%N :: digits u
  end.

Record SentQuestion : Type := mkSentQuestion {
  id : JsString;
  text : JsString;
  timestamp : Z
}.

Inductive LogEntry : Type :=
| FailedToSendQuestion (error : Exn)
| FailedToSendReaction (error : Exn).

(** The component state the two handlers read and write, the console, and
    the question requests issued. *)
Record Page : Type := mkPage {
  sessionCode : option JsString;
  question : JsString;
  isSubmitting : bool;
  sentQuestions : list SentQuestion;
  clickTimestamps : list Z;
  lastClickFeedback : option JsString;
  feedbackTimeouts : list Z;
  vibrations : list (list Z);
  questionRequests : list (JsString * JsString);
  console : list LogEntry
}.

(** *** Burst detection *)

(** The constants [handleReaction] computes from the click window and the
    clock, and the test guarding the feedback toast. *)
Record ReactionLocals : Type := mkLocals {
  recentClicks : list Z;
  newClicks : list Z;
  isRapidClick : bool;
  showsFeedback : bool
}.

Definition locals (clicks : list Z) (now : Z) : ReactionLocals :=
  let recent := filter (fun ts => now - ts <? 5000) clicks in
  let new := recent ++ [now] in
  let rapid := (5 <=? length new)%nat in
  mkLocals recent new rapid (rapid && (length new =? 5)%nat).

(** The feedback text, U+AC15 U+D558 U+AC8C, a space, U+C804 U+B2EC U+B410
    U+C5B4 U+C694 and an exclamation mark. *)
Definition STRONG_FEEDBACK : JsString :=
  [44053; 54616; 44172; 32; 51204; 45804; 46096; 50612; 50836; 33]%N.

(** [handleReaction] up to its network send: the click window, the haptic
    call ([hasVibrate]: whether [navigator.vibrate] exists), the toast and
    its 2-second timeout.  What follows in the source sends the reaction
    and logs, and writes none of these fields. *)
Definition handleReaction (hasVibrate : bool) (now : Z) (p : Page) : Page * ReactionLocals :=
  let l := locals (clickTimestamps p) now in
  let vib :=
    if hasVibrate
    then vibrations p ++ [if isRapidClick l then [100; 50; 100] else [50]]
    else vibrations p in
  let fired := showsFeedback l in
  (mkPage (sessionCode p) (question p) (isSubmitting p) (sentQuestions p)
          (newClicks l)
          (if fired then Some STRONG_FEEDBACK else lastClickFeedback p)
          (if fired then feedbackTimeouts p ++ [now + 2000] else feedbackTimeouts p)
          vib (questionRequests p) (console p),
   l).

(** The one-second cleanup interval:
    [setClickTimestamps(prev => prev.filter(ts => now - ts < 5000))]. *)
Definition cleanupTick (now : Z) (p : Page) : Page :=
  mkPage (sessionCode p) (question p) (isSubmitting p) (sentQuestions p)
         (filter (fun ts => now - ts <? 5000) (clickTimestamps p))
         (lastClickFeedback p) (feedbackTimeouts p) (vibrations p)
         (questionRequests p) (console p).

(** Clicks in sequence from a click window, with what each one computed. *)
Fixpoint clickRun (clicks : list Z) (times : list Z) : list ReactionLocals :=
  match times with
  | [] => []
  | now :: rest =>
      let l := locals clicks now in
      l :: clickRun (newClicks l) rest
  end.

(** *** Question submission *)

(** How the awaited [createQuestion] call settles. *)
Inductive Settled : Type :=
| Resolved
| Rejected (error : Exn).

Definition setIsSubmitting (b : bool) : Eff Page unit :=
  modify (fun p =>
    mkPage (sessionCode p) (question p) b (sentQuestions p) (clickTimestamps p)
           (lastClickFeedback p) (feedbackTimeouts p) (vibrations p)
           (questionRequests p) (console p)).

(** [setSentQuestions((prev) => [newQuestion, ...prev])] *)
Definition prependSentQuestion (q : SentQuestion) : Eff Page unit :=
  modify (fun p =>
    mkPage (sessionCode p) (question p) (isSubmitting p) (q :: sentQuestions p)
           (clickTimestamps p) (lastClickFeedback p) (feedbackTimeouts p)
           (vibrations p) (questionRequests p) (console p)).

Definition setQuestion (s : JsString) : Eff Page unit :=
  modify (fun p =>
    mkPage (sessionCode p) s (isSubmitting p) (sentQuestions p) (clickTimestamps p)
           (lastClickFeedback p) (feedbackTimeouts p) (vibrations p)
           (questionRequests p) (console p)).

Definition consoleError (e : LogEntry) : Eff Page unit :=
  modify (fun p =>
    mkPage (sessionCode p) (question p) (isSubmitting p) (sentQuestions p)
           (clickTimestamps p) (lastClickFeedback p) (feedbackTimeouts p)
           (vibrations p) (questionRequests p) (console p ++ [e])).

(** [await createQuestion(sessionCode || "", text)]: the request goes out,
    the handler is suspended while other handlers run ([during]: what they
    do to the page meanwhile), and the call returns or throws as the
    promise settles. *)
Definition awaitCreateQuestion (code text : JsString) (during : Page -> Page)
  (outcome : Settled) : Eff Page unit :=
  fun p =>
    (during
       (mkPage (sessionCode p) (question p) (isSubmitting p) (sentQuestions p)
               (clickTimestamps p) (lastClickFeedback p) (feedbackTimeouts p)
               (vibrations p) (questionRequests p ++ [(code, text)]) (console p)),
     match outcome with
     | Resolved => Normal tt
     | Rejected e => Throw e
     end).

(** The record built in both branches; [Date.now()] is read twice. *)
Definition addLocally (q : JsString) (now1 now2 : Z) : Eff Page unit :=
  (prependSentQuestion (mkSentQuestion (toString now1) (trim q) now2) ;;
   setQuestion [])%js.

(** [sessionCode || ""] *)
Definition orEmpty (code : option JsString) : JsString :=
  match code with
  | Some c => c
  | None => []
  end.

(** [handleSubmitQuestion].  [question] and [sessionCode] are read once,
    from the render the handler was created in; the state setters act on
    the state current when they run. *)
Definition handleSubmitQuestion (during : Page -> Page) (outcome : Settled)
  (now1 now2 : Z) : Eff Page unit :=
  fun p0 =>
    let q := question p0 in
    if isEmpty (trim q) then (p0, Normal tt)
    else
      (setIsSubmitting true ;;
       tryCatchFinally
         (awaitCreateQuestion (orEmpty (sessionCode p0)) (trim q) during outcome ;;
          addLocally q now1 now2)
         (fun error =>
            consoleError (FailedToSendQuestion error) ;;
            addLocally q now1 now2)
         (setIsSubmitting false))%js p0.

(** The page as the awaited call settles: submitting, the request out,
    and whatever other handlers did meanwhile. *)
Definition whenSettled (during : Page -> Page) (p0 : Page) : Page :=
  during
    (mkPage (sessionCode p0) (question p0) true (sentQuestions p0)
            (clickTimestamps p0) (lastClickFeedback p0) (feedbackTimeouts p0)
            (vibrations p0)
            (questionRequests p0 ++ [(orEmpty (sessionCode p0), trim (question p0))])
            (console p0)).

(** What the user sees of a submission: the input, the submitting flag and
    the list of sent questions. *)
Definition visible (p : Page) : JsString * bool * list SentQuestion :=
  (question p, isSubmitting p, sentQuestions p).

End Audience.

(* ================================================================== *)
(** ** The live update channel *)
(* ================================================================== *)

Module Channel.
Import Js Js.Notations.

#[local] Set Warnings "-register-all".

(** What [JSON.parse] returns, and [undefined] for what a property read
    yields on a missing key.  Numbers are the integral ones. *)
Inductive JsValue : Type :=
| JUndefined
| JNull
| JBool (b : bool)
| JNumber (n : Z)
| JString (s : string)
| JArray (items : list JsValue)
| JObject (fields : list (string * JsValue)).

(** The own property [k] of a parsed object (keys are distinct). *)
Fixpoint lookup (k : string) (fields : list (string * JsValue)) : JsValue :=
  match fields with
  | [] => JUndefined
  | (k', v) :: rest => if String.eqb k k' then v else lookup k rest
  end.

(** [v.k], for the keys the handler reads (none is inherited from a
    prototype): a TypeError on [null] and [undefined]. *)
Definition member (v : JsValue) (k : string) : Completion JsValue :=
  match v with
  | JUndefined | JNull => Throw (Error "TypeError")
  | JObject fields => Normal (lookup k fields)
  | _ => Normal JUndefined
  end.

(** [v?.k] *)
Definition optMember (v : JsValue) (k : string) : Completion JsValue :=
  match v with
  | JUndefined | JNull => Normal JUndefined
  | _ => member v k
  end.

(** [a ?? b], with [b] evaluated only when [a] is [null] or [undefined]. *)
Definition nullish (a : JsValue) (b : Completion JsValue) : Completion JsValue :=
  match a with
  | JUndefined | JNull => b
  | _ => Normal a
  end.

Definition andThen {A B : Type} (c : Completion A) (k : A -> Completion B) : Completion B :=
  match c with
  | Normal v => k v
  | Throw e => Throw e
  | Stuck => Stuck
  end.

(** [data.reactionCounts?.KEY ?? data.legacy ?? 0] *)
Definition countOf (data : JsValue) (key legacy : string) : Completion JsValue :=
  andThen (member data "reactionCounts") (fun rc =>
  andThen (optMember rc key) (fun v =>
  nullish v (andThen (member data legacy) (fun w =>
             nullish w (Normal (JNumber 0)))))).

(** The two constants [confused] and [more] of the message handler. *)
Definition normalize (data : JsValue) : Completion (JsValue * JsValue) :=
  andThen (countOf data "CONFUSED" "confusedCount") (fun c =>
  andThen (countOf data "MORE" "moreCount") (fun m =>
  Normal (c, m))).

(** The declared shape of an inbound message. *)
Record ReactionCounts : Type := mkCounts {
  CONFUSED : option Z;
  MORE : option Z
}.

Record ReactionMessage : Type := mkMessage {
  sessionId : string;
  reactionCounts : option ReactionCounts;
  confusedCount : option Z;
  moreCount : option Z;
  timestamp : option Z
}.

Definition field (k : string) (v : option Z) : list (string * JsValue) :=
  match v with
  | Some n => [(k, JNumber n)]
  | None => []
  end.

(** The value [JSON.parse] yields for a message of the declared shape: an
    object holding the keys that are present. *)
Definition toJs (msg : ReactionMessage) : JsValue :=
  JObject
    ([("sessionId"%string, JString (sessionId msg))]
     ++ match reactionCounts msg with
        | Some rc =>
            [("reactionCounts"%string,
              JObject (field "CONFUSED" (CONFUSED rc) ++ field "MORE" (MORE rc)))]
        | None => []
        end
     ++ field "confusedCount" (confusedCount msg)
     ++ field "moreCount" (moreCount msg)
     ++ field "timestamp" (timestamp msg)).

(** The normalization rule as the interface description words it:
    [reactionCounts.CONFUSED] if present, else [confusedCount] if present,
    else 0. *)
Definition firstPresent (a b : option Z) : Z :=
  match a, b with
  | Some n, _ => n
  | None, Some n => n
  | None, None => 0
  end.

Definition ruleConfused (msg : ReactionMessage) : Z :=
  firstPresent
    (match reactionCounts msg with Some rc => CONFUSED rc | None => None end)
    (confusedCount msg).

Definition ruleMore (msg : ReactionMessage) : Z :=
  firstPresent
    (match reactionCounts msg with Some rc => MORE rc | None => None end)
    (moreCount msg).

(** The STOMP client as far as the hook reads it. *)
Record Client : Type := mkClient {
  active : bool;
  connected : bool;
  subscriptions : list string
}.

Inductive LogEntry : Type :=
| LogConnecting
| LogConnected
| LogDisconnected
| LogReactionUpdate (data : JsValue)
| ErrFailedToParse (err : Exn)
| ErrStomp (message : option string)
| ErrWebSocket.

(** The hook's refs and state, the store it writes, the browser's table of
    pending timeouts (identifier and due time) and the console. *)
Record Hook : Type := mkHook {
  store : ReactionStore.ReactionState;
  clientRef : option Client;
  errorTimeoutRef : option nat;
  timers : list (nat * Z);
  nextTimerId : nat;
  isConnected : bool;
  connectionError : option string;
  onErrorCalls : list Exn;
  console : list LogEntry
}.

Definition initialHook : Hook :=
  mkHook ReactionStore.initial None None [] 1 false None [] [].

Definition WS_FAILED : string := "WebSocket connection failed".
Definition GRACE_MS : Z := 10000.

(** [clientRef.current?.connected], [clientRef.current?.active] as
    conditions. *)
Definition clientConnected (h : Hook) : bool :=
  match clientRef h with Some c => connected c | None => false end.

Definition clientActive (h : Hook) : bool :=
  match clientRef h with Some c => active c | None => false end.

Definition log (e : LogEntry) (h : Hook) : Hook :=
  mkHook (store h) (clientRef h) (errorTimeoutRef h) (timers h) (nextTimerId h)
         (isConnected h) (connectionError h) (onErrorCalls h) (console h ++ [e]).

Definition setStore (f : ReactionStore.ReactionState -> ReactionStore.ReactionState)
  (h : Hook) : Hook :=
  mkHook (f (store h)) (clientRef h) (errorTimeoutRef h) (timers h) (nextTimerId h)
         (isConnected h) (connectionError h) (onErrorCalls h) (console h).

Definition setClient (c : option Client) (h : Hook) : Hook :=
  mkHook (store h) c (errorTimeoutRef h) (timers h) (nextTimerId h)
         (isConnected h) (connectionError h) (onErrorCalls h) (console h).

Definition setIsConnected (b : bool) (h : Hook) : Hook :=
  mkHook (store h) (clientRef h) (errorTimeoutRef h) (timers h) (nextTimerId h)
         b (connectionError h) (onErrorCalls h) (console h).

Definition setConnectionError (e : option string) (h : Hook) : Hook :=
  mkHook (store h) (clientRef h) (errorTimeoutRef h) (timers h) (nextTimerId h)
         (isConnected h) e (onErrorCalls h) (console h).

(** [onErrorRef.current?.(err)] *)
Definition callOnError (err : Exn) (h : Hook) : Hook :=
  mkHook (store h) (clientRef h) (errorTimeoutRef h) (timers h) (nextTimerId h)
         (isConnected h) (connectionError h) (onErrorCalls h ++ [err]) (console h).

(** [clearTimeout(id)] *)
Definition clearTimeout (id : nat) (h : Hook) : Hook :=
  mkHook (store h) (clientRef h) (errorTimeoutRef h)
         (filter (fun t => negb (Nat.eqb (fst t) id)) (timers h)) (nextTimerId h)
         (isConnected h) (connectionError h) (onErrorCalls h) (console h).

Definition setErrorTimeoutRef (r : option nat) (h : Hook) : Hook :=
  mkHook (store h) (clientRef h) r (timers h) (nextTimerId h)
         (isConnected h) (connectionError h) (onErrorCalls h) (console h).

(** [errorTimeoutRef.current = setTimeout(callback, delay)] at time [now]:
    a fresh identifier, due at [now + delay]. *)
Definition armErrorTimeout (now delay : Z) (h : Hook) : Hook :=
  mkHook (store h) (clientRef h) (Some (nextTimerId h))
         (timers h ++ [(nextTimerId h, now + delay)]) (S (nextTimerId h))
         (isConnected h) (connectionError h) (onErrorCalls h) (console h).

(** [if (errorTimeoutRef.current) { clearTimeout(...); ... = null; }] *)
Definition clearPendingError (h : Hook) : Hook :=
  match errorTimeoutRef h with
  | Some id => setErrorTimeoutRef None (clearTimeout id h)
  | None => h
  end.

Section WithRuntime.

(** [JSON.parse], of the JavaScript runtime: a value, or a SyntaxError
    thrown. *)
Variable JSON_parse : string -> Completion JsValue.

(** The [sessionId] option of the hook. *)
Variable session : string.

(** [getReactionTopic(sessionId)] of lib/api. *)
Definition getReactionTopic (sessionId : string) : string :=
  ("/topic/session/" ++ sessionId ++ "/reactions")%string.

(** [setReactionsFromBackend(confused, more)] on what [normalize] produced:
    the store holds numbers. *)
Definition deliver (cm : JsValue * JsValue) : Eff Hook unit :=
  match cm with
  | (JNumber c, JNumber m) =>
      modify (setStore (ReactionStore.setReactionsFromBackend c m))
  | _ => lift Stuck
  end.

(** The subscription callback. *)
Definition onMessage (body : string) : Eff Hook unit :=
  tryCatch
    (data <- lift (JSON_parse body) ;;
     modify (log (LogReactionUpdate data)) ;;
     cm <- lift (normalize data) ;;
     deliver cm)%js
    (fun err => modify (log (ErrFailedToParse err))).

(** [connect()], also what [reconnect] is bound to. *)
Definition connect (h : Hook) : Hook :=
  if clientActive h then h
  else
    let h1 := clearPendingError h in
    let h2 := log LogConnecting h1 in
    (* new Client(...); client.activate(); clientRef.current = client *)
    setClient (Some (mkClient true false [])) h2.

(** [disconnect()], the cleanup of the mount effect. *)
Definition disconnect (h : Hook) : Hook :=
  let h1 := clearPendingError h in
  match clientRef h1 with
  | Some _ => setIsConnected false (setClient None h1)
  | None => h1
  end.

(** [client.subscribe(topic, callback)] *)
Definition subscribe (topic : string) (h : Hook) : Hook :=
  match clientRef h with
  | Some c => setClient (Some (mkClient (active c) (connected c) (subscriptions c ++ [topic]))) h
  | None => h
  end.

(** The [onConnect] callback of the client. *)
Definition onConnect (h : Hook) : Hook :=
  let h1 := log LogConnected h in
  let h2 := clearPendingError h1 in
  let h3 := setIsConnected true h2 in
  let h4 := setConnectionError None h3 in
  subscribe (getReactionTopic session) h4.

(** The [onDisconnect] callback. *)
Definition onDisconnect (h : Hook) : Hook :=
  setIsConnected false (log LogDisconnected h).

(** [frame.headers.message || 'Connection error'] *)
Definition orConnectionError (message : option string) : string :=
  match message with
  | Some EmptyString | None => "Connection error"
  | Some m => m
  end.

(** The [onStompError] callback; [message] is [frame.headers.message]. *)
Definition onStompError (message : option string) (h : Hook) : Hook :=
  let h1 := log (ErrStomp message) h in
  let h2 := setConnectionError (Some (orConnectionError message)) h1 in
  callOnError (Error (match message with Some m => m | None => "" end)) h2.

(** The function handed to [setTimeout] by [onWebSocketError]. *)
Definition graceExpired (h : Hook) : Hook :=
  let h1 :=
    if negb (clientConnected h)
    then callOnError (Error WS_FAILED) (setConnectionError (Some WS_FAILED) h)
    else h in
  setErrorTimeoutRef None h1.

(** The [onWebSocketError] callback, run at time [now]. *)
Definition onWebSocketError (now : Z) (h : Hook) : Hook :=
  let h1 := log ErrWebSocket h in
  match errorTimeoutRef h1 with
  | None => if negb (clientConnected h1) then armErrorTimeout now GRACE_MS h1 else h1
  | Some _ => h1
  end.

(** What the STOMP client does to its own [connected] flag: set before it
    calls [onConnect], cleared when the socket goes away. *)
Definition markConnected (b : bool) (h : Hook) : Hook :=
  match clientRef h with
  | Some c => setClient (Some (mkClient (active c) b (subscriptions c))) h
  | None => h
  end.

(** What can happen to a mounted hook. *)
Inductive Event : Type :=
| Connect
| Disconnect
| OnConnect
| OnDisconnect
| OnStompError (message : option string)
| OnWebSocketError
| SocketClosed
| TimerFired (id : nat)
| Message (body : string).

(** The client is connected and holds the subscription to the session's
    topic. *)
Definition subscribed (h : Hook) : bool :=
  match clientRef h with
  | Some c =>
      connected c && existsb (String.eqb (getReactionTopic session)) (subscriptions c)
  | None => false
  end.

Definition dueOf (id : nat) (h : Hook) : option Z :=
  match find (fun t => Nat.eqb (fst t) id) (timers h) with
  | Some t => Some (snd t)
  | None => None
  end.

(** One event at time [now]; [None] when the event cannot happen in [h]
    (the client calls [onConnect] only while active, a timeout runs only
    when pending and due, a message arrives only on a subscription of a
    connected client) or when the callback is stuck. *)
Definition step (now : Z) (ev : Event) (h : Hook) : option Hook :=
  match ev with
  | Connect => Some (connect h)
  | Disconnect => Some (disconnect h)
  | OnConnect =>
      if clientActive h then Some (onConnect (markConnected true h)) else None
  | OnDisconnect => Some (onDisconnect (markConnected false h))
  | OnStompError message => Some (onStompError message h)
  | OnWebSocketError => Some (onWebSocketError now h)
  | SocketClosed => Some (markConnected false h)
  | TimerFired id =>
      match dueOf id h with
      | Some due =>
          if due <=? now then Some (graceExpired (clearTimeout id h)) else None
      | None => None
      end
  | Message body =>
      if subscribed h
      then match onMessage body h with
           | (h', Normal _) => Some h'
           | _ => None
           end
      else None
  end.

(** A run: timed events in order, from [h]. *)
Fixpoint run (tr : list (Z * Event)) (h : Hook) : option Hook :=
  match tr with
  | [] => Some h
  | (now, ev) :: rest =>
      match step now ev h with
      | Some h' => run rest h'
      | None => None
      end
  end.

End WithRuntime.

(** The connection side of the hook: everything but the store and the
    console. *)
Definition connection (h : Hook)
  : option Client * option nat * list (nat * Z) * nat * bool * option string * list Exn :=
  (clientRef h, errorTimeoutRef h, timers h, nextTimerId h, isConnected h,
   connectionError h, onErrorCalls h).

(** A stand-in for [JSON.parse] that accepts the one body [accepted], as
    the value [v], and throws on every other: enough to run the handler on
    a chosen message. *)
Definition parseOnly (accepted : string) (v : JsValue) (body : string)
  : Completion JsValue :=
  if String.eqb body accepted then Normal v else Throw (Error "SyntaxError").

(** The message with an empty count map, as parsed. *)
Definition emptyCounts : JsValue :=
  JObject [("reactionCounts"%string, JObject [])].

(** The error timeout and the timer table agree: no timeout pending, or
    the one the ref names, set by an [onWebSocketError] call of the run
    [tr] at some time [t0] and due [GRACE_MS] later. *)
Definition graceInv (tr : list (Z * Event)) (h : Hook) : Prop :=
  match errorTimeoutRef h with
  | None => timers h = []
  | Some id =>
      exists t0, timers h = [(id, t0 + 10000)] /\ In (t0, OnWebSocketError) tr
  end.

(** The events that always leave the error timeout cleared. *)
Definition cancels (ev : Event) : bool :=
  match ev with
  | OnConnect | Disconnect | TimerFired _ => true
  | _ => false
  end.

(** The timeout [id] was set by the [onWebSocketError] call of the run
    [tr] at time [t0]: that call found no timeout pending and the client
    unconnected, and took [id] as the next identifier; no event since has
    cancelled it. *)
Definition armedAt (JSON_parse : string -> Completion JsValue) (session : string)
  (tr : list (Z * Event)) (id : nat) (t0 : Z) : Prop :=
  exists tr1 tr2 h1,
    tr = tr1 ++ (t0, OnWebSocketError) :: tr2 /\
    run JSON_parse session tr1 initialHook = Some h1 /\
    errorTimeoutRef h1 = None /\
    clientConnected h1 = false /\
    nextTimerId h1 = id /\
    (forall t ev, In (t, ev) tr2 -> cancels ev = false).

End Channel.

(* ================================================================== *)
(** ** The store under all four of its actions *)
(* ================================================================== *)

Module StoreOps.
Import ReactionStore.

(** A call of any action of the store: the three of [Action], or the demo
    path [updateReactions]. *)
Inductive Op : Type :=
| Plain (a : Action)
| UpdateReactions (ty : ReactionType) (count intens : Z).

Definition apply (o : Op) : ReactionState -> ReactionState :=
  match o with
  | Plain a => perform a
  | UpdateReactions ty count intens => updateReactions ty count intens
  end.

Inductive reachableAny : ReactionState -> Prop :=
| any_initial : reachableAny initial
| any_apply o st : reachableAny st -> reachableAny (apply o st).

(** What all four actions keep: the glow flag and the dominant type follow
    the two scores, and a glowing state has intensity 100. *)
Definition thresholdRule (st : ReactionState) : Prop :=
  let c := count_confused (recentReactions st) in
  let m := count_more (recentReactions st) in
  (glowActive st = true <-> (5 <= c \/ 5 <= m)) /\
  (5 <= c -> dominantType st = Some confused) /\
  (c < 5 -> 5 <= m -> dominantType st = Some more) /\
  (c < 5 -> m < 5 -> dominantType st = None) /\
  (glowActive st = true -> intensity st = 100).

(** Every logged event weighs 1 or 2. *)
Definition weightsOk (l : list TimestampedReaction) : Prop :=
  forall r, In r l -> points r = 1 \/ points r = 2.

End StoreOps.

(* ================================================================== *)
(** ** The presenter dashboard *)
(* ================================================================== *)

Module Dashboard.
Import Js Js.Notations ReactionStore.

Definition JsString : Type := Audience.JsString.

(** The two texts of [getMessage], as code units. *)
Definition MSG_CONFUSED : JsString :=
  [51312; 44552; 32; 45908; 32; 54400; 50612; 49436; 32; 49444; 47749; 54644;
   51452; 49464; 50836]%N.

Definition MSG_MORE : JsString :=
  [51060; 32; 48512; 48516; 32; 45908; 32; 44618; 51060; 32; 45796; 47364;
   51452; 49464; 50836]%N.

(** [getMessage], over the store fields the component reads. *)
Definition getMessage (st : ReactionState) : option JsString :=
  match dominantType st with
  | None => None
  | Some d =>
      if negb (glowActive st) then None
      else match d with
           | confused => Some MSG_CONFUSED
           | more => Some MSG_MORE
           end
  end.

Definition ORANGE : string := "rgba(255, 165, 0, 0.6)".
Definition BLUE : string := "rgba(0, 150, 255, 0.6)".

(** [getGlowStyle]: [None] for the empty style object, else the
    [background] it sets. *)
Definition getGlowStyle (st : ReactionState) : option string :=
  if negb (glowActive st) then None
  else match dominantType st with
       | None => None
       | Some d =>
           let color := match d with confused => ORANGE | more => BLUE end in
           Some ("radial-gradient(circle at 50% 50%, " ++ color
                 ++ " 0%, transparent 70%)")%string
       end.

(** The three demo controls; the two [+5] handlers read [recentReactions]
    of the render they were created in. *)
Inductive DemoButton : Type := PlusConfused | PlusMore | Reset.

Definition press (b : DemoButton) (st : ReactionState) : ReactionState :=
  match b with
  | PlusConfused =>
      updateReactions confused (count_confused (recentReactions st) + 5) 100 st
  | PlusMore =>
      updateReactions more (count_more (recentReactions st) + 5) 100 st
  | Reset => resetReactions st
  end.

Definition pressAll (bs : list DemoButton) (st : ReactionState) : ReactionState :=
  fold_left (fun acc b => press b acc) bs st.

(** The store after demo presses that brought the scores to [5 * i] and
    [5 * j]: derived fields computed from them, an empty log. *)
Definition demoState (i j : nat) : ReactionState :=
  let c := 5 * Z.of_nat i in
  let m := 5 * Z.of_nat j in
  mkState (mkCount c m) (if glowOf c m then 100 else 0) (dominantOf c m)
          (glowOf c m) [].

(** *** The question list *)

(** [Question] of lib/api; the optional fields are those the backend does
    not send yet. *)
Record Question : Type := mkQuestion {
  id : Z;
  content : JsString;
  createdAt : JsString;
  sessionId : option Z;
  writerName : option JsString;
  answered : option bool
}.

(** [CheckedQuestion]: [{ ...q, checked }]. *)
Record CheckedQuestion : Type := mkChecked {
  question : Question;
  checked : bool
}.

(** A [Set<number>]: its elements in insertion order, without repeats. *)
Definition NumSet : Type := list Z.

Definition has (x : Z) (s : NumSet) : bool := existsb (Z.eqb x) s.

Definition add (x : Z) (s : NumSet) : NumSet :=
  if has x s then s else s ++ [x].

Definition delete (x : Z) (s : NumSet) : NumSet :=
  filter (fun y => negb (Z.eqb x y)) s.

(** [new Set(items)] *)
Definition ofArray (items : list Z) : NumSet :=
  fold_left (fun s x => add x s) items [].

Inductive LogEntry : Type :=
| FailedToFetchNewQuestions (error : Exn)
| FailedToFetchQuestions (error : Exn).

Record Dash : Type := mkDash {
  questions : list CheckedQuestion;
  checkedIds : NumSet;
  hasFetchedOnce : bool;
  isLoadingQuestions : bool;
  console : list LogEntry
}.

Definition setQuestions (f : list CheckedQuestion -> list CheckedQuestion) (d : Dash) : Dash :=
  mkDash (f (questions d)) (checkedIds d) (hasFetchedOnce d) (isLoadingQuestions d)
         (console d).

Definition setCheckedIds (f : NumSet -> NumSet) (d : Dash) : Dash :=
  mkDash (questions d) (f (checkedIds d)) (hasFetchedOnce d) (isLoadingQuestions d)
         (console d).

Definition setHasFetchedOnce (b : bool) (d : Dash) : Dash :=
  mkDash (questions d) (checkedIds d) b (isLoadingQuestions d) (console d).

Definition setIsLoadingQuestions (b : bool) (d : Dash) : Dash :=
  mkDash (questions d) (checkedIds d) (hasFetchedOnce d) b (console d).

Definition consoleError (e : LogEntry) (d : Dash) : Dash :=
  mkDash (questions d) (checkedIds d) (hasFetchedOnce d) (isLoadingQuestions d)
         (console d ++ [e]).

(** [handleToggleQuestion(id)] *)
Definition handleToggleQuestion (i : Z) (d : Dash) : Dash :=
  let d1 :=
    setQuestions
      (map (fun q => if id (question q) =? i
                     then mkChecked (question q) (negb (checked q))
                     else q)) d in
  setCheckedIds (fun prev => if has i prev then delete i prev else add i prev) d1.

(** How the awaited [getQuestions()] settles. *)
Inductive Fetched : Type :=
| Data (data : list Question)
| Failed (error : Exn).

(** [await getQuestions()]; [during] is what other handlers do to the
    component while the request is out. *)
Definition awaitGetQuestions (during : Dash -> Dash) (outcome : Fetched)
  : Eff Dash (list Question) :=
  fun d =>
    (during d,
     match outcome with
     | Data data => Normal data
     | Failed e => Throw e
     end).

(** [data.map(q => ({ ...q, checked: checkedIdsRef.current.has(q.id) }))],
    the ref holding the set of the latest render. *)
Definition withChecks (data : list Question) (d : Dash) : list CheckedQuestion :=
  map (fun q => mkChecked q (has (id q) (checkedIds d))) data.

(** [fetchQuestions(forceRefresh)].  [questions] is the list of the render
    the callback was created in, the state when it is called. *)
Definition fetchQuestions (forceRefresh : bool) (during : Dash -> Dash)
  (outcome : Fetched) : Eff Dash unit :=
  fun d0 =>
    if hasFetchedOnce d0 && negb forceRefresh && (0 <? length (questions d0))%nat
    then
      tryCatch
        (data <- awaitGetQuestions during outcome ;;
         let existingIds := ofArray (map (fun q => id (question q)) (questions d0)) in
         let newQuestions := filter (fun q => negb (has (id q) existingIds)) data in
         if (0 <? length newQuestions)%nat
         then modify (fun d => setQuestions (fun prev => withChecks newQuestions d ++ prev) d)
         else lift (Normal tt))%js
        (fun error => modify (consoleError (FailedToFetchNewQuestions error)))
        d0
    else
      (modify (setIsLoadingQuestions true) ;;
       tryCatchFinally
         (data <- awaitGetQuestions during outcome ;;
          modify (fun d => setQuestions (fun _ => withChecks data d) d) ;;
          modify (setHasFetchedOnce true))
         (fun error => modify (consoleError (FailedToFetchQuestions error)))
         (modify (setIsLoadingQuestions false)))%js d0.

(** Whether a call takes the incremental path. *)
Definition isIncremental (forceRefresh : bool) (d0 : Dash) : bool :=
  hasFetchedOnce d0 && negb forceRefresh && (0 <? length (questions d0))%nat.

(** The component as the awaited request settles. *)
Definition atSettle (forceRefresh : bool) (during : Dash -> Dash) (d0 : Dash) : Dash :=
  during (if isIncremental forceRefresh d0 then d0 else setIsLoadingQuestions true d0).

(** [newQuestions]: what the backend returned that the list of the calling
    render does not hold. *)
Definition unseen (d0 : Dash) (data : list Question) : list Question :=
  filter (fun q => negb (has (id q)
                           (ofArray (map (fun q => id (question q)) (questions d0)))))
         data.

(** The check mark of every listed question is its membership in the
    persisted set. *)
Definition inSync (d : Dash) : Prop :=
  forall q, In q (questions d) -> checked q = has (id (question q)) (checkedIds d).

Definition idsOf (l : list CheckedQuestion) : list Z :=
  map (fun q => id (question q)) l.

End Dashboard.

(* ================================================================== *)
(** ** The admin page *)
(* ================================================================== *)

Module Admin.
Import ReactionStore.

Definition JsString : Type := Audience.JsString.

(** [s.padStart(target, fill)] for a one-unit [fill]. *)
Definition padStart (target : nat) (fill : N) (s : JsString) : JsString :=
  repeat fill (target - length s) ++ s.

(** [n.toString().padStart(2, '0')] *)
Definition two (n : Z) : JsString := padStart 2 48%N (Audience.toString n).

(** What the duration interval computes from [diff = now - start]:
    [Math.floor(diff / 3600000)], [Math.floor((diff % 3600000) / 60000)],
    [Math.floor((diff % 60000) / 1000)]; [%] is the remainder with the sign
    of the dividend. *)
Definition hoursOf (diff : Z) : Z := diff / 3600000.
Definition minutesOf (diff : Z) : Z := Z.rem diff 3600000 / 60000.
Definition secondsOf (diff : Z) : Z := Z.rem diff 60000 / 1000.

(** The template [`${hours}:${minutes}:${seconds}`] over the padded
    fields. *)
Definition formatDuration (diff : Z) : JsString :=
  two (hoursOf diff) ++ [58%N] ++ two (minutesOf diff) ++ [58%N] ++ two (secondsOf diff).

Definition ZERO_DURATION : JsString := [48; 48; 58; 48; 48; 58; 48; 48]%N.

Record Page : Type := mkPage {
  sessionStartTime : option Z;
  sessionEndTime : option Z;
  duration : JsString;
  peakConfused : Z;
  peakMore : Z;
  sessionsEnded : nat
}.

Definition initialPage : Page := mkPage None None ZERO_DURATION 0 0 0.

(** The peak effect, run with the scores of the render it follows:
    [setPeakConfused(prev => Math.max(prev, recentReactions.confused))]
    and the same for more. *)
Definition trackPeaks (rc : ReactionCount) (p : Page) : Page :=
  mkPage (sessionStartTime p) (sessionEndTime p) (duration p)
         (Z.max (peakConfused p) (count_confused rc))
         (Z.max (peakMore p) (count_more rc))
         (sessionsEnded p).

(** [handleStartSession] at time [now]. *)
Definition handleStartSession (now : Z) (p : Page) : Page :=
  mkPage (Some now) None ZERO_DURATION 0 0 (sessionsEnded p).

(** [handleEndSession] at time [now]; [confirmed] is the answer to the
    [confirm] dialog, asked only when a session was started.
    [sessionsEnded] counts the 'Session ended' console lines. *)
Definition handleEndSession (confirmed : bool) (now : Z) (p : Page) : Page :=
  match sessionStartTime p with
  | None => p
  | Some _ =>
      if confirmed
      then mkPage (sessionStartTime p) (Some now) (duration p)
                  (peakConfused p) (peakMore p) (S (sessionsEnded p))
      else p
  end.

(** One tick of the duration interval at time [now]: the interval exists
    while a session is started and not ended, and its callback holds the
    start time of that render. *)
Definition durationTick (now : Z) (p : Page) : Page :=
  match sessionStartTime p, sessionEndTime p with
  | Some start, None =>
      mkPage (sessionStartTime p) (sessionEndTime p) (formatDuration (now - start))
             (peakConfused p) (peakMore p) (sessionsEnded p)
  | _, _ => p
  end.

(** The mounted page: its state, and the dependency values
    [[recentReactions.confused, recentReactions.more]] of the render
    before ([None] until the first render). *)
Record Mounted : Type := mkMounted {
  page : Page;
  peakDeps : option ReactionCount
}.

Definition mount : Mounted := mkMounted initialPage None.

(** React's comparison of the two dependency values. *)
Definition sameDeps (a b : ReactionCount) : bool :=
  (count_confused a =? count_confused b) && (count_more a =? count_more b).

(** A render with the store's scores [rc], and the peak effect after it:
    the effect runs after the first render and after a render whose
    dependency values differ from those of the render before. *)
Definition render (rc : ReactionCount) (m : Mounted) : Mounted :=
  match peakDeps m with
  | Some prev =>
      if sameDeps prev rc then m
      else mkMounted (trackPeaks rc (page m)) (Some rc)
  | None => mkMounted (trackPeaks rc (page m)) (Some rc)
  end.

(** A handler of the page; the render it causes has the scores of the
    render before. *)
Definition handle (f : Page -> Page) (m : Mounted) : Mounted :=
  mkMounted (f (page m)) (peakDeps m).

(** The renders of the page over the successive scores of the store. *)
Definition observe (scores : list ReactionCount) (m : Mounted) : Mounted :=
  fold_left (fun acc rc => render rc acc) scores m.

(** The peaks are at least the scores of the last render. *)
Definition covered (m : Mounted) : Prop :=
  forall d, peakDeps m = Some d ->
    count_confused d <= peakConfused (page m) /\ count_more d <= peakMore (page m).

End Admin.

(* ================================================================== *)
(** ** The join page *)
(* ================================================================== *)

Module Join.

Definition JsString : Type := Audience.JsString.

(** The class [a-zA-Z0-9] of the sanitizing pattern. *)
Definition isAlnum (c : N) : bool :=
  ((48 <=? c) && (c <=? 57) || (65 <=? c) && (c <=? 90) || (97 <=? c) && (c <=? 122))%N.

(** [value.replace(/[^a-zA-Z0-9]/g, '')]: without the [u] flag the
    pattern runs over code units. *)
Definition sanitize (value : JsString) : JsString := filter isAlnum value.

(** [toUpperCase] on a string of ASCII letters and digits, which is what
    [sanitize] returns: the lower-case letters move down by 32. *)
Definition toUpperCase (s : JsString) : JsString :=
  map (fun c => if ((97 <=? c) && (c <=? 122))%N then (c - 32)%N else c) s.

(** [newCode[index] = v] on a copy: an index past the end grows the array,
    the cells in between being holes, which every reader of a cell here
    ([join], the truth test, the input value) takes as the empty string. *)
Fixpoint setCell (index : nat) (v : JsString) (code : list JsString) : list JsString :=
  match index, code with
  | O, [] => [v]
  | O, _ :: rest => v :: rest
  | S i, [] => [] :: setCell i v []
  | S i, c :: rest => c :: setCell i v rest
  end.

(** [code.join('')] *)
Definition join (code : list JsString) : JsString := concat code.

Definition ENTER_SIX : JsString :=
  [54; 51088; 47532; 32; 53076; 46300; 47484; 32; 51077; 47141; 54644; 51452;
   49464; 50836]%N.

Record Page : Type := mkPage {
  code : list JsString;
  isLoading : bool;
  error : option JsString;
  navigations : list JsString
}.

Definition initialPage : Page := mkPage [[]; []; []; []; []; []] false None [].

(** [handleCodeChange(index, value)], without the focus move. *)
Definition handleCodeChange (index : nat) (value : JsString) (p : Page) : Page :=
  let sanitized := sanitize value in
  if (1 <? length sanitized)%nat then p
  else mkPage (setCell index (toUpperCase sanitized) (code p))
              (isLoading p) (error p) (navigations p).

(** [handleJoin]: [navigate] records the path [`/s/${sessionCode}`] and
    returns. *)
Definition handleJoin (p : Page) : Page :=
  let sessionCode := join (code p) in
  if negb (length sessionCode =? 6)%nat
  then mkPage (code p) (isLoading p) (Some ENTER_SIX) (navigations p)
  else mkPage (code p) false None (navigations p ++ [[47; 115; 47]%N ++ sessionCode]).

(** A character of a session code as the page produces it. *)
Definition isUpperAlnum (c : N) : bool :=
  ((48 <=? c) && (c <=? 57) || (65 <=? c) && (c <=? 90))%N.

(** A cell is empty or holds one such character. *)
Definition cellOk (cell : JsString) : Prop :=
  cell = [] \/ exists c, cell = [c] /\ isUpperAlnum c = true.

Definition codeOk (code : list JsString) : Prop :=
  length code = 6%nat /\ Forall cellOk code.

(** The pages reached from the initial one by typing into the six cells. *)
Inductive typed : Page -> Prop :=
| typed_initial : typed initialPage
| typed_change index value p :
    (index < 6)%nat -> typed p -> typed (handleCodeChange index value p).

End Join.

(* ================================================================== *)
(** ** The audience page: what is shown *)
(* ================================================================== *)

Module AudienceView.
Import Audience.

(** [sentQuestions.slice(0, 3)] *)
Definition displayedQuestions (p : Page) : list SentQuestion :=
  firstn 3 (sentQuestions p).

(** [sentQuestions.length - 3] *)
Definition remainingCount (p : Page) : Z :=
  Z.of_nat (length (sentQuestions p)) - 3.

(** [localStorage]: the pairs set, latest first. *)
Definition Storage : Type := list (JsString * JsString).

Definition sameString (a b : JsString) : bool :=
  if list_eq_dec N.eq_dec a b then true else false.

(** [localStorage.getItem(key)] *)
Fixpoint getItem (key : JsString) (s : Storage) : option JsString :=
  match s with
  | [] => None
  | (k, v) :: rest => if sameString key k then Some v else getItem key rest
  end.

(** [localStorage.setItem(key, value)] *)
Definition setItem (key value : JsString) (s : Storage) : Storage :=
  (key, value) :: s.

(** [`whisperq_onboarding_${sessionCode}`]: a missing route parameter
    prints as [undefined]. *)
Definition onboardingKey (code : option JsString) : JsString :=
  [119; 104; 105; 115; 112; 101; 114; 113; 95; 111; 110; 98; 111; 97; 114; 100;
   105; 110; 103; 95]%N
  ++ match code with
     | Some c => c
     | None => [117; 110; 100; 101; 102; 105; 110; 101; 100]%N
     end.

(** [showOnboarding] after the mount effect: initially true, set to false
    when the stored value is a non-empty string. *)
Definition showOnboardingOnMount (code : option JsString) (s : Storage) : bool :=
  match getItem (onboardingKey code) s with
  | Some (_ :: _) => false
  | _ => true
  end.

(** [handleDismissOnboarding]: the storage after it ([showOnboarding]
    becomes false). *)
Definition handleDismissOnboarding (code : option JsString) (s : Storage) : Storage :=
  setItem (onboardingKey code) [116; 114; 117; 101]%N s.

End AudienceView.

(* ================================================================== *)
(** ** The channel: further notions *)
(* ================================================================== *)

Module ChannelMore.
Import Js Channel.

(** [null] or [undefined]: what [??] and [?.] test for. *)
Definition isNullish (v : JsValue) : bool :=
  match v with
  | JUndefined | JNull => true
  | _ => false
  end.

(** The flags agree with the client: shown as connected only with an
    active client, a client held is active, and an error shown has a
    text. *)
Definition flagsOk (h : Hook) : Prop :=
  (isConnected h = true -> clientActive h = true) /\
  (forall c, clientRef h = Some c -> active c = true) /\
  connectionError h <> Some EmptyString.

(** [getReactionDestination()] of lib/api. *)
Definition getReactionDestination : string := "/app/reactions".

(** The snapshot a message body carries: the two counts the handler hands
    to [setReactionsFromBackend], when the body parses and the counts are
    read without a throw. *)
Definition snapshotOf (JSON_parse : string -> Completion JsValue) (body : string)
  : option (Z * Z) :=
  match JSON_parse body with
  | Normal data =>
      match normalize data with
      | Normal (JNumber c, JNumber m) => Some (c, m)
      | _ => None
      end
  | _ => None
  end.

(** The snapshot of the last message of a run that carried one. *)
Fixpoint lastSnapshot (JSON_parse : string -> Completion JsValue)
  (tr : list (Z * Event)) : option (Z * Z) :=
  match tr with
  | [] => None
  | (_, Message body) :: rest =>
      match lastSnapshot JSON_parse rest with
      | Some cm => Some cm
      | None => snapshotOf JSON_parse body
      end
  | _ :: rest => lastSnapshot JSON_parse rest
  end.

(** The store after the snapshot [last], if any, was written over [s]. *)
Definition written (last : option (Z * Z)) (s : ReactionStore.ReactionState)
  : ReactionStore.ReactionState :=
  match last with
  | Some (c, m) => ReactionStore.setReactionsFromBackend c m s
  | None => s
  end.

(** A stand-in for [JSON.parse] that accepts the bodies of a table and
    throws on every other. *)
Fixpoint parseTable (table : list (string * JsValue)) (body : string)
  : Completion JsValue :=
  match table with
  | [] => Throw (Error "SyntaxError")
  | (accepted, v) :: rest =>
      if String.eqb body accepted then Normal v else parseTable rest body
  end.

(** A message in the count-map shape, as parsed. *)
Definition countMap (c m : Z) : JsValue :=
  JObject [("reactionCounts"%string,
            JObject [("CONFUSED"%string, JNumber c); ("MORE"%string, JNumber m)])].

End ChannelMore.

(* ================================================================== *)
(** ** A click, from the handler to the network *)
(* ================================================================== *)

Module ClickPath.
Import Js Js.Notations ReactionStore.

(** [type === "confused" ? "CONFUSED" : "MORE"] *)
Inductive BackendType : Type := CONFUSED | MORE.

Definition backendType (ty : ReactionType) : BackendType :=
  match ty with
  | confused => CONFUSED
  | more => MORE
  end.

(** The call a click makes to send its reaction: the destination and the
    object given to [sendMessage], or the arguments of
    [sendReactionHttp].  Neither carries the rapid flag. *)
Inductive Outgoing : Type :=
| SendMessage (destination : string) (sessionId : option Audience.JsString)
    (kind : BackendType)
| SendReactionHttp (sessionId : Audience.JsString) (kind : BackendType).


(** The line [console.log("Reaction:", type, "Rapid:", isRapidClick,
    "Session:", sessionCode)]. *)
Record ReactionLine : Type := mkLine {
  lineType : ReactionType;
  lineRapid : bool;
  lineSession : option Audience.JsString
}.

(** The audience page and what stands beside it: the reaction store, which
    the page does not import, the send calls of its clicks, and its
    reaction lines on the console. *)
Record World : Type := mkWorld {
  page : Audience.Page;
  store : ReactionState;
  outgoing : list Outgoing;
  reactionLines : list ReactionLine
}.

(** What a click finds around it: whether [navigator.vibrate] exists, the
    [isConnected] flag of the hook in the render the handler belongs to,
    and how the send ends.  [sendMessage] comes from the hook's result;
    the hook versions among the sources return none, so the call is a
    parameter here: it returns, or throws as a call of [undefined] does.
    For [sendReactionHttp] the outcome is that of the awaited promise. *)
Record Env : Type := mkEnv {
  hasVibrate : bool;
  isConnected : bool;
  outcome : Audience.Settled
}.

Definition setPage (p : Audience.Page) : Eff World unit :=
  modify (fun w => mkWorld p (store w) (outgoing w) (reactionLines w)).

Definition send (o : Outgoing) : Eff World unit :=
  modify (fun w => mkWorld (page w) (store w) (outgoing w ++ [o]) (reactionLines w)).

Definition settle (s : Audience.Settled) : Eff World unit :=
  lift (match s with
        | Audience.Resolved => Normal tt
        | Audience.Rejected e => Throw e
        end).

Definition consoleError (e : Audience.LogEntry) : Eff World unit :=
  modify (fun w =>
    mkWorld (fst (Audience.consoleError e (page w))) (store w) (outgoing w)
            (reactionLines w)).

Definition consoleLog (l : ReactionLine) : Eff World unit :=
  modify (fun w => mkWorld (page w) (store w) (outgoing w) (reactionLines w ++ [l])).

(** [handleReaction] whole: the part of [Audience.handleReaction], then
    the send inside [try]/[catch] and the console line.  [during] is what
    other handlers do while [sendReactionHttp] is awaited.  Particles
    apart, these are all the statements of the handler; none names the
    store. *)
Definition handleReaction (env : Env) (during : World -> World)
  (ty : ReactionType) (now : Z) : Eff World unit :=
  fun w0 =>
    let code := Audience.sessionCode (page w0) in
    let (p1, l) := Audience.handleReaction (hasVibrate env) now (page w0) in
    (setPage p1 ;;
     tryCatch
       (if isConnected env
        then (send (SendMessage ChannelMore.getReactionDestination code (backendType ty)) ;;
              settle (outcome env))
        else (send (SendReactionHttp (Audience.orEmpty code) (backendType ty)) ;;
              modify during ;;
              settle (outcome env)))
       (fun error => consoleError (Audience.FailedToSendReaction error)) ;;
     consoleLog (mkLine ty (Audience.isRapidClick l) code))%js w0.


(** A freshly mounted page beside the initial store. *)
Definition start (code : option Audience.JsString) : World :=
  mkWorld (Audience.mkPage code [] false [] [] None [] [] [] []) initial [] [].




End ClickPath.

(* ================================================================== *)
(** * Properties of the reaction store *)
(* ================================================================== *)

Module StoreProps.
Import ReactionStore.

Lemma geb_threshold (x : Z) : (x >=? GLOW_THRESHOLD) = true <-> 5 <= x.
Proof. unfold GLOW_THRESHOLD. rewrite Z.geb_le. reflexivity. Qed.

Lemma geb_threshold_false (x : Z) : (x >=? GLOW_THRESHOLD) = false <-> x < 5.
Proof.
  unfold GLOW_THRESHOLD. rewrite Z.geb_leb, Z.leb_gt. reflexivity.
Qed.

Lemma glowOf_true (c m : Z) : glowOf c m = true <-> 5 <= c \/ 5 <= m.
Proof.
  unfold glowOf. rewrite orb_true_iff, !geb_threshold. reflexivity.
Qed.

Lemma dominantOf_confused (c m : Z) : 5 <= c -> dominantOf c m = Some confused.
Proof.
  intros H. unfold dominantOf.
  rewrite (proj2 (geb_threshold c) H). reflexivity.
Qed.

Lemma dominantOf_more (c m : Z) : c < 5 -> 5 <= m -> dominantOf c m = Some more.
Proof.
  intros Hc Hm. unfold dominantOf.
  rewrite (proj2 (geb_threshold_false c) Hc), (proj2 (geb_threshold m) Hm).
  reflexivity.
Qed.

Lemma dominantOf_none (c m : Z) : c < 5 -> m < 5 -> dominantOf c m = None.
Proof.
  intros Hc Hm. unfold dominantOf.
  rewrite (proj2 (geb_threshold_false c) Hc), (proj2 (geb_threshold_false m) Hm).
  reflexivity.
Qed.

(** A state whose derived fields were computed from its scores by the
    shared block obeys the glow rule, whatever the log. *)
Lemma glowRule_computed (c m : Z) (l : list TimestampedReaction) :
  glowRule (mkState (mkCount c m) (if glowOf c m then 100 else 0)
                    (dominantOf c m) (glowOf c m) l).
Proof.
  unfold glowRule; cbn.
  repeat split.
  - apply glowOf_true.
  - apply glowOf_true.
  - apply dominantOf_confused.
  - apply dominantOf_more.
  - apply dominantOf_none.
  - intros ->. reflexivity.
  - intros ->. reflexivity.
Qed.

Lemma glowRule_initial : glowRule initial.
Proof. exact (glowRule_computed 0 0 []). Qed.

Lemma glowRule_addReaction ty r now st : glowRule (addReaction ty r now st).
Proof. apply glowRule_computed. Qed.

Lemma glowRule_setReactionsFromBackend c m st :
  glowRule (setReactionsFromBackend c m st).
Proof. apply glowRule_computed. Qed.

Lemma glowRule_resetReactions st : glowRule (resetReactions st).
Proof. exact (glowRule_computed 0 0 []). Qed.

Lemma glowRule_perform a st : glowRule (perform a st).
Proof.
  destruct a; cbn [perform].
  - apply glowRule_addReaction.
  - apply glowRule_setReactionsFromBackend.
  - apply glowRule_resetReactions.
Qed.

(** C1.  Every store state reachable from the initial one by [addReaction],
    [setReactionsFromBackend] and [resetReactions] calls obeys the glow
    rule: [glowActive] holds exactly when the confused or the more score
    is at least 5; [dominantType] is confused when the confused score is
    at least 5 (also when both are), else more when the more score is at
    least 5, else null; [intensity] is 100 when [glowActive] and 0
    otherwise. *)
Theorem reachable_glowRule (st : ReactionState) :
  reachable st -> glowRule st.
Proof.
  induction 1 as [|a st _ _].
  - apply glowRule_initial.
  - apply glowRule_perform.
Qed.

Lemma reachable_glowRule_witness :
  glowRule
    (perform (AddReaction more false 7000)
       (perform (SetReactionsFromBackend 7 2)
          (perform (AddReaction confused true 1000) initial))).
Proof.
  apply reachable_glowRule.
  do 3 apply reach_perform. apply reach_initial.
Defined.

(** The fold of [scoreOf] started from any accumulator. *)
Lemma fold_points_acc (k : ReactionType) (l : list TimestampedReaction) (acc : Z) :
  fold_left (fun sum r => sum + points r)
            (filter (fun r => ReactionType_eqb (type r) k) l) acc
  = acc + sumPoints k l.
Proof.
  revert acc. induction l as [|r l IH]; intros acc; cbn [filter sumPoints].
  - cbn. lia.
  - destruct (ReactionType_eqb (type r) k); cbn [fold_left]; rewrite IH; lia.
Qed.

Lemma scoreOf_sumPoints (k : ReactionType) (l : list TimestampedReaction) :
  scoreOf k l = sumPoints k l.
Proof. unfold scoreOf. rewrite fold_points_acc. lia. Qed.

Lemma window_filter_In (now : Z) (l : list TimestampedReaction) (r : TimestampedReaction) :
  In r (filter (fun r => now - timestamp r <? SLIDING_WINDOW_MS) l)
  <-> In r l /\ inWindow now r.
Proof.
  rewrite filter_In. unfold inWindow, SLIDING_WINDOW_MS.
  rewrite Z.ltb_lt. reflexivity.
Qed.

Lemma sumPoints_app (k : ReactionType) (a b : list TimestampedReaction) :
  sumPoints k (a ++ b) = sumPoints k a + sumPoints k b.
Proof.
  induction a as [|r a IH]; cbn [app sumPoints]; [reflexivity|].
  rewrite IH. lia.
Qed.

Lemma addReaction_scores (st : ReactionState) (ty : ReactionType)
  (isRapid : bool) (now : Z) (k : ReactionType) :
  getKey (recentReactions (addReaction ty isRapid now st)) k
  = sumPoints k (reactions (addReaction ty isRapid now st)).
Proof. destruct k; cbn; apply scoreOf_sumPoints. Qed.

(** C2.  [addReaction(type, isRapid)] at time [now] makes the log the
    retained events followed by one new event stamped [now] and worth 2
    points if rapid, 1 otherwise; the retained events are those of the
    prior log with [now - timestamp < 30000], in their order (an event
    aged 30000 ms or more is gone); and each displayed score is the sum of
    the points of the events of its type in the new log, that is of the
    retained events of the type plus the new event when it has the type. *)
Theorem addReaction_spec (st : ReactionState) (ty : ReactionType)
  (isRapid : bool) (now : Z) :
  let st' := addReaction ty isRapid now st in
  let new := mkReaction ty now (if isRapid then 2 else 1) in
  exists kept,
    reactions st' = kept ++ [new] /\
    kept = filter (fun r => now - timestamp r <? 30000) (reactions st) /\
    (forall r, In r kept <-> In r (reactions st) /\ now - timestamp r < 30000) /\
    (forall r, In r (reactions st) -> 30000 <= now - timestamp r -> ~ In r kept) /\
    (forall k, getKey (recentReactions st') k = sumPoints k (reactions st')) /\
    (forall k, getKey (recentReactions st') k
               = sumPoints k kept + if ReactionType_eqb ty k then points new else 0).
Proof.
  cbn zeta.
  exists (filter (fun r => now - timestamp r <? SLIDING_WINDOW_MS) (reactions st)).
  split; [reflexivity|].
  split; [reflexivity|].
  split; [intros r; apply window_filter_In|].
  split.
  - intros r _ Hold Hin. apply window_filter_In in Hin.
    unfold inWindow in Hin. lia.
  - split; intros k; rewrite addReaction_scores; [reflexivity|].
    cbn [addReaction set merge orKeep reactions p_reactions].
    rewrite sumPoints_app. cbn. lia.
Qed.

(** Pruning at a later time subsumes pruning at an earlier one. *)
Lemma windowAt_windowAt (earlier later : Z) (l : list TimestampedReaction) :
  earlier <= later -> windowAt later (windowAt earlier l) = windowAt later l.
Proof.
  intros Hle. unfold windowAt.
  induction l as [|r l IH]; cbn [filter]; [reflexivity|].
  destruct (Z.ltb_spec (earlier - timestamp r) 30000) as [H|H]; cbn [filter].
  - rewrite IH. reflexivity.
  - rewrite IH.
    assert (E : (later - timestamp r <? 30000) = false) by (apply Z.ltb_ge; lia).
    rewrite E. reflexivity.
Qed.

Lemma windowAt_app (now : Z) (a b : list TimestampedReaction) :
  windowAt now (a ++ b) = windowAt now a ++ windowAt now b.
Proof. apply filter_app. Qed.

Lemma reactions_addReaction (st : ReactionState) (c : Call) :
  reactions (record [c] st) = windowAt (timeOf c) (reactions st ++ [eventOf c]).
Proof.
  destruct c as [[ty r] now]. cbn [record fold_left timeOf snd].
  rewrite windowAt_app. unfold windowAt at 2. cbn [eventOf filter timestamp].
  replace (now - now <? 30000) with true by (symmetry; apply Z.ltb_lt; lia).
  reflexivity.
Qed.

Lemma last_cons {A : Type} (l : list A) (x d : A) :
  last (x :: l) d = last l x.
Proof.
  revert x d. induction l as [|y l IH]; intros x d; [reflexivity|].
  change (last (x :: y :: l) d) with (last (y :: l) d).
  rewrite (IH y d), (IH y x). reflexivity.
Qed.

Lemma last_In {A : Type} (l : list A) (d : A) :
  l <> [] -> In (last l d) l.
Proof.
  induction l as [|x l IH]; [congruence|]. intros _.
  destruct l as [|y l]; [left; reflexivity|].
  right. apply IH. discriminate.
Qed.

(** Over a sequence of [addReaction] calls whose clock does not go back,
    the log is every event recorded, and already there, that lies within
    30 seconds of the last call. *)
Lemma reactions_record (rest : list Call) :
  forall (c : Call) (st : ReactionState),
    StronglySorted Z.le (map timeOf (c :: rest)) ->
    reactions (record (c :: rest) st)
    = windowAt (last (map timeOf rest) (timeOf c))
               (reactions st ++ map eventOf (c :: rest)).
Proof.
  induction rest as [|c' rest IH]; intros c st Hs.
  - apply reactions_addReaction.
  - change (record (c :: c' :: rest) st) with (record (c' :: rest) (record [c] st)).
    apply StronglySorted_inv in Hs. destruct Hs as [Hs Hall].
    rewrite (IH c' _ Hs), reactions_addReaction.
    assert (Hlast : last (map timeOf (c' :: rest)) (timeOf c)
                    = last (map timeOf rest) (timeOf c'))
      by (cbn [map]; apply last_cons).
    assert (Hle : timeOf c <= last (map timeOf rest) (timeOf c')).
    { rewrite <- Hlast. rewrite Forall_forall in Hall. apply Hall.
      apply last_In. discriminate. }
    rewrite Hlast.
    rewrite windowAt_app, (windowAt_windowAt _ _ _ Hle), <- windowAt_app.
    rewrite <- app_assoc. reflexivity.
Qed.

(** The property as the specification's test list words it: after any
    sequence of reactions recorded from the initial state by a clock that
    does not go back, each score is the sum of the points of the recorded
    events of its type with [now - timestamp < 30000], [now] being the time
    of the last one. *)
Lemma scores_record (c : Call) (rest : list Call) (k : ReactionType) :
  StronglySorted Z.le (map timeOf (c :: rest)) ->
  getKey (recentReactions (record (c :: rest) initial)) k
  = sumPoints k (windowAt (last (map timeOf rest) (timeOf c))
                          (map eventOf (c :: rest))).
Proof.
  intros Hs. pose proof (reactions_record rest c initial Hs) as Hr.
  change (reactions initial ++ map eventOf (c :: rest))
    with (map eventOf (c :: rest)) in Hr.
  rewrite <- Hr. clear Hr Hs.
  destruct (exists_last (l := c :: rest) ltac:(discriminate)) as (front & [[ty r] now] & ->).
  unfold record. rewrite fold_left_app. cbn [fold_left].
  apply addReaction_scores.
Qed.

(** C7.  [setReactionsFromBackend(confused, more)] sets the displayed
    scores to exactly the two arguments, leaves the state obeying the glow
    rule, writes the same displayed fields from any two prior states (so
    nothing of the prior log or scores shows through), and leaves the
    event log as it was; the snapshot (7, 2) gives [dominantType] confused
    and [glowActive] true from every prior state. *)
Theorem setReactionsFromBackend_spec (c m : Z) (st : ReactionState) :
  let st' := setReactionsFromBackend c m st in
  recentReactions st' = mkCount c m /\
  glowRule st' /\
  (forall other, displayed (setReactionsFromBackend c m other) = displayed st') /\
  reactions st' = reactions st /\
  dominantType (setReactionsFromBackend 7 2 st) = Some confused /\
  glowActive (setReactionsFromBackend 7 2 st) = true.
Proof.
  cbn zeta. repeat split.
  all: try apply (glowRule_setReactionsFromBackend c m st).
Qed.

Lemma intensity_perform (a : Action) (st : ReactionState) :
  intensity (perform a st) = 0 \/ intensity (perform a st) = 100.
Proof.
  destruct a; cbn.
  - destruct (glowOf _ _); auto.
  - destruct (glowOf _ _); auto.
  - auto.
Qed.

(** C10.  [updateReactions(type, count, intensity)] sets the score of the
    named type to [count] and keeps the other score and the event log;
    the stored intensity is 100 when one of the updated scores is at least
    5 and the [intensity] argument as given otherwise.  So it can store an
    intensity that is neither 0 nor 100 (37, from the initial state),
    which no [addReaction], [setReactionsFromBackend] or [resetReactions]
    call does. *)
Theorem updateReactions_spec (st : ReactionState) (ty : ReactionType)
  (count intens : Z) :
  let st' := updateReactions ty count intens st in
  let c := count_confused (recentReactions st') in
  let m := count_more (recentReactions st') in
  getKey (recentReactions st') ty = count /\
  (forall other, other <> ty ->
     getKey (recentReactions st') other = getKey (recentReactions st) other) /\
  reactions st' = reactions st /\
  (5 <= c \/ 5 <= m -> intensity st' = 100) /\
  (c < 5 -> m < 5 -> intensity st' = intens) /\
  intensity (updateReactions confused 1 37 initial) = 37 /\
  (forall a s, intensity (perform a s) = 0 \/ intensity (perform a s) = 100).
Proof.
  cbn zeta. repeat split.
  - destruct ty; reflexivity.
  - intros other Hne. destruct ty, other; try reflexivity; congruence.
  - intros H. cbn. apply glowOf_true in H. cbn in H. rewrite H. reflexivity.
  - intros Hc Hm. cbn.
    assert (G : glowOf (count_confused (setKey (recentReactions st) ty count))
                       (count_more (setKey (recentReactions st) ty count)) = false).
    { apply not_true_is_false. rewrite glowOf_true. cbn in Hc, Hm. lia. }
    rewrite G. reflexivity.
  - apply intensity_perform.
Qed.

End StoreProps.

(* ================================================================== *)
(** * Properties of the audience page *)
(* ================================================================== *)

Module AudienceProps.
Import Audience.

Lemma recent_In (clicks : list Z) (now ts : Z) :
  In ts (recentClicks (locals clicks now)) <-> In ts clicks /\ now - ts < 5000.
Proof.
  cbn [locals recentClicks]. rewrite filter_In, Z.ltb_lt. reflexivity.
Qed.

(** Nothing is evicted from a window whose clicks are all younger than
    5 seconds. *)
Lemma recent_all (clicks : list Z) (now : Z) :
  (forall ts, In ts clicks -> now - ts < 5000) ->
  recentClicks (locals clicks now) = clicks.
Proof.
  intros H. cbn [locals recentClicks].
  induction clicks as [|ts l IH]; cbn [filter]; [reflexivity|].
  assert (E : (now - ts <? 5000) = true)
    by (apply Z.ltb_lt, H; left; reflexivity).
  rewrite E, IH; [reflexivity|].
  intros ts' Hin. apply H. right. exact Hin.
Qed.

Lemma newClicks_length (clicks : list Z) (now : Z) :
  length (newClicks (locals clicks now))
  = S (length (recentClicks (locals clicks now))).
Proof. cbn [locals newClicks recentClicks]. rewrite length_app. cbn. lia. Qed.

Lemma isRapidClick_iff (clicks : list Z) (now : Z) :
  isRapidClick (locals clicks now) = true
  <-> (5 <= length (newClicks (locals clicks now)))%nat.
Proof. cbn [locals isRapidClick newClicks]. apply Nat.leb_le. Qed.

Lemma showsFeedback_iff (clicks : list Z) (now : Z) :
  showsFeedback (locals clicks now) = true
  <-> length (newClicks (locals clicks now)) = 5%nat.
Proof.
  cbn [locals showsFeedback newClicks].
  rewrite andb_true_iff, Nat.leb_le, Nat.eqb_eq. lia.
Qed.

(** The cleanup interval evicts nothing the next click would have kept:
    the clock does not go back between the tick and the click. *)
Lemma cleanup_invisible (clicks : list Z) (tick now : Z) :
  tick <= now ->
  filter (fun ts => now - ts <? 5000) (filter (fun ts => tick - ts <? 5000) clicks)
  = filter (fun ts => now - ts <? 5000) clicks.
Proof.
  intros Hle. induction clicks as [|ts l IH]; cbn [filter]; [reflexivity|].
  destruct (Z.ltb_spec (tick - ts) 5000) as [Ht|Ht]; cbn [filter].
  - rewrite IH. reflexivity.
  - rewrite IH.
    assert (E : (now - ts <? 5000) = false) by (apply Z.ltb_ge; lia).
    rewrite E. reflexivity.
Qed.

(** A click that finds five stored timestamps, the oldest of them 5
    seconds old or more and the other four younger. *)
Lemma locals_oldest_evicted (a b c d e now : Z) :
  5000 <= now - a ->
  now - b < 5000 -> now - c < 5000 -> now - d < 5000 -> now - e < 5000 ->
  locals [a; b; c; d; e] now = mkLocals [b; c; d; e] [b; c; d; e; now] true true.
Proof.
  intros Ha Hb Hc Hd He. unfold locals. cbn [filter].
  apply Z.ltb_ge in Ha. apply Z.ltb_lt in Hb, Hc, Hd, He.
  rewrite Ha, Hb, Hc, Hd, He. reflexivity.
Qed.

(** The click window before click number [k] (from 0) of a run of clicks
    one second apart: the last five clicks, or all [k] when fewer. *)
Lemma steady_click (t0 : Z) (k : nat) :
  let ts := fun i : nat => t0 + 1000 * Z.of_nat i in
  let l := locals (map ts (seq (k - 5) (Nat.min k 5))) (ts k) in
  newClicks l = map ts (seq (S k - 5) (Nat.min (S k) 5)) /\
  isRapidClick l = (4 <=? k)%nat /\
  showsFeedback l = (4 <=? k)%nat.
Proof.
  cbn zeta.
  destruct (Nat.lt_ge_cases k 5) as [Hk|Hk].
  - assert (E : forall (now : Z) (w : list Z),
               (forall x, In x w -> now - x < 5000) ->
               locals w now
               = mkLocals w (w ++ [now])
                   (5 <=? length (w ++ [now]))%nat
                   ((5 <=? length (w ++ [now]))%nat
                    && (length (w ++ [now]) =? 5)%nat)).
    { intros now w Hw. pose proof (recent_all w _ Hw) as R.
      unfold locals in *. cbn [recentClicks] in R. rewrite R. reflexivity. }
    do 5 (destruct k as [|k];
          [rewrite E by (intros x Hx; cbn in Hx;
                         repeat (destruct Hx as [<-|Hx]; [lia|]); destruct Hx);
           repeat split|]).
    lia.
  - destruct (Nat.le_exists_sub 5 k Hk) as (j & -> & _).
    replace (j + 5 - 5)%nat with j by lia.
    replace (S (j + 5) - 5)%nat with (S j) by lia.
    replace (Nat.min (j + 5) 5) with 5%nat by lia.
    replace (Nat.min (S (j + 5)) 5) with 5%nat by lia.
    replace (4 <=? j + 5)%nat with true by (symmetry; apply Nat.leb_le; lia).
    cbn [seq map].
    rewrite locals_oldest_evicted by lia.
    cbn [newClicks isRapidClick showsFeedback].
    repeat split. repeat f_equal; lia.
Qed.

Lemma steady_run (t0 : Z) (n : nat) :
  forall k : nat,
    map (fun c => (isRapidClick c, showsFeedback c))
        (clickRun (map (fun i : nat => t0 + 1000 * Z.of_nat i) (seq (k - 5) (Nat.min k 5)))
                  (map (fun i : nat => t0 + 1000 * Z.of_nat i) (seq k n)))
    = map (fun i => ((4 <=? i)%nat, (4 <=? i)%nat)) (seq k n).
Proof.
  induction n as [|n IH]; intros k; cbn [seq map clickRun]; [reflexivity|].
  destruct (steady_click t0 k) as (Hn & Hr & Hf). cbn zeta in Hn, Hr, Hf.
  rewrite Hn, Hr, Hf. f_equal. apply IH.
Qed.

(** C4, as the code has it.  On every click, [handleReaction] keeps the
    timestamps younger than 5 seconds and adds the current one;
    [isRapidClick] holds exactly when that count (current click included)
    is at least 5; the strong feedback is shown exactly when the count is
    5, whatever it was after the click before, and otherwise toast and
    toast timeouts are untouched.  A click landing while five or more
    earlier clicks are all still in the window is rapid and shows no
    feedback: of six clicks inside one window the fifth alone shows it.
    The feedback is not once per burst, though: a click that finds five
    stored timestamps of which the oldest alone has left the window is
    rapid and shows the feedback again, and in a run of clicks one second
    apart every click from the fifth on is rapid and shows it.  A cleanup
    tick before the click changes none of this. *)
Theorem handleReaction_burst (hasVibrate : bool) (now : Z) (p : Page) :
  let p' := fst (handleReaction hasVibrate now p) in
  let l := snd (handleReaction hasVibrate now p) in
  (forall ts, In ts (recentClicks l) <-> In ts (clickTimestamps p) /\ now - ts < 5000) /\
  newClicks l = recentClicks l ++ [now] /\
  clickTimestamps p' = newClicks l /\
  (isRapidClick l = true <-> (5 <= length (newClicks l))%nat) /\
  (showsFeedback l = true <-> length (newClicks l) = 5%nat) /\
  (showsFeedback l = true ->
     lastClickFeedback p' = Some STRONG_FEEDBACK /\
     feedbackTimeouts p' = feedbackTimeouts p ++ [now + 2000]) /\
  (showsFeedback l = false ->
     lastClickFeedback p' = lastClickFeedback p /\
     feedbackTimeouts p' = feedbackTimeouts p) /\
  ((5 <= length (clickTimestamps p))%nat ->
   (forall ts, In ts (clickTimestamps p) -> now - ts < 5000) ->
   isRapidClick l = true /\ showsFeedback l = false) /\
  (forall a b c d e,
     clickTimestamps p = [a; b; c; d; e] ->
     5000 <= now - a ->
     now - b < 5000 -> now - c < 5000 -> now - d < 5000 -> now - e < 5000 ->
     isRapidClick l = true /\ showsFeedback l = true /\
     clickTimestamps p' = [b; c; d; e; now]) /\
  (forall tick, tick <= now ->
     snd (handleReaction hasVibrate now (cleanupTick tick p)) = l) /\
  (forall (t0 : Z) (n : nat),
     map (fun c => (isRapidClick c, showsFeedback c))
         (clickRun [] (map (fun i : nat => t0 + 1000 * Z.of_nat i) (seq 0 n)))
     = map (fun i => ((4 <=? i)%nat, (4 <=? i)%nat)) (seq 0 n)) /\
  map (fun c => (isRapidClick c, showsFeedback c))
      (clickRun [] [0; 1000; 2000; 3000; 4000; 4500])
  = [(false, false); (false, false); (false, false); (false, false);
     (true, true); (true, false)].
Proof.
  cbn zeta. cbn [handleReaction fst snd clickTimestamps lastClickFeedback feedbackTimeouts].
  split; [intros ts; apply recent_In|].
  split; [reflexivity|].
  split; [reflexivity|].
  split; [apply isRapidClick_iff|].
  split; [apply showsFeedback_iff|].
  split.
  { intros ->. split; reflexivity. }
  split.
  { intros ->. split; reflexivity. }
  split.
  { intros Hlen Hall.
    pose proof (recent_all _ _ Hall) as Hrec.
    pose proof (newClicks_length (clickTimestamps p) now) as Hnew.
    rewrite Hrec in Hnew.
    split.
    - apply isRapidClick_iff. lia.
    - apply not_true_is_false. rewrite showsFeedback_iff. lia. }
  split.
  { intros a b c d e -> Ha Hb Hc Hd He.
    rewrite (locals_oldest_evicted a b c d e now Ha Hb Hc Hd He).
    repeat split. }
  split.
  { intros tick Hle. unfold locals. cbn [cleanupTick clickTimestamps].
    rewrite (cleanup_invisible _ _ _ Hle). reflexivity. }
  split; [intros t0 n; exact (steady_run t0 n 0%nat)|].
  reflexivity.
Qed.

Lemma handleReaction_burst_witness :
  let p := mkPage None [] false [] [0; 1000; 2000; 3000; 4000] None [] [] [] [] in
  let l := snd (handleReaction true 5000 p) in
  clickTimestamps p = [0; 1000; 2000; 3000; 4000] /\
  isRapidClick l = true /\ showsFeedback l = true /\
  clickTimestamps (fst (handleReaction true 5000 p)) = [1000; 2000; 3000; 4000; 5000].
Proof.
  cbn zeta.
  split; [reflexivity|].
  pose proof (handleReaction_burst true 5000
                (mkPage None [] false [] [0; 1000; 2000; 3000; 4000] None [] [] [] []))
    as H.
  cbn zeta in H. destruct H as (_ & _ & _ & _ & _ & _ & _ & _ & H & _).
  apply (H 0 1000 2000 3000 4000); [reflexivity|lia..].
Defined.

(** C4 as stated fails: a click can show the strong feedback although the
    click before it was already rapid and the burst has not stopped. *)
Lemma feedback_not_once_per_burst :
  ~ (forall (clicks : list Z) (now now' : Z),
       now <= now' ->
       let l := locals clicks now in
       let l' := locals (newClicks l) now' in
       isRapidClick l = true -> isRapidClick l' = true ->
       showsFeedback l' = false).
Proof.
  intros H.
  specialize (H [0; 1000; 2000; 3000] 4000 5000 ltac:(lia) eq_refl eq_refl).
  discriminate H.
Qed.

(** The count can come back to 5 in a later window: once the first click
    of a burst is evicted, the next click shows the feedback again. *)
Remark feedback_after_eviction :
  map (fun c => (length (newClicks c), showsFeedback c))
      (clickRun [] [0; 1000; 2000; 3000; 4000; 5500])
  = [(1, false); (2, false); (3, false); (4, false); (5, true); (5, true)]%nat.
Proof. reflexivity. Qed.

End AudienceProps.

(* ================================================================== *)
(** * The five-click scenario *)
(* ================================================================== *)

Module ClickPathProps.
Import Js ReactionStore ClickPath.












End ClickPathProps.

(* ================================================================== *)
(** * Question submission *)
(* ================================================================== *)

Module QuestionProps.
Import Js Audience.

Lemma isEmpty_false (s : JsString) : s <> [] -> isEmpty s = false.
Proof. destruct s; [congruence | reflexivity]. Qed.

(** The handler past its guard, on either outcome. *)
Lemma handleSubmitQuestion_run (during : Page -> Page) (outcome : Settled)
  (now1 now2 : Z) (p : Page) :
  trim (question p) <> [] ->
  let mid := whenSettled during p in
  let record := mkSentQuestion (toString now1) (trim (question p)) now2 in
  handleSubmitQuestion during outcome now1 now2 p
  = (mkPage (sessionCode mid) [] false (record :: sentQuestions mid)
            (clickTimestamps mid) (lastClickFeedback mid) (feedbackTimeouts mid)
            (vibrations mid) (questionRequests mid)
            (match outcome with
             | Resolved => console mid
             | Rejected e => console mid ++ [FailedToSendQuestion e]
             end),
     Normal tt).
Proof.
  intros Hne. cbn zeta. unfold handleSubmitQuestion.
  rewrite (isEmpty_false _ Hne).
  destruct outcome; reflexivity.
Qed.

(** C8.  When the trimmed question is not empty and [createQuestion]
    fails, [handleSubmitQuestion] still puts a record with the trimmed text
    at the head of the sent questions and clears the input, leaving the
    user with exactly what a successful submission leaves; the failure is
    logged on the console and the handler ends normally: nothing is
    thrown. *)
Theorem handleSubmitQuestion_rejected (during : Page -> Page) (error : Exn)
  (now1 now2 : Z) (p : Page) :
  trim (question p) <> [] ->
  let failed := handleSubmitQuestion during (Rejected error) now1 now2 p in
  let succeeded := handleSubmitQuestion during Resolved now1 now2 p in
  let mid := whenSettled during p in
  snd failed = Normal tt /\
  sentQuestions (fst failed)
  = mkSentQuestion (toString now1) (trim (question p)) now2 :: sentQuestions mid /\
  question (fst failed) = [] /\
  isSubmitting (fst failed) = false /\
  console (fst failed) = console mid ++ [FailedToSendQuestion error] /\
  visible (fst failed) = visible (fst succeeded) /\
  snd succeeded = Normal tt.
Proof.
  intros Hne. cbn zeta.
  rewrite !handleSubmitQuestion_run by exact Hne.
  cbn. repeat split.
Qed.

Lemma handleSubmitQuestion_rejected_witness :
  let p := mkPage (Some [65; 66]%N) [32; 104; 105; 63; 32]%N false [] [] None [] [] [] [] in
  let failed :=
    handleSubmitQuestion (fun q => q) (Rejected (Error "Failed to create question"))
      1700000000000 1700000000001 p in
  trim (question p) = [104; 105; 63]%N /\
  snd failed = Normal tt /\
  sentQuestions (fst failed)
  = [mkSentQuestion [49; 55; 48; 48; 48; 48; 48; 48; 48; 48; 48; 48; 48]%N
       [104; 105; 63]%N 1700000000001] /\
  question (fst failed) = [].
Proof.
  cbn zeta.
  split; [reflexivity|].
  pose proof (handleSubmitQuestion_rejected (fun q => q)
                (Error "Failed to create question") 1700000000000 1700000000001
                (mkPage (Some [65; 66]%N) [32; 104; 105; 63; 32]%N false [] [] None
                        [] [] [] [])) as H.
  cbn zeta in H.
  destruct H as (H1 & H2 & H3 & _); [vm_compute; discriminate|].
  split; [exact H1|]. split; [exact H2|exact H3].
Defined.

End QuestionProps.

(* ================================================================== *)
(** * Properties of the live update channel *)
(* ================================================================== *)

Module ChannelProps.
Import Js Channel.

(** The handler's two constants on a message of the declared shape are
    the numbers of the normalization rule. *)
Lemma normalize_toJs (msg : ReactionMessage) :
  normalize (toJs msg)
  = Normal (JNumber (ruleConfused msg), JNumber (ruleMore msg)).
Proof.
  destruct msg as [sid [[[c|] [m|]]|] [cc|] [mc|] [ts|]]; reflexivity.
Qed.

(** The handler on a body that parses to [data] with numeric counts. *)
Lemma onMessage_counts (JSON_parse : string -> Completion JsValue)
  (body : string) (data : JsValue) (c m : Z) (h : Hook) :
  JSON_parse body = Normal data ->
  normalize data = Normal (JNumber c, JNumber m) ->
  onMessage JSON_parse body h
  = (setStore (ReactionStore.setReactionsFromBackend c m)
       (log (LogReactionUpdate data) h),
     Normal tt).
Proof.
  intros Hp Hn. unfold onMessage, tryCatch, bind, lift, modify.
  rewrite Hp, Hn. reflexivity.
Qed.

(** C5.  On an inbound message of either wire shape, with any subset of
    the optional fields, the handler calls
    [setReactionsFromBackend(confused, more)] with confused =
    [reactionCounts.CONFUSED] if present, else [confusedCount] if present,
    else 0, and more = [reactionCounts.MORE] if present, else [moreCount]
    if present, else 0; the message [{ reactionCounts: {} }] normalizes to
    confused = 0 and more = 0. *)
Theorem onMessage_normalizes (JSON_parse : string -> Completion JsValue)
  (body : string) (msg : ReactionMessage) (h : Hook) :
  JSON_parse body = Normal (toJs msg) ->
  normalize (toJs msg)
  = Normal (JNumber (ruleConfused msg), JNumber (ruleMore msg)) /\
  onMessage JSON_parse body h
  = (setStore
       (ReactionStore.setReactionsFromBackend (ruleConfused msg) (ruleMore msg))
       (log (LogReactionUpdate (toJs msg)) h),
     Normal tt) /\
  normalize emptyCounts = Normal (JNumber 0, JNumber 0) /\
  (forall body0, JSON_parse body0 = Normal emptyCounts ->
     store (fst (onMessage JSON_parse body0 h))
     = ReactionStore.setReactionsFromBackend 0 0 (store h)).
Proof.
  intros Hp.
  split; [apply normalize_toJs|].
  split; [apply (onMessage_counts _ _ _ _ _ _ Hp), normalize_toJs|].
  split; [reflexivity|].
  intros body0 H0.
  rewrite (onMessage_counts _ _ _ 0 0 _ H0) by reflexivity.
  reflexivity.
Qed.

Lemma onMessage_normalizes_witness :
  let msg := mkMessage "AB12" (Some (mkCounts None (Some 4))) (Some 7) (Some 9) None in
  let parse := parseOnly "update" (toJs msg) in
  ruleConfused msg = 7 /\ ruleMore msg = 4 /\
  store (fst (onMessage parse "update" initialHook))
  = ReactionStore.setReactionsFromBackend 7 4 ReactionStore.initial.
Proof.
  cbn zeta.
  split; [reflexivity|]. split; [reflexivity|].
  pose proof (onMessage_normalizes
                (parseOnly "update"
                   (toJs (mkMessage "AB12" (Some (mkCounts None (Some 4)))
                            (Some 7) (Some 9) None)))
                "update"
                (mkMessage "AB12" (Some (mkCounts None (Some 4))) (Some 7) (Some 9) None)
                initialHook eq_refl) as (_ & H & _).
  rewrite H. reflexivity.
Defined.

Section Handler.

Variable JSON_parse : string -> Completion JsValue.
Variable session : string.

Lemma onMessage_connection (body : string) (h : Hook) :
  connection (fst (onMessage JSON_parse body h)) = connection h.
Proof.
  unfold onMessage, tryCatch, bind, lift, modify.
  destruct (JSON_parse body) as [data|e|]; cbn; try reflexivity.
  destruct (normalize data) as [[c m]|e|]; cbn; try reflexivity.
  destruct c; try reflexivity. destruct m; reflexivity.
Qed.

Lemma connection_subscribed (h1 h2 : Hook) :
  connection h1 = connection h2 -> subscribed session h1 = subscribed session h2.
Proof.
  unfold connection, subscribed. intros H.
  injection H as -> _ _ _ _ _ _. reflexivity.
Qed.

(** The handler acts on the store through the body alone. *)
Lemma onMessage_store (body : string) (h1 h2 : Hook) :
  store h1 = store h2 ->
  store (fst (onMessage JSON_parse body h1)) = store (fst (onMessage JSON_parse body h2))
  /\ snd (onMessage JSON_parse body h1) = snd (onMessage JSON_parse body h2).
Proof.
  intros Hs. unfold onMessage, tryCatch, bind, lift, modify.
  destruct (JSON_parse body) as [data|e|]; cbn; try (split; [exact Hs|reflexivity]).
  destruct (normalize data) as [[c m]|e|]; cbn; try (split; [exact Hs|reflexivity]).
  destruct c; cbn; try (split; [exact Hs|reflexivity]).
  destruct m; cbn; try (split; [exact Hs|reflexivity]).
  rewrite Hs. split; reflexivity.
Qed.

(** C6.  When the body of an inbound message fails to parse, the handler
    logs the error and returns normally without calling
    [setReactionsFromBackend]: the reaction store (scores, dominant type,
    glow, intensity, event log) is unchanged, and so are the client, its
    subscription and the connection state; the next message is delivered
    and acts on the store as if the malformed one had never come. *)
Theorem onMessage_malformed (body : string) (err : Exn) (h : Hook) :
  JSON_parse body = Throw err ->
  let h' := fst (onMessage JSON_parse body h) in
  snd (onMessage JSON_parse body h) = Normal tt /\
  store h' = store h /\
  console h' = console h ++ [ErrFailedToParse err] /\
  connection h' = connection h /\
  (forall now, subscribed session h = true ->
     step JSON_parse session now (Message body) h = Some h') /\
  (forall now next,
     option_map store (step JSON_parse session now (Message next) h')
     = option_map store (step JSON_parse session now (Message next) h)).
Proof.
  intros Hp. cbn zeta.
  assert (E : onMessage JSON_parse body h = (log (ErrFailedToParse err) h, Normal tt)).
  { unfold onMessage, tryCatch, bind, lift, modify. rewrite Hp. reflexivity. }
  rewrite E. cbn [fst snd].
  split; [reflexivity|]. split; [reflexivity|]. split; [reflexivity|].
  split; [reflexivity|]. split.
  - intros now Hsub. cbn [step]. rewrite Hsub, E. reflexivity.
  - intros now next. cbn [step].
    rewrite (connection_subscribed (log (ErrFailedToParse err) h) h) by reflexivity.
    destruct (subscribed session h); [|reflexivity].
    destruct (onMessage_store next (log (ErrFailedToParse err) h) h eq_refl) as [Hs Hr].
    destruct (onMessage JSON_parse next (log (ErrFailedToParse err) h)) as [a ra].
    destruct (onMessage JSON_parse next h) as [b rb].
    cbn [fst snd] in Hs, Hr. subst rb.
    destruct ra; cbn; congruence.
Qed.

(** A body that parses to [null] makes the first property read throw;
    the same catch clause logs it and the store is untouched. *)
Remark onMessage_null (body : string) (h : Hook) :
  JSON_parse body = Normal JNull ->
  onMessage JSON_parse body h
  = (log (ErrFailedToParse (Error "TypeError")) (log (LogReactionUpdate JNull) h),
     Normal tt).
Proof.
  intros Hp. unfold onMessage, tryCatch, bind, lift, modify.
  rewrite Hp. reflexivity.
Qed.

(** *** The grace period *)

Lemma graceInv_keep (tr extra : list (Z * Event)) (h h' : Hook) :
  graceInv tr h ->
  errorTimeoutRef h' = errorTimeoutRef h ->
  timers h' = timers h ->
  graceInv (tr ++ extra) h'.
Proof.
  unfold graceInv. intros H -> ->.
  destruct (errorTimeoutRef h); [|exact H].
  destruct H as (t0 & Ht & Hin). exists t0. split; [exact Ht|].
  apply in_or_app. left. exact Hin.
Qed.

Lemma graceInv_cleared (tr : list (Z * Event)) (h : Hook) :
  errorTimeoutRef h = None -> timers h = [] -> graceInv tr h.
Proof. unfold graceInv. intros -> H. exact H. Qed.

(** Under the invariant, clearing the pending error timeout empties the
    timer table. *)
Lemma clearPendingError_cleared (tr : list (Z * Event)) (h : Hook) :
  graceInv tr h ->
  errorTimeoutRef (clearPendingError h) = None /\
  timers (clearPendingError h) = [].
Proof.
  unfold graceInv, clearPendingError. intros H.
  destruct (errorTimeoutRef h) as [id|] eqn:E.
  - destruct H as (t0 & Ht & _). cbn. rewrite Ht. cbn.
    rewrite Nat.eqb_refl. cbn. split; reflexivity.
  - rewrite E. split; [reflexivity|exact H].
Qed.

Lemma clearPendingError_rest (h : Hook) :
  store (clearPendingError h) = store h /\
  clientRef (clearPendingError h) = clientRef h /\
  isConnected (clearPendingError h) = isConnected h /\
  connectionError (clearPendingError h) = connectionError h.
Proof.
  unfold clearPendingError. destruct (errorTimeoutRef h); repeat split.
Qed.

Lemma markConnected_rest (b : bool) (h : Hook) :
  errorTimeoutRef (markConnected b h) = errorTimeoutRef h /\
  timers (markConnected b h) = timers h /\
  connectionError (markConnected b h) = connectionError h.
Proof. unfold markConnected. destruct (clientRef h); repeat split. Qed.

Lemma subscribe_rest (topic : string) (h : Hook) :
  errorTimeoutRef (subscribe topic h) = errorTimeoutRef h /\
  timers (subscribe topic h) = timers h /\
  connectionError (subscribe topic h) = connectionError h.
Proof. unfold subscribe. destruct (clientRef h); repeat split. Qed.

Lemma connect_cleared (tr : list (Z * Event)) (h : Hook) :
  graceInv tr h ->
  graceInv tr (connect h) /\ connectionError (connect h) = connectionError h.
Proof.
  intros H. unfold connect. destruct (clientActive h); [split; [exact H|reflexivity]|].
  destruct (clearPendingError_cleared tr h H) as [Hr Ht].
  destruct (clearPendingError_rest h) as (_ & _ & _ & Hc).
  split; [apply graceInv_cleared; cbn; assumption | cbn; exact Hc].
Qed.

Lemma disconnect_cleared (tr : list (Z * Event)) (h : Hook) :
  graceInv tr h ->
  graceInv tr (disconnect h) /\ connectionError (disconnect h) = connectionError h.
Proof.
  intros H. unfold disconnect.
  destruct (clearPendingError_cleared tr h H) as [Hr Ht].
  destruct (clearPendingError_rest h) as (_ & _ & _ & Hc).
  destruct (clientRef (clearPendingError h));
    (split; [apply graceInv_cleared; cbn; assumption | cbn; exact Hc]).
Qed.

(** Connecting cancels the pending error timeout and leaves no error. *)
Lemma onConnect_cleared (tr : list (Z * Event)) (h : Hook) :
  graceInv tr h ->
  errorTimeoutRef (onConnect session h) = None /\
  timers (onConnect session h) = [] /\
  connectionError (onConnect session h) = None.
Proof.
  intros H. unfold onConnect.
  destruct (subscribe_rest (getReactionTopic session)
              (setConnectionError None
                 (setIsConnected true (clearPendingError (log LogConnected h)))))
    as (-> & -> & ->).
  cbn [setConnectionError setIsConnected errorTimeoutRef timers connectionError].
  assert (H1 : graceInv tr (log LogConnected h)) by exact H.
  destruct (clearPendingError_cleared tr _ H1) as [Hr Ht].
  repeat split; assumption.
Qed.

Lemma graceInv_app (tr extra : list (Z * Event)) (h : Hook) :
  graceInv tr h -> graceInv (tr ++ extra) h.
Proof. intros H. exact (graceInv_keep tr extra h h H eq_refl eq_refl). Qed.

(** What a pending timeout is, under the invariant. *)
Lemma dueOf_pending (tr : list (Z * Event)) (id : nat) (due : Z) (h : Hook) :
  graceInv tr h -> dueOf id h = Some due ->
  exists t0, errorTimeoutRef h = Some id /\ timers h = [(id, t0 + 10000)] /\
             due = t0 + 10000 /\ In (t0, OnWebSocketError) tr.
Proof.
  unfold graceInv, dueOf. intros H Hd.
  destruct (errorTimeoutRef h) as [id'|].
  - destruct H as (t0 & Ht & Hin). rewrite Ht in Hd. cbn in Hd.
    destruct (Nat.eqb_spec id' id) as [->|Hne]; [|discriminate].
    cbn in Hd. injection Hd as <-. exists t0. repeat split; assumption.
  - rewrite H in Hd. discriminate.
Qed.

Lemma onWebSocketError_connectionError (now : Z) (h : Hook) :
  connectionError (onWebSocketError now h) = connectionError h.
Proof.
  unfold onWebSocketError.
  cbn [log errorTimeoutRef].
  destruct (errorTimeoutRef h); [reflexivity|].
  destruct (negb _); reflexivity.
Qed.

Lemma graceInv_step (tr : list (Z * Event)) (now : Z) (ev : Event) (h h' : Hook) :
  graceInv tr h ->
  step JSON_parse session now ev h = Some h' ->
  graceInv (tr ++ [(now, ev)]) h'.
Proof.
  intros H Hs. destruct ev; cbn [step] in Hs.
  - injection Hs as <-. apply graceInv_app, connect_cleared, H.
  - injection Hs as <-. apply graceInv_app, disconnect_cleared, H.
  - destruct (clientActive h); [|discriminate]. injection Hs as <-.
    assert (H1 : graceInv tr (markConnected true h)).
    { destruct (markConnected_rest true h) as (Hr & Ht & _).
      rewrite <- (app_nil_r tr). exact (graceInv_keep tr [] h _ H Hr Ht). }
    destruct (onConnect_cleared tr _ H1) as (Hr & Ht & _).
    apply graceInv_cleared; assumption.
  - injection Hs as <-.
    destruct (markConnected_rest false h) as (Hr & Ht & _).
    apply (graceInv_keep tr _ h); [exact H|exact Hr|exact Ht].
  - injection Hs as <-. apply (graceInv_keep tr _ h); [exact H|reflexivity|reflexivity].
  - injection Hs as <-. unfold onWebSocketError. cbn [log errorTimeoutRef].
    destruct (errorTimeoutRef h) as [id|] eqn:E.
    + apply (graceInv_keep tr _ h); [exact H|reflexivity|reflexivity].
    + destruct (negb _).
      * unfold graceInv in *. rewrite E in H. cbn. rewrite H. cbn.
        exists now. split; [reflexivity|].
        apply in_or_app. right. left. reflexivity.
      * apply (graceInv_keep tr _ h); [exact H|reflexivity|reflexivity].
  - injection Hs as <-.
    destruct (markConnected_rest false h) as (Hr & Ht & _).
    apply (graceInv_keep tr _ h); [exact H|exact Hr|exact Ht].
  - destruct (dueOf id h) as [due|] eqn:Hd; [|discriminate].
    destruct (due <=? now); [|discriminate]. injection Hs as <-.
    destruct (dueOf_pending tr id due h H Hd) as (t0 & _ & Ht & _ & _).
    apply graceInv_cleared.
    + unfold graceExpired. reflexivity.
    + unfold graceExpired. destruct (negb _); cbn; rewrite Ht; cbn;
        rewrite Nat.eqb_refl; reflexivity.
  - destruct (subscribed session h); [|discriminate].
    pose proof (onMessage_connection body h) as Hc.
    destruct (onMessage JSON_parse body h) as [h1 r]. cbn [fst] in Hc.
    destruct r; try discriminate. injection Hs as <-.
    unfold connection in Hc. injection Hc as _ Hr Ht _ _ _ _.
    apply (graceInv_keep tr _ h); [exact H|exact Hr|exact Ht].
Qed.

Lemma graceInv_run (tr2 : list (Z * Event)) :
  forall (tr1 : list (Z * Event)) (h h' : Hook),
    graceInv tr1 h ->
    run JSON_parse session tr2 h = Some h' ->
    graceInv (tr1 ++ tr2) h'.
Proof.
  induction tr2 as [|[now ev] tr2 IH]; intros tr1 h h' H Hr; cbn [run] in Hr.
  - injection Hr as <-. rewrite app_nil_r. exact H.
  - destruct (step JSON_parse session now ev h) as [h1|] eqn:Hs; [|discriminate].
    replace (tr1 ++ (now, ev) :: tr2) with ((tr1 ++ [(now, ev)]) ++ tr2)
      by (rewrite <- app_assoc; reflexivity).
    apply (IH _ h1); [|exact Hr].
    apply (graceInv_step tr1 now ev h h1 H Hs).
Qed.

(** The events that can put an error where there was none or another:
    a STOMP error frame, or the error timeout running its callback on an
    unconnected client, [GRACE_MS] or more after the WebSocket error that
    set it. *)
Lemma error_sources (tr : list (Z * Event)) (now : Z) (ev : Event) (h h' : Hook) :
  graceInv tr h ->
  step JSON_parse session now ev h = Some h' ->
  connectionError h' <> connectionError h ->
  connectionError h' <> None ->
  (exists message, ev = OnStompError message) \/
  (exists id t0, ev = TimerFired id /\ In (t0, OnWebSocketError) tr /\
                 t0 + 10000 <= now /\ clientConnected h = false /\
                 connectionError h' = Some WS_FAILED).
Proof.
  intros H Hs Hne Hsome. destruct ev; cbn [step] in Hs.
  - injection Hs as <-. destruct (connect_cleared tr h H) as [_ Hc]. congruence.
  - injection Hs as <-. destruct (disconnect_cleared tr h H) as [_ Hc]. congruence.
  - destruct (clientActive h); [|discriminate]. injection Hs as <-.
    assert (H1 : graceInv tr (markConnected true h)).
    { destruct (markConnected_rest true h) as (Hr & Ht & _).
      rewrite <- (app_nil_r tr). exact (graceInv_keep tr [] h _ H Hr Ht). }
    destruct (onConnect_cleared tr _ H1) as (_ & _ & Hc). congruence.
  - injection Hs as <-. destruct (markConnected_rest false h) as (_ & _ & Hc).
    cbn in Hne. congruence.
  - left. exists message. reflexivity.
  - injection Hs as <-. rewrite onWebSocketError_connectionError in Hne. congruence.
  - injection Hs as <-. destruct (markConnected_rest false h) as (_ & _ & Hc). congruence.
  - right.
    destruct (dueOf id h) as [due|] eqn:Hd; [|discriminate].
    destruct (Z.leb_spec due now) as [Hle|Hgt]; [|discriminate]. injection Hs as <-.
    destruct (dueOf_pending tr id due h H Hd) as (t0 & _ & _ & -> & Hin).
    exists id, t0.
    unfold graceExpired in *.
    replace (clientConnected (clearTimeout id h)) with (clientConnected h) in * by reflexivity.
    destruct (clientConnected h); cbn in *; [congruence|].
    repeat split; assumption.
  - destruct (subscribed session h); [|discriminate].
    pose proof (onMessage_connection body h) as Hc.
    destruct (onMessage JSON_parse body h) as [h1 r]. cbn [fst] in Hc.
    destruct r; try discriminate. injection Hs as <-.
    unfold connection in Hc. injection Hc as _ _ _ _ _ Hce _. congruence.
Qed.

(** With no timeout pending and no error shown, a run without WebSocket
    errors and STOMP error frames shows no error. *)
Lemma quiet_run (tr : list (Z * Event)) :
  forall (h h' : Hook),
    errorTimeoutRef h = None -> timers h = [] -> connectionError h = None ->
    run JSON_parse session tr h = Some h' ->
    (forall t, ~ In (t, OnWebSocketError) tr) ->
    (forall t message, ~ In (t, OnStompError message) tr) ->
    connectionError h' = None /\ errorTimeoutRef h' = None /\ timers h' = [].
Proof.
  induction tr as [|[now ev] tr IH]; intros h h' Hr Ht Hc Hrun Hw Hst; cbn [run] in Hrun.
  - injection Hrun as <-. repeat split; assumption.
  - destruct (step JSON_parse session now ev h) as [h1|] eqn:Hs; [|discriminate].
    assert (G : graceInv [] h) by (apply graceInv_cleared; assumption).
    pose proof (graceInv_step [] now ev h h1 G Hs) as G1.
    assert (Hr1 : errorTimeoutRef h1 = None /\ timers h1 = []).
    { unfold graceInv in G1. destruct (errorTimeoutRef h1).
      - destruct G1 as (t0 & _ & [Hin|[]]). injection Hin as _ ->.
        exfalso. apply (Hw now). left. reflexivity.
      - split; [reflexivity|exact G1]. }
    assert (Hc1 : connectionError h1 = None).
    { destruct (connectionError h1) as [e|] eqn:E; [|reflexivity].
      exfalso.
      destruct (error_sources [] now ev h h1 G Hs) as [(m & ->)|(id & t0 & _ & [] & _)].
      - rewrite E, Hc. discriminate.
      - rewrite E. discriminate.
      - apply (Hst now m). left. reflexivity. }
    destruct Hr1 as [Hr1 Ht1].
    apply (IH h1 h' Hr1 Ht1 Hc1 Hrun).
    + intros t Hin. apply (Hw t). right. exact Hin.
    + intros t m Hin. apply (Hst t m). right. exact Hin.
Qed.

End Handler.

Section GracePeriod.

Variable JSON_parse : string -> Completion JsValue.
Variable session : string.

Lemma run_snoc (tr : list (Z * Event)) (now : Z) (ev : Event) :
  forall h h' : Hook,
    run JSON_parse session (tr ++ [(now, ev)]) h = Some h' ->
    exists h1, run JSON_parse session tr h = Some h1 /\
               step JSON_parse session now ev h1 = Some h'.
Proof.
  induction tr as [|[t e] tr IH]; intros h h' Hr; cbn [app run] in *.
  - destruct (step JSON_parse session now ev h) as [h1|] eqn:Hs; [|discriminate].
    injection Hr as <-. exists h. split; [reflexivity|exact Hs].
  - destruct (step JSON_parse session t e h) as [h1|]; [|discriminate].
    apply IH, Hr.
Qed.

Lemma clearPendingError_ref (h : Hook) :
  errorTimeoutRef (clearPendingError h) = None.
Proof.
  unfold clearPendingError. destruct (errorTimeoutRef h) eqn:E; [reflexivity|exact E].
Qed.

(** How a step can leave a timeout pending: it is the WebSocket error
    that sets it, or the timeout was pending and the event is none of the
    cancelling ones. *)
Lemma step_pending (now : Z) (ev : Event) (h h' : Hook) (id : nat) :
  step JSON_parse session now ev h = Some h' ->
  errorTimeoutRef h' = Some id ->
  (ev = OnWebSocketError /\ errorTimeoutRef h = None /\ clientConnected h = false /\
   nextTimerId h = id /\ timers h' = timers h ++ [(id, now + 10000)]) \/
  (errorTimeoutRef h = Some id /\ timers h' = timers h /\ cancels ev = false).
Proof.
  intros Hs Hid. destruct ev; cbn [step] in Hs.
  - injection Hs as <-. right. unfold connect in *.
    destruct (clientActive h); [repeat split; exact Hid|].
    exfalso. cbn in Hid. rewrite clearPendingError_ref in Hid. discriminate.
  - injection Hs as <-. exfalso. unfold disconnect in Hid.
    destruct (clientRef (clearPendingError h)); cbn in Hid;
      rewrite clearPendingError_ref in Hid; discriminate.
  - destruct (clientActive h); [|discriminate]. injection Hs as <-.
    exfalso. revert Hid. unfold onConnect.
    destruct (subscribe_rest (getReactionTopic session)
                (setConnectionError None
                   (setIsConnected true
                      (clearPendingError (log LogConnected (markConnected true h))))))
      as (-> & _ & _).
    cbn [setConnectionError setIsConnected errorTimeoutRef].
    rewrite clearPendingError_ref. discriminate.
  - injection Hs as <-. right.
    destruct (markConnected_rest false h) as (Hr & Ht & _).
    cbn [onDisconnect setIsConnected log errorTimeoutRef timers] in *.
    rewrite Hr in Hid. repeat split; assumption.
  - injection Hs as <-. right. cbn in Hid. repeat split. exact Hid.
  - injection Hs as <-. unfold onWebSocketError in *. cbn [log errorTimeoutRef] in *.
    destruct (errorTimeoutRef h) as [id'|] eqn:E.
    + right. cbn in Hid. rewrite E in Hid. repeat split. exact Hid.
    + replace (clientConnected (log ErrWebSocket h)) with (clientConnected h) in *
        by reflexivity.
      destruct (clientConnected h); cbn in Hid.
      * rewrite E in Hid. discriminate.
      * injection Hid as <-. left. repeat split.
  - injection Hs as <-. right.
    destruct (markConnected_rest false h) as (Hr & Ht & _).
    rewrite Hr in Hid. repeat split; assumption.
  - destruct (dueOf id0 h); [|discriminate]. destruct (_ <=? now); [|discriminate].
    injection Hs as <-. exfalso. revert Hid. unfold graceExpired.
    destruct (negb _); discriminate.
  - destruct (subscribed session h); [|discriminate].
    pose proof (onMessage_connection JSON_parse body h) as Hc.
    destruct (onMessage JSON_parse body h) as [h1 r]. cbn [fst] in Hc.
    destruct r; try discriminate. injection Hs as <-.
    unfold connection in Hc. injection Hc as _ Hr Ht _ _ _ _.
    right. rewrite Hr in Hid. repeat split; assumption.
Qed.

(** Along a run from the initial hook, the pending timeout is the one
    set by the last WebSocket error that found none pending, due
    [GRACE_MS] after it. *)
Lemma pending_armed (tr : list (Z * Event)) :
  forall (h : Hook) (id : nat),
    run JSON_parse session tr initialHook = Some h ->
    errorTimeoutRef h = Some id ->
    exists t0, timers h = [(id, t0 + 10000)] /\ armedAt JSON_parse session tr id t0.
Proof.
  induction tr as [|[now ev] tr IH] using rev_ind; intros h id Hrun Hid.
  - cbn in Hrun. injection Hrun as <-. discriminate Hid.
  - destruct (run_snoc tr now ev _ _ Hrun) as (h1 & Hr1 & Hs).
    assert (G : graceInv tr h1).
    { apply (graceInv_run JSON_parse session tr [] initialHook h1); [|exact Hr1].
      apply graceInv_cleared; reflexivity. }
    destruct (step_pending now ev h1 h id Hs Hid)
      as [(-> & Hn & Hc & Hi & Ht)|(Hp & Ht & Hk)].
    + exists now. unfold graceInv in G. rewrite Hn in G. rewrite G in Ht.
      split; [exact Ht|].
      exists tr, [], h1. repeat split; try assumption.
      intros t ev [].
    + destruct (IH h1 id Hr1 Hp) as (t0 & Ht0 & tr1 & tr2 & h0 & -> & A).
      exists t0. split; [rewrite Ht; exact Ht0|].
      exists tr1, (tr2 ++ [(now, ev)]), h0.
      split; [rewrite <- app_assoc; reflexivity|].
      destruct A as (A1 & A2 & A3 & A4 & A5).
      repeat split; try assumption.
      intros t e Hin. apply in_app_or in Hin. destruct Hin as [Hin|[Hin|[]]].
      * exact (A5 t e Hin).
      * injection Hin as _ <-. exact Hk.
Qed.

(** C9.  In every state a mounted hook can reach: a WebSocket error does
    not change [connectionError]; an event that puts an error there is a
    STOMP error frame or else the pending error timeout running its
    callback on a client that is not connected, with the text 'WebSocket
    connection failed': that timeout was set by a WebSocket error of the
    run, at some time [t0], which found none pending and the client
    unconnected, it is due at [t0 + 10000], nothing has cancelled it since,
    and it fires at [t0 + 10000] or later; and when the client connects,
    the pending timeout is cancelled (no timeout is left to fire), no
    error is shown, and none appears for as long as no new WebSocket error
    or STOMP error frame arrives. *)
Theorem grace_period (tr : list (Z * Event)) (h : Hook) :
  run JSON_parse session tr initialHook = Some h ->
  (forall now,
     step JSON_parse session now OnWebSocketError h = Some (onWebSocketError now h) /\
     connectionError (onWebSocketError now h) = connectionError h) /\
  (forall now ev h',
     step JSON_parse session now ev h = Some h' ->
     connectionError h' <> connectionError h ->
     connectionError h' <> None ->
     (exists message, ev = OnStompError message) \/
     (exists id t0, ev = TimerFired id /\
                    errorTimeoutRef h = Some id /\
                    timers h = [(id, t0 + 10000)] /\
                    armedAt JSON_parse session tr id t0 /\
                    t0 + 10000 <= now /\ clientConnected h = false /\
                    connectionError h' = Some WS_FAILED)) /\
  (forall id due now,
     dueOf id h = Some due -> now < due ->
     step JSON_parse session now (TimerFired id) h = None) /\
  (forall now h',
     step JSON_parse session now OnConnect h = Some h' ->
     errorTimeoutRef h' = None /\ timers h' = [] /\ connectionError h' = None /\
     (forall later id, step JSON_parse session later (TimerFired id) h' = None) /\
     (forall tr2 h2,
        run JSON_parse session tr2 h' = Some h2 ->
        (forall t, ~ In (t, OnWebSocketError) tr2) ->
        (forall t message, ~ In (t, OnStompError message) tr2) ->
        connectionError h2 = None)).
Proof.
  intros Hrun.
  assert (G : graceInv tr h).
  { apply (graceInv_run JSON_parse session tr [] initialHook h); [|exact Hrun].
    apply graceInv_cleared; reflexivity. }
  split; [|split; [|split]].
  - intros now. split; [reflexivity|apply onWebSocketError_connectionError].
  - intros now ev h' Hs Hne Hsome.
    destruct (error_sources JSON_parse session tr now ev h h' G Hs Hne Hsome)
      as [Hst|(id & t1 & -> & _ & _ & Hc & He)]; [left; exact Hst|].
    right. cbn [step] in Hs.
    destruct (dueOf id h) as [due|] eqn:Hd; [|discriminate].
    destruct (Z.leb_spec due now) as [Hle|Hgt]; [|discriminate].
    destruct (dueOf_pending tr id due h G Hd) as (t2 & Hid & Ht2 & -> & _).
    destruct (pending_armed tr h id Hrun Hid) as (t0 & Ht0 & A).
    assert (E : t2 = t0) by (rewrite Ht0 in Ht2; injection Ht2 as E; lia).
    subst t2.
    exists id, t0. repeat split; assumption.
  - intros id due now Hd Hlt. cbn [step]. rewrite Hd.
    destruct (Z.leb_spec due now) as [Hle|_]; [lia|reflexivity].
  - intros now h' Hs.
    pose proof (graceInv_step JSON_parse session tr now OnConnect h h' G Hs) as G'.
    cbn [step] in Hs. destruct (clientActive h); [|discriminate].
    injection Hs as <-.
    assert (H1 : graceInv tr (markConnected true h)).
    { destruct (markConnected_rest true h) as (Hr & Ht & _).
      rewrite <- (app_nil_r tr). exact (graceInv_keep tr [] h _ G Hr Ht). }
    destruct (onConnect_cleared session tr _ H1) as (Hr & Ht & Hc).
    split; [exact Hr|]. split; [exact Ht|]. split; [exact Hc|]. split.
    + intros later id. cbn [step]. unfold dueOf. rewrite Ht. reflexivity.
    + intros tr2 h2 Hrun2 Hw Hst.
      apply (quiet_run JSON_parse session tr2 _ h2 Hr Ht Hc Hrun2 Hw Hst).
Qed.

End GracePeriod.

Lemma grace_period_witness :
  let parse := parseOnly "update" emptyCounts in
  let tr := [(0, Connect); (100, OnWebSocketError); (300, OnWebSocketError)] in
  let h := mkHook ReactionStore.initial (Some (mkClient true false [])) (Some 1%nat)
             [(1%nat, 10100)] 2 false None []
             [LogConnecting; ErrWebSocket; ErrWebSocket] in
  run parse "AB12" tr initialHook = Some h /\
  step parse "AB12" 10099 (TimerFired 1) h = None /\
  option_map connectionError (step parse "AB12" 10100 (TimerFired 1) h)
  = Some (Some WS_FAILED) /\
  ((exists message, TimerFired 1 = OnStompError message) \/
   (exists id t0, TimerFired 1 = TimerFired id /\
                  errorTimeoutRef h = Some id /\
                  timers h = [(id, t0 + 10000)] /\
                  armedAt parse "AB12" tr id t0 /\
                  t0 + 10000 <= 10100 /\ clientConnected h = false /\
                  Some WS_FAILED = Some WS_FAILED)).
Proof.
  cbn zeta.
  split; [reflexivity|]. split; [reflexivity|]. split; [reflexivity|].
  refine (proj1 (proj2 (grace_period (parseOnly "update" emptyCounts) "AB12"
                          [(0, Connect); (100, OnWebSocketError); (300, OnWebSocketError)]
                          _ eq_refl))
            10100 (TimerFired 1) _ eq_refl _ _); cbn; discriminate.
Defined.

Lemma onMessage_malformed_witness :
  let parse := parseOnly "update" emptyCounts in
  let h := mkHook (ReactionStore.setReactionsFromBackend 7 2 ReactionStore.initial)
             (Some (mkClient true true [getReactionTopic "AB12"]))
             None [] 1 true None [] [] in
  let h' := fst (onMessage parse "<html>" h) in
  parse "<html>"%string = Throw (Error "SyntaxError") /\
  store h' = store h /\
  option_map store (step parse "AB12" 5000 (Message "update") h')
  = Some (ReactionStore.setReactionsFromBackend 0 0 (store h)).
Proof.
  cbn zeta.
  split; [reflexivity|].
  pose proof (onMessage_malformed (parseOnly "update" emptyCounts) "AB12" "<html>"
                (Error "SyntaxError")
                (mkHook (ReactionStore.setReactionsFromBackend 7 2 ReactionStore.initial)
                   (Some (mkClient true true [getReactionTopic "AB12"]))
                   None [] 1 true None [] [])
                eq_refl) as (_ & Hs & _ & _ & _ & Hn).
  split; [exact Hs|].
  rewrite Hn. reflexivity.
Defined.

End ChannelProps.

(* ================================================================== *)
(** * Further properties of the reaction store *)
(* ================================================================== *)

Module StoreExtra.
Import ReactionStore StoreOps StoreProps.

Lemma thresholdRule_computed (c m i : Z) (l : list TimestampedReaction) :
  thresholdRule (mkState (mkCount c m) (if glowOf c m then 100 else i)
                         (dominantOf c m) (glowOf c m) l).
Proof.
  unfold thresholdRule; cbn.
  repeat split.
  - apply glowOf_true.
  - apply glowOf_true.
  - apply dominantOf_confused.
  - apply dominantOf_more.
  - apply dominantOf_none.
  - intros ->. reflexivity.
Qed.

Lemma thresholdRule_apply (o : Op) (st : ReactionState) : thresholdRule (apply o st).
Proof.
  destruct o as [[ty r now|c m|]|ty count intens]; cbn [apply perform].
  - apply (thresholdRule_computed _ _ 0).
  - apply (thresholdRule_computed _ _ 0).
  - exact (thresholdRule_computed 0 0 0 []).
  - destruct ty; apply thresholdRule_computed.
Qed.

(** X1.  In every state reached from the initial one by calls of any of
    the four actions, [updateReactions] included: [glowActive] holds
    exactly when a score is at least 5, [dominantType] is confused when
    the confused score is at least 5, else more when the more score is,
    else null, and a glowing state has intensity 100. *)
Theorem reachableAny_thresholdRule (st : ReactionState) :
  reachableAny st -> thresholdRule st.
Proof.
  intros H. destruct H as [|o st _].
  - exact (thresholdRule_computed 0 0 0 []).
  - apply thresholdRule_apply.
Qed.

Lemma reachableAny_thresholdRule_witness :
  thresholdRule
    (apply (UpdateReactions more 3 40)
       (apply (Plain (AddReaction confused true 1000))
          (apply (UpdateReactions confused 9 15) initial))).
Proof.
  apply reachableAny_thresholdRule.
  do 3 apply any_apply. apply any_initial.
Defined.

Lemma weightsOk_filter (f : TimestampedReaction -> bool) (l : list TimestampedReaction) :
  weightsOk l -> weightsOk (filter f l).
Proof.
  intros H r Hin. apply filter_In in Hin. apply H. exact (proj1 Hin).
Qed.

Lemma weightsOk_apply (o : Op) (st : ReactionState) :
  weightsOk (reactions st) -> weightsOk (reactions (apply o st)).
Proof.
  intros H. destruct o as [[ty r now|c m|]|ty count intens]; cbn [apply perform].
  - cbn. intros e Hin. apply in_app_or in Hin. destruct Hin as [Hin|[<-|[]]].
    + exact (weightsOk_filter _ _ H e Hin).
    + cbn. destruct r; auto.
  - exact H.
  - intros e [].
  - exact H.
Qed.

Lemma sumPoints_bounds (k : ReactionType) (l : list TimestampedReaction) :
  weightsOk l -> 0 <= sumPoints k l <= 2 * Z.of_nat (length l).
Proof.
  induction l as [|r l IH]; intros H; cbn [sumPoints length].
  - lia.
  - assert (Hr : points r = 1 \/ points r = 2) by (apply H; left; reflexivity).
    assert (Hl : weightsOk l) by (intros e He; apply H; right; exact He).
    specialize (IH Hl). rewrite Nat2Z.inj_succ.
    destruct (ReactionType_eqb (type r) k); lia.
Qed.

(** X2.  In every state the four actions can reach, each logged event
    weighs 1 or 2 points, so the scores [addReaction] computes lie between
    0 and twice the number of events it keeps. *)
Theorem reachableAny_weights (st : ReactionState) :
  reachableAny st ->
  weightsOk (reactions st) /\
  (forall ty isRapid now k,
     let st' := addReaction ty isRapid now st in
     0 <= getKey (recentReactions st') k <= 2 * Z.of_nat (length (reactions st'))).
Proof.
  intros H.
  assert (W : weightsOk (reactions st)).
  { induction H as [|o st _ IH]; [intros e []|apply weightsOk_apply, IH]. }
  split; [exact W|].
  intros ty isRapid now k. cbn zeta.
  rewrite addReaction_scores. apply sumPoints_bounds.
  exact (weightsOk_apply (Plain (AddReaction ty isRapid now)) st W).
Qed.

Lemma reachableAny_weights_witness :
  let st := apply (Plain (AddReaction more true 2000))
              (apply (UpdateReactions confused 9 15) initial) in
  weightsOk (reactions st) /\
  0 <= getKey (recentReactions (addReaction confused false 2500 st)) confused <= 4.
Proof.
  cbn zeta.
  pose proof (reachableAny_weights
                (apply (Plain (AddReaction more true 2000))
                   (apply (UpdateReactions confused 9 15) initial))
                (any_apply _ _ (any_apply _ _ any_initial))) as [W B].
  split; [exact W|].
  exact (B confused false 2500 confused).
Defined.

Lemma filter_none {A : Type} (f : A -> bool) (l : list A) :
  (forall x, In x l -> f x = false) -> filter f l = [].
Proof.
  intros H. induction l as [|x l IH]; cbn [filter]; [reflexivity|].
  rewrite (H x (or_introl eq_refl)). apply IH.
  intros y Hy. apply H. right. exact Hy.
Qed.

(** X3.  Decay: when every logged event is 30 seconds old or older at
    [now], [addReaction] leaves a log of the new event alone; the score of
    its type is its weight (2 if rapid, else 1), the other score is 0, and
    the glow is off with no dominant type and intensity 0, whatever the
    scores were before. *)
Theorem addReaction_after_silence (st : ReactionState) (ty : ReactionType)
  (isRapid : bool) (now : Z) :
  (forall r, In r (reactions st) -> 30000 <= now - timestamp r) ->
  let st' := addReaction ty isRapid now st in
  reactions st' = [mkReaction ty now (if isRapid then 2 else 1)] /\
  getKey (recentReactions st') ty = (if isRapid then 2 else 1) /\
  (forall k, k <> ty -> getKey (recentReactions st') k = 0) /\
  glowActive st' = false /\ dominantType st' = None /\ intensity st' = 0.
Proof.
  intros Hold. cbn zeta.
  assert (E : filter (fun r => now - timestamp r <? SLIDING_WINDOW_MS) (reactions st) = []).
  { apply filter_none. intros r Hin. apply Z.ltb_ge.
    unfold SLIDING_WINDOW_MS. apply Hold, Hin. }
  unfold addReaction, set, merge.
  cbn [orKeep p_recentReactions p_intensity p_dominantType p_glowActive p_reactions
       reactions recentReactions glowActive dominantType intensity].
  rewrite E. cbn [app].
  destruct ty, isRapid; cbn; repeat split;
    intros k Hk; destruct k; try reflexivity; congruence.
Qed.

Lemma addReaction_after_silence_witness :
  let st := addReaction confused true 2000
              (addReaction confused true 1000
                 (addReaction confused true 0 initial)) in
  glowActive st = true /\
  glowActive (addReaction more false 32000 st) = false /\
  reactions (addReaction more false 32000 st) = [mkReaction more 32000 1].
Proof.
  cbn zeta. split; [reflexivity|].
  pose proof (addReaction_after_silence
                (addReaction confused true 2000
                   (addReaction confused true 1000
                      (addReaction confused true 0 initial)))
                more false 32000) as H.
  cbn zeta in H.
  destruct H as (Hlog & _ & _ & Hg & _).
  - intros r Hin. cbn in Hin.
    repeat (destruct Hin as [<-|Hin]; [cbn; lia|]). destruct Hin.
  - split; [exact Hg|exact Hlog].
Defined.

(** X4.  The last write wins.  A local reaction computes the displayed
    fields from the event log alone, so it discards an authoritative
    snapshot and a demo update made before it; a snapshot replaces the
    snapshot before it; and [resetReactions] gives the initial state from
    any state. *)
Theorem last_write_wins (st : ReactionState) (ty ty' : ReactionType)
  (isRapid : bool) (now c m c' m' count intens : Z) :
  addReaction ty isRapid now (setReactionsFromBackend c m st)
  = addReaction ty isRapid now st /\
  addReaction ty isRapid now (updateReactions ty' count intens st)
  = addReaction ty isRapid now st /\
  setReactionsFromBackend c' m' (setReactionsFromBackend c m st)
  = setReactionsFromBackend c' m' st /\
  setReactionsFromBackend c' m' (updateReactions ty' count intens st)
  = setReactionsFromBackend c' m' st /\
  resetReactions st = initial.
Proof. repeat split. Qed.

(** X5.  Over any non-empty sequence of [addReaction] calls from the
    initial state whose clock does not go back, the log is the recorded
    events lying within 30 seconds of the last call, in order, and each
    score is the sum of their points per type: events pruned by an earlier
    call were already too old for the last one. *)
Theorem history_window (c : Call) (rest : list Call) :
  StronglySorted Z.le (map timeOf (c :: rest)) ->
  let now := last (map timeOf rest) (timeOf c) in
  let st := record (c :: rest) initial in
  reactions st = windowAt now (map eventOf (c :: rest)) /\
  (forall k, getKey (recentReactions st) k
             = sumPoints k (windowAt now (map eventOf (c :: rest)))) /\
  glowRule st.
Proof.
  intros Hs. cbn zeta.
  split; [exact (reactions_record rest c initial Hs)|].
  split; [intros k; apply scores_record, Hs|].
  destruct (exists_last (l := c :: rest) ltac:(discriminate))
    as (front & [[ty r] t] & ->).
  unfold record. rewrite fold_left_app. cbn [fold_left].
  apply glowRule_addReaction.
Qed.

Lemma history_window_witness :
  let calls := [(confused, false, 0); (confused, true, 20000); (more, false, 31000)] in
  reactions (record calls initial)
  = [mkReaction confused 20000 2; mkReaction more 31000 1] /\
  getKey (recentReactions (record calls initial)) confused = 2.
Proof.
  cbn zeta.
  pose proof (history_window (confused, false, 0)
                [(confused, true, 20000); (more, false, 31000)]) as H.
  cbn zeta in H.
  destruct H as (Hlog & Hk & _).
  - repeat constructor; cbn; lia.
  - split; [exact Hlog|exact (Hk confused)].
Defined.

End StoreExtra.

(* ================================================================== *)
(** * Properties of the presenter dashboard *)
(* ================================================================== *)

Module DashboardProps.
Import Js ReactionStore StoreOps StoreProps Dashboard.

(** X6.  What the presenter sees follows the scores, in every state the
    four store actions can reach: the text asking to explain again shows
    exactly when the confused score is at least 5; the text asking to go
    deeper exactly when the confused score is below 5 and the more score
    at least 5; no text exactly when both are below 5; and the glow style
    is empty exactly when there is no text, orange with the first text and
    blue with the second. *)
Theorem dashboard_follows_scores (st : ReactionState) :
  reachableAny st ->
  let c := count_confused (recentReactions st) in
  let m := count_more (recentReactions st) in
  (getMessage st = Some MSG_CONFUSED <-> 5 <= c) /\
  (getMessage st = Some MSG_MORE <-> c < 5 /\ 5 <= m) /\
  (getMessage st = None <-> c < 5 /\ m < 5) /\
  (getGlowStyle st = None <-> getMessage st = None) /\
  (getGlowStyle st
   = Some "radial-gradient(circle at 50% 50%, rgba(255, 165, 0, 0.6) 0%, transparent 70%)"%string
   <-> getMessage st = Some MSG_CONFUSED) /\
  (getGlowStyle st
   = Some "radial-gradient(circle at 50% 50%, rgba(0, 150, 255, 0.6) 0%, transparent 70%)"%string
   <-> getMessage st = Some MSG_MORE).
Proof.
  intros H. cbn zeta.
  assert (R : thresholdRule st).
  { destruct H as [|o st _];
      [exact (StoreExtra.thresholdRule_computed 0 0 0 [])
      |apply StoreExtra.thresholdRule_apply]. }
  destruct R as (Hg & Hc & Hm & Hn & _).
  unfold getMessage, getGlowStyle.
  destruct (Z.le_gt_cases 5 (count_confused (recentReactions st))) as [C|C].
  - rewrite (Hc C). rewrite (proj2 Hg (or_introl C)). cbn.
    repeat split; intros; try discriminate; try lia; try reflexivity.
  - destruct (Z.le_gt_cases 5 (count_more (recentReactions st))) as [M|M].
    + rewrite (Hm C M). rewrite (proj2 Hg (or_intror M)). cbn.
      repeat split; intros; try discriminate; try lia; try reflexivity.
    + rewrite (Hn C M).
      assert (G : glowActive st = false).
      { apply not_true_is_false. intros G. apply Hg in G. lia. }
      rewrite G. cbn.
      repeat split; intros; try discriminate; try lia; try reflexivity.
Qed.

Lemma dashboard_follows_scores_witness :
  let st := apply (Plain (SetReactionsFromBackend 2 8))
              (apply (UpdateReactions confused 9 15) initial) in
  getMessage st = Some MSG_MORE /\
  getGlowStyle st
  = Some "radial-gradient(circle at 50% 50%, rgba(0, 150, 255, 0.6) 0%, transparent 70%)"%string.
Proof.
  cbn zeta.
  pose proof (dashboard_follows_scores
                (apply (Plain (SetReactionsFromBackend 2 8))
                   (apply (UpdateReactions confused 9 15) initial))
                (any_apply _ _ (any_apply _ _ any_initial))) as H.
  cbn zeta in H. destruct H as (_ & Hm & _ & _ & _ & Hb).
  assert (M : getMessage
                (apply (Plain (SetReactionsFromBackend 2 8))
                   (apply (UpdateReactions confused 9 15) initial)) = Some MSG_MORE)
    by (apply Hm; cbn; lia).
  split; [exact M|apply Hb, M].
Defined.

Lemma press_demoState (b : DemoButton) (i j : nat) :
  press b (demoState i j)
  = match b with
    | PlusConfused => demoState (S i) j
    | PlusMore => demoState i (S j)
    | Reset => demoState 0 0
    end.
Proof.
  destruct b; [| |reflexivity].
  - unfold press, demoState, updateReactions, set, merge.
    cbn -[glowOf dominantOf Z.mul Z.of_nat].
    replace (5 * Z.of_nat i + 5) with (5 * Z.of_nat (S i)) by lia.
    assert (G : glowOf (5 * Z.of_nat (S i)) (5 * Z.of_nat j) = true)
      by (apply glowOf_true; lia).
    rewrite G. reflexivity.
  - unfold press, demoState, updateReactions, set, merge.
    cbn -[glowOf dominantOf Z.mul Z.of_nat].
    replace (5 * Z.of_nat j + 5) with (5 * Z.of_nat (S j)) by lia.
    assert (G : glowOf (5 * Z.of_nat i) (5 * Z.of_nat (S j)) = true)
      by (apply glowOf_true; lia).
    rewrite G. reflexivity.
Qed.

Lemma pressAll_demoState (bs : list DemoButton) :
  forall i j : nat, exists i' j' : nat, pressAll bs (demoState i j) = demoState i' j'.
Proof.
  induction bs as [|b bs IH]; intros i j.
  - exists i, j. reflexivity.
  - cbn [pressAll fold_left]. rewrite press_demoState.
    destruct b; apply IH.
Qed.

(** X7.  From the initial store, whatever demo controls are pressed in
    whatever order, the scores are non-negative multiples of 5, the state
    obeys the full glow rule (so the intensity is 0 or 100, although
    [updateReactions] alone can store any intensity), the event log stays
    empty, and the glow is off exactly when both scores are 0. *)
Theorem demo_controls (bs : list DemoButton) :
  let st := pressAll bs initial in
  (exists i j : nat,
     recentReactions st = mkCount (5 * Z.of_nat i) (5 * Z.of_nat j)) /\
  glowRule st /\
  reactions st = [] /\
  (glowActive st = false <->
   count_confused (recentReactions st) = 0 /\ count_more (recentReactions st) = 0).
Proof.
  cbn zeta. destruct (pressAll_demoState bs O O) as (i & j & E).
  change (demoState 0 0) with initial in E.
  rewrite E. unfold demoState.
  split; [exists i, j; reflexivity|].
  split; [apply glowRule_computed|].
  split; [reflexivity|].
  cbn [glowActive recentReactions count_confused count_more].
  split.
  - intros G.
    assert (N : ~ (5 <= 5 * Z.of_nat i \/ 5 <= 5 * Z.of_nat j)).
    { intros N. apply glowOf_true in N. congruence. }
    lia.
  - intros [Hc Hm]. apply not_true_is_false. rewrite glowOf_true. lia.
Qed.

End DashboardProps.

(* ================================================================== *)
(** * The question list of the dashboard *)
(* ================================================================== *)

Module QuestionListProps.
Import Js Dashboard.

Lemma has_app (x : Z) (a b : NumSet) : has x (a ++ b) = has x a || has x b.
Proof. apply existsb_app. Qed.

Lemma has_add (x y : Z) (s : NumSet) : has x (add y s) = (x =? y) || has x s.
Proof.
  unfold add. destruct (has y s) eqn:E.
  - destruct (Z.eqb_spec x y) as [->|_]; [rewrite E|]; reflexivity.
  - rewrite has_app. cbn. rewrite orb_false_r. apply orb_comm.
Qed.

Lemma has_delete (x y : Z) (s : NumSet) :
  has x (delete y s) = negb (x =? y) && has x s.
Proof.
  unfold delete, has. induction s as [|z s IH]; cbn [filter existsb].
  - rewrite andb_false_r. reflexivity.
  - destruct (Z.eqb_spec y z) as [->|Hyz]; cbn [negb existsb].
    + rewrite IH. destruct (Z.eqb_spec x z); reflexivity.
    + rewrite IH. destruct (Z.eqb_spec x z) as [->|Hxz]; cbn.
      * destruct (Z.eqb_spec z y); [congruence|reflexivity].
      * reflexivity.
Qed.

Lemma has_toggle (x i : Z) (s : NumSet) :
  has x (if has i s then delete i s else add i s)
  = if x =? i then negb (has i s) else has x s.
Proof.
  destruct (has i s) eqn:E.
  - rewrite has_delete. destruct (Z.eqb_spec x i); reflexivity.
  - rewrite has_add. destruct (Z.eqb_spec x i) as [->|_]; [|reflexivity].
    reflexivity.
Qed.

Lemma has_fold_add (x : Z) (items : list Z) :
  forall acc, has x (fold_left (fun s y => add y s) items acc)
              = has x acc || existsb (Z.eqb x) items.
Proof.
  induction items as [|y items IH]; intros acc; cbn [fold_left existsb].
  - rewrite orb_false_r. reflexivity.
  - rewrite IH, has_add. destruct (x =? y), (has x acc); reflexivity.
Qed.

Lemma has_ofArray (x : Z) (items : list Z) :
  has x (ofArray items) = true <-> In x items.
Proof.
  unfold ofArray. rewrite has_fold_add. cbn [has existsb orb].
  rewrite existsb_exists. split.
  - intros (y & Hin & E). apply Z.eqb_eq in E. subst y. exact Hin.
  - intros Hin. exists x. split; [exact Hin|apply Z.eqb_refl].
Qed.

Lemma unseen_In (d0 : Dash) (data : list Question) (q : Question) :
  In q (unseen d0 data) <-> In q data /\ ~ In (id q) (idsOf (questions d0)).
Proof.
  unfold unseen. rewrite filter_In, negb_true_iff.
  fold (idsOf (questions d0)).
  rewrite <- not_true_iff_false, has_ofArray. reflexivity.
Qed.

(** [fetchQuestions] on each path and outcome. *)
Lemma fetchQuestions_run (forceRefresh : bool) (during : Dash -> Dash)
  (outcome : Fetched) (d0 : Dash) :
  let mid := atSettle forceRefresh during d0 in
  fetchQuestions forceRefresh during outcome d0
  = (match outcome, isIncremental forceRefresh d0 with
     | Data data, true =>
         if (0 <? length (unseen d0 data))%nat
         then setQuestions (fun prev => withChecks (unseen d0 data) mid ++ prev) mid
         else mid
     | Data data, false =>
         setIsLoadingQuestions false
           (setHasFetchedOnce true (setQuestions (fun _ => withChecks data mid) mid))
     | Failed e, true => consoleError (FailedToFetchNewQuestions e) mid
     | Failed e, false =>
         setIsLoadingQuestions false (consoleError (FailedToFetchQuestions e) mid)
     end,
     Normal tt).
Proof.
  cbn zeta. unfold fetchQuestions, atSettle, isIncremental.
  destruct (hasFetchedOnce d0 && negb forceRefresh && (0 <? length (questions d0))%nat);
    destruct outcome as [data|e]; try reflexivity.
  unfold tryCatch, bind, awaitGetQuestions, unseen.
  destruct (0 <? length _)%nat; reflexivity.
Qed.

Lemma inSync_withChecks (data : list Question) (d : Dash) (q : CheckedQuestion) :
  In q (withChecks data d) -> checked q = has (id (question q)) (checkedIds d).
Proof.
  unfold withChecks. rewrite in_map_iff. intros (q0 & <- & _). reflexivity.
Qed.

(** X8.  The check marks stay in step with the persisted set: if every
    listed question is marked exactly when its id is in [checkedIds], this
    still holds after [handleToggleQuestion] and after [fetchQuestions] on
    either path and either outcome, provided what runs during the request
    keeps it too. *)
Theorem checks_stay_in_sync (forceRefresh : bool) (during : Dash -> Dash)
  (outcome : Fetched) (i : Z) (d0 : Dash) :
  (forall d, inSync d -> inSync (during d)) ->
  inSync d0 ->
  inSync (handleToggleQuestion i d0) /\
  inSync (fst (fetchQuestions forceRefresh during outcome d0)).
Proof.
  intros Hd H0. split.
  - intros q Hin. cbn in Hin. apply in_map_iff in Hin.
    destruct Hin as (q0 & <- & Hin0). cbn [handleToggleQuestion setCheckedIds
      setQuestions checkedIds questions].
    rewrite has_toggle. specialize (H0 q0 Hin0).
    destruct (id (question q0) =? i) eqn:E; cbn [question checked].
    + rewrite E, H0. apply Z.eqb_eq in E. rewrite E. reflexivity.
    + rewrite E. exact H0.
  - rewrite fetchQuestions_run. cbn [fst].
    assert (Hm : inSync (atSettle forceRefresh during d0)).
    { unfold atSettle. apply Hd.
      destruct (isIncremental forceRefresh d0); exact H0. }
    set (mid := atSettle forceRefresh during d0) in *.
    destruct outcome as [data|e], (isIncremental forceRefresh d0).
    + destruct (0 <? length (unseen d0 data))%nat; [|exact Hm].
      intros q Hin. cbn in Hin. apply in_app_or in Hin. destruct Hin as [Hin|Hin].
      * exact (inSync_withChecks _ _ _ Hin).
      * exact (Hm q Hin).
    + intros q Hin. cbn in Hin. exact (inSync_withChecks _ _ _ Hin).
    + exact Hm.
    + exact Hm.
Qed.

Lemma checks_stay_in_sync_witness :
  let q1 := mkQuestion 1 [104; 105]%N [] None None None in
  let q2 := mkQuestion 2 [63]%N [] None None None in
  let d0 := mkDash [mkChecked q1 true; mkChecked q2 false] [1] true false [] in
  inSync d0 /\
  inSync (handleToggleQuestion 2 d0) /\
  inSync (fst (fetchQuestions false (fun d => d)
                 (Data [q2; mkQuestion 3 [33]%N [] None None None]) d0)).
Proof.
  cbn zeta.
  assert (H0 : inSync (mkDash [mkChecked (mkQuestion 1 [104; 105]%N [] None None None) true;
                               mkChecked (mkQuestion 2 [63]%N [] None None None) false]
                         [1] true false [])).
  { intros q Hin. cbn in Hin. destruct Hin as [<-|[<-|[]]]; reflexivity. }
  split; [exact H0|].
  apply (checks_stay_in_sync false (fun d => d)); [intros d Hd; exact Hd|exact H0].
Defined.

Lemma idsOf_withChecks (l : list Question) (d : Dash) :
  idsOf (withChecks l d) = map id l.
Proof.
  unfold idsOf, withChecks. rewrite map_map. reflexivity.
Qed.

(** Distinct backend ids stay distinct among the unseen questions. *)
Lemma unseen_ids_distinct (d0 : Dash) (data : list Question) :
  NoDup (map id data) -> NoDup (map id (unseen d0 data)).
Proof.
  unfold unseen. generalize (ofArray (map (fun q => id (question q)) (questions d0))).
  intros seen. induction data as [|q data IH]; intros Hnd; cbn [filter map].
  - constructor.
  - cbn [map] in Hnd. apply NoDup_cons_iff in Hnd. destruct Hnd as [Hq Hrest].
    destruct (has (id q) seen); cbn [negb]; [exact (IH Hrest)|].
    cbn [map]. apply NoDup_cons; [|exact (IH Hrest)].
    rewrite in_map_iff. intros (q' & Eid & Hin). apply Hq.
    rewrite in_map_iff. exists q'. split; [exact Eid|].
    apply filter_In in Hin. tauto.
Qed.

(** X9.  An incremental fetch puts the questions the calling render did
    not hold, and only those, in front of the list as it is when the
    request settles, each marked by the persisted set; the questions
    already listed keep their place and marks.  If the backend ids are
    distinct and nothing was added to the list during the request, the
    listed ids stay distinct. *)
Theorem incremental_fetch (during : Dash -> Dash) (data : list Question) (d0 : Dash) :
  isIncremental false d0 = true ->
  let mid := during d0 in
  let d' := fst (fetchQuestions false during (Data data) d0) in
  questions d' = withChecks (unseen d0 data) mid ++ questions mid /\
  (forall q, In q (unseen d0 data)
             <-> In q data /\ ~ In (id q) (idsOf (questions d0))) /\
  checkedIds d' = checkedIds mid /\
  (NoDup (map id data) ->
   NoDup (idsOf (questions mid)) ->
   incl (idsOf (questions mid)) (idsOf (questions d0)) ->
   NoDup (idsOf (questions d'))).
Proof.
  intros Hinc. cbn zeta. rewrite fetchQuestions_run. unfold atSettle.
  rewrite Hinc. cbn [fst].
  assert (Q : questions
                (if (0 <? length (unseen d0 data))%nat
                 then setQuestions
                        (fun prev => withChecks (unseen d0 data) (during d0) ++ prev)
                        (during d0)
                 else during d0)
              = withChecks (unseen d0 data) (during d0) ++ questions (during d0)).
  { destruct (unseen d0 data) as [|q l]; reflexivity. }
  split; [exact Q|].
  split; [intros q; apply unseen_In|].
  split; [destruct (0 <? length (unseen d0 data))%nat; reflexivity|].
  intros Hdata Hmid Hincl. rewrite Q. unfold idsOf at 1.
  rewrite map_app. fold (idsOf (withChecks (unseen d0 data) (during d0))).
  fold (idsOf (questions (during d0))). rewrite idsOf_withChecks.
  apply NoDup_app.
  - apply unseen_ids_distinct, Hdata.
  - exact Hmid.
  - intros x Hx Hx'. apply in_map_iff in Hx. destruct Hx as (q & <- & Hq).
    apply unseen_In in Hq. apply (proj2 Hq), Hincl, Hx'.
Qed.

Lemma incremental_fetch_witness :
  let q1 := mkQuestion 1 [104; 105]%N [] None None None in
  let q2 := mkQuestion 2 [63]%N [] None None None in
  let q3 := mkQuestion 3 [33]%N [] None None None in
  let d0 := mkDash [mkChecked q1 true; mkChecked q2 false] [1; 3] true false [] in
  questions (fst (fetchQuestions false (fun d => d) (Data [q3; q2; q1]) d0))
  = [mkChecked q3 true; mkChecked q1 true; mkChecked q2 false].
Proof.
  cbn zeta.
  exact (proj1 (incremental_fetch (fun d => d)
                  [mkQuestion 3 [33]%N [] None None None;
                   mkQuestion 2 [63]%N [] None None None;
                   mkQuestion 1 [104; 105]%N [] None None None]
                  (mkDash [mkChecked (mkQuestion 1 [104; 105]%N [] None None None) true;
                           mkChecked (mkQuestion 2 [63]%N [] None None None) false]
                     [1; 3] true false [])
                  eq_refl)).
Defined.

Lemma toggle_twice_questions (i : Z) (l : list CheckedQuestion) :
  map (fun q => if id (question q) =? i
                then mkChecked (question q) (negb (checked q)) else q)
      (map (fun q => if id (question q) =? i
                     then mkChecked (question q) (negb (checked q)) else q) l)
  = l.
Proof.
  induction l as [|q l IH]; cbn [map]; [reflexivity|].
  rewrite IH. f_equal.
  destruct (id (question q) =? i) eqn:E; cbn [question checked].
  - rewrite E, negb_involutive. destruct q; reflexivity.
  - rewrite E. reflexivity.
Qed.

(** X10.  [handleToggleQuestion(id)] flips the membership of [id] in the
    persisted set and of no other id, keeps the listed ids and their order,
    and leaves every question with another id as it was; toggling the same
    id twice restores the list and the membership of every id. *)
Theorem toggle_question (i : Z) (d : Dash) :
  let d1 := handleToggleQuestion i d in
  let d2 := handleToggleQuestion i d1 in
  has i (checkedIds d1) = negb (has i (checkedIds d)) /\
  (forall x, x <> i -> has x (checkedIds d1) = has x (checkedIds d)) /\
  idsOf (questions d1) = idsOf (questions d) /\
  (forall q, In q (questions d) -> id (question q) <> i -> In q (questions d1)) /\
  questions d2 = questions d /\
  (forall x, has x (checkedIds d2) = has x (checkedIds d)).
Proof.
  cbn zeta.
  cbn [handleToggleQuestion setCheckedIds setQuestions checkedIds questions].
  split; [rewrite has_toggle, Z.eqb_refl; reflexivity|].
  split.
  { intros x Hx. rewrite has_toggle.
    destruct (Z.eqb_spec x i); [contradiction|reflexivity]. }
  split.
  { unfold idsOf. rewrite map_map. apply map_ext. intros q.
    destruct (id (question q) =? i); reflexivity. }
  split.
  { intros q Hin Hne. apply in_map_iff. exists q. split; [|exact Hin].
    destruct (Z.eqb_spec (id (question q)) i); [contradiction|reflexivity]. }
  split; [apply toggle_twice_questions|].
  intros x. rewrite !has_toggle, Z.eqb_refl.
  destruct (Z.eqb_spec x i) as [->|_]; [apply negb_involutive|reflexivity].
Qed.

(** X11.  A full fetch that succeeds replaces the list by what the backend
    returned, in its order, each question marked by the persisted set,
    clears the loading flag and records that a fetch was made, so that the
    next unforced call is incremental exactly when the list is not empty.
    A fetch that fails, on either path, logs one error and ends normally
    with the list, the persisted set and the fetched-once mark as they
    were when the request settled; after a failed full fetch the loading
    flag is cleared. *)
Theorem fetch_outcomes (forceRefresh : bool) (during : Dash -> Dash)
  (data : list Question) (e : Exn) (d0 : Dash) :
  let mid := atSettle forceRefresh during d0 in
  let ok := fetchQuestions forceRefresh during (Data data) d0 in
  let ko := fetchQuestions forceRefresh during (Failed e) d0 in
  (isIncremental forceRefresh d0 = false ->
   questions (fst ok) = withChecks data mid /\
   idsOf (questions (fst ok)) = map id data /\
   hasFetchedOnce (fst ok) = true /\
   isLoadingQuestions (fst ok) = false /\
   (isIncremental false (fst ok) = true <-> data <> []) /\
   isLoadingQuestions (fst ko) = false) /\
  snd ok = Normal tt /\
  snd ko = Normal tt /\
  questions (fst ko) = questions mid /\
  checkedIds (fst ko) = checkedIds mid /\
  hasFetchedOnce (fst ko) = hasFetchedOnce mid /\
  length (console (fst ko)) = S (length (console mid)).
Proof.
  cbn zeta. rewrite !fetchQuestions_run. cbn [fst snd].
  split.
  - intros Hfull. rewrite Hfull.
    cbn [questions hasFetchedOnce isLoadingQuestions setIsLoadingQuestions
         setHasFetchedOnce setQuestions consoleError].
    split; [reflexivity|]. split; [apply idsOf_withChecks|].
    split; [reflexivity|]. split; [reflexivity|]. split; [|reflexivity].
    unfold isIncremental. cbn. unfold withChecks. rewrite length_map.
    destruct data; cbn; split; try congruence; discriminate.
  - destruct (isIncremental forceRefresh d0); cbn;
      rewrite ?length_app; cbn; repeat split; lia.
Qed.

Lemma fetch_outcomes_witness :
  let q1 := mkQuestion 1 [104; 105]%N [] None None None in
  let q2 := mkQuestion 2 [63]%N [] None None None in
  let d0 := mkDash [] [2] false false [] in
  questions (fst (fetchQuestions false (fun d => d) (Data [q1; q2]) d0))
  = [mkChecked q1 false; mkChecked q2 true] /\
  isLoadingQuestions (fst (fetchQuestions false (fun d => d) (Failed (Error "offline")) d0))
  = false.
Proof.
  cbn zeta.
  pose proof (fetch_outcomes false (fun d => d)
                [mkQuestion 1 [104; 105]%N [] None None None;
                 mkQuestion 2 [63]%N [] None None None]
                (Error "offline") (mkDash [] [2] false false [])) as H.
  cbn zeta in H. destruct H as (H & _).
  destruct (H eq_refl) as (Hq & _ & _ & _ & _ & Hl).
  split; [exact Hq|exact Hl].
Defined.

End QuestionListProps.

(* ================================================================== *)
(** * Properties of the admin page *)
(* ================================================================== *)

Module AdminProps.
Import ReactionStore Admin.

(** The code unit of a decimal digit. *)
Lemma two_digits (n : Z) :
  0 <= n < 100 -> two n = [Z.to_N (48 + n / 10); Z.to_N (48 + n mod 10)].
Proof.
  intros H. rewrite <- (Z2Nat.id n) by lia.
  assert (Hk : (Z.to_nat n < 100)%nat) by lia.
  generalize dependent (Z.to_nat n). intros k Hk.
  do 100 (destruct k as [|k]; [reflexivity|]). lia.
Qed.

Lemma duration_fields (diff : Z) :
  0 <= diff ->
  0 <= hoursOf diff /\ 0 <= minutesOf diff < 60 /\ 0 <= secondsOf diff < 60 /\
  hoursOf diff * 3600 + minutesOf diff * 60 + secondsOf diff = diff / 1000.
Proof.
  intros H. unfold hoursOf, minutesOf, secondsOf.
  rewrite !Z.rem_mod_nonneg by lia.
  Z.to_euclidean_division_equations. lia.
Qed.

(** X12.  While a session runs, a tick [diff] milliseconds after the start,
    for a [diff] from 0 to under 100 hours, shows the whole seconds elapsed
    as HH:MM:SS: three two-digit fields, minutes and seconds below 60,
    together worth [diff / 1000] seconds.  Once the session is ended the
    ticks change nothing; declining the confirmation leaves the session
    running, and there is nothing to end before a session was started. *)
Theorem session_duration (p : Page) (start now : Z) :
  0 <= now - start < 360000000 ->
  let running := handleStartSession start p in
  let h := hoursOf (now - start) in
  let m := minutesOf (now - start) in
  let s := secondsOf (now - start) in
  let digit := fun d => Z.to_N (48 + d) in
  duration running = [48; 48; 58; 48; 48; 58; 48; 48]%N /\
  duration (durationTick now running)
  = [digit (h / 10); digit (h mod 10); 58%N;
     digit (m / 10); digit (m mod 10); 58%N;
     digit (s / 10); digit (s mod 10)] /\
  0 <= h < 100 /\ 0 <= m < 60 /\ 0 <= s < 60 /\
  h * 3600 + m * 60 + s = (now - start) / 1000 /\
  (forall tEnd later,
     durationTick later (handleEndSession true tEnd (durationTick now running))
     = handleEndSession true tEnd (durationTick now running)) /\
  (forall tEnd, handleEndSession false tEnd running = running) /\
  (forall confirmed tEnd, handleEndSession confirmed tEnd initialPage = initialPage).
Proof.
  intros H. cbn zeta.
  destruct (duration_fields (now - start) (proj1 H)) as (Hh & Hm & Hs & Hsum).
  assert (Hh' : hoursOf (now - start) < 100).
  { unfold hoursOf. apply Z.div_lt_upper_bound; lia. }
  split; [reflexivity|].
  split.
  { cbn [durationTick handleStartSession sessionStartTime sessionEndTime duration].
    unfold formatDuration. rewrite !two_digits by lia. reflexivity. }
  repeat split; try lia.
Qed.

Lemma session_duration_witness :
  duration (durationTick 1700003725999 (handleStartSession 1700000000000 initialPage))
  = [48; 49; 58; 48; 50; 58; 48; 53]%N.
Proof.
  pose proof (session_duration initialPage 1700000000000 1700003725999) as H.
  cbn zeta in H. destruct H as (_ & H & _); [lia|].
  exact H.
Defined.

Lemma sameDeps_eq (a b : ReactionCount) :
  sameDeps a b = true -> count_confused a = count_confused b /\ count_more a = count_more b.
Proof. unfold sameDeps. rewrite andb_true_iff, !Z.eqb_eq. tauto. Qed.

(** A render skips the effect or runs it. *)
Lemma render_cases (rc : ReactionCount) (m : Mounted) :
  (render rc m = m /\
   exists d, peakDeps m = Some d /\
             count_confused d = count_confused rc /\ count_more d = count_more rc) \/
  render rc m = mkMounted (trackPeaks rc (page m)) (Some rc).
Proof.
  unfold render. destruct (peakDeps m) as [d|] eqn:E; [|right; reflexivity].
  destruct (sameDeps d rc) eqn:S; [|right; reflexivity].
  left. split; [reflexivity|]. exists d. split; [reflexivity|apply sameDeps_eq, S].
Qed.

Lemma render_peaks (rc : ReactionCount) (m : Mounted) :
  peakConfused (page m) <= peakConfused (page (render rc m)) /\
  peakMore (page m) <= peakMore (page (render rc m)) /\
  (peakConfused (page (render rc m)) = peakConfused (page m) \/
   peakConfused (page (render rc m)) = count_confused rc) /\
  (peakMore (page (render rc m)) = peakMore (page m) \/
   peakMore (page (render rc m)) = count_more rc) /\
  sessionStartTime (page (render rc m)) = sessionStartTime (page m) /\
  sessionEndTime (page (render rc m)) = sessionEndTime (page m) /\
  duration (page (render rc m)) = duration (page m).
Proof.
  destruct (render_cases rc m) as [[-> _]| ->].
  - repeat split; try lia; left; reflexivity.
  - cbn [page trackPeaks peakConfused peakMore sessionStartTime sessionEndTime duration].
    repeat split; lia.
Qed.

Lemma render_covered (rc : ReactionCount) (m : Mounted) :
  covered m \/ (forall d, peakDeps m = Some d -> sameDeps d rc = false) ->
  covered (render rc m) /\
  count_confused rc <= peakConfused (page (render rc m)) /\
  count_more rc <= peakMore (page (render rc m)).
Proof.
  intros H. destruct (render_cases rc m) as [[E (d & Hd & Hc & Hm)]| E]; rewrite E.
  - destruct H as [H|H].
    + destruct (H d Hd) as [H1 H2]. split; [exact H|lia].
    + specialize (H d Hd). unfold sameDeps in H.
      rewrite Hc, Hm, !Z.eqb_refl in H. discriminate H.
  - cbn [page trackPeaks peakConfused peakMore]. split; [|lia].
    intros d Hd. cbn in Hd. injection Hd as <-. cbn. lia.
Qed.

Lemma observe_peaks (scores : list ReactionCount) :
  forall m : Mounted,
    let m' := observe scores m in
    peakConfused (page m) <= peakConfused (page m') /\
    peakMore (page m) <= peakMore (page m') /\
    (peakConfused (page m') = peakConfused (page m) \/
     exists rc, In rc scores /\ peakConfused (page m') = count_confused rc) /\
    (peakMore (page m') = peakMore (page m) \/
     exists rc, In rc scores /\ peakMore (page m') = count_more rc) /\
    sessionStartTime (page m') = sessionStartTime (page m) /\
    sessionEndTime (page m') = sessionEndTime (page m) /\
    duration (page m') = duration (page m).
Proof.
  induction scores as [|rc scores IH]; intros m; cbn zeta; cbn [observe fold_left].
  - repeat split; try lia; left; reflexivity.
  - specialize (IH (render rc m)). cbn zeta in IH.
    fold (observe scores (render rc m)) in *.
    destruct IH as (C & M & Co & Mo & S1 & S2 & S3).
    destruct (render_peaks rc m) as (C' & M' & Co' & Mo' & T1 & T2 & T3).
    split; [lia|]. split; [lia|]. split.
    { destruct Co as [E|(rc' & Hin & E)].
      - destruct Co' as [E'|E'].
        + left. congruence.
        + right. exists rc. split; [left; reflexivity|congruence].
      - right. exists rc'. split; [right; exact Hin|exact E]. }
    split.
    { destruct Mo as [E|(rc' & Hin & E)].
      - destruct Mo' as [E'|E'].
        + left. congruence.
        + right. exists rc. split; [left; reflexivity|congruence].
      - right. exists rc'. split; [right; exact Hin|exact E]. }
    repeat split; congruence.
Qed.

Lemma observe_covered (scores : list ReactionCount) :
  forall m : Mounted,
    covered m ->
    forall rc, In rc scores ->
      count_confused rc <= peakConfused (page (observe scores m)) /\
      count_more rc <= peakMore (page (observe scores m)).
Proof.
  induction scores as [|rc0 scores IH]; intros m Hc rc Hin; [destruct Hin|].
  cbn [observe fold_left]. fold (observe scores (render rc0 m)).
  destruct (render_covered rc0 m (or_introl Hc)) as (Hc' & H1 & H2).
  destruct Hin as [<-|Hin].
  - destruct (observe_peaks scores (render rc0 m)) as (C & M & _). lia.
  - exact (IH (render rc0 m) Hc' rc Hin).
Qed.

(** Renders with the scores of the render before leave the page as it is. *)
Lemma observe_unchanged (d : ReactionCount) (n : nat) (m : Mounted) :
  peakDeps m = Some d -> observe (repeat d n) m = m.
Proof.
  intros Hd. induction n as [|n IH]; cbn [repeat observe fold_left]; [reflexivity|].
  assert (E : render d m = m).
  { unfold render. rewrite Hd. unfold sameDeps. rewrite !Z.eqb_refl. reflexivity. }
  rewrite E. exact IH.
Qed.

(** X13.  Peak tracking on the admin page.  The peak effect runs after
    the first render and after each render whose scores differ from those
    of the render before.  Over any renders each peak never goes down and
    is either the peak before or one of the scores rendered, and the
    session times and the duration are untouched.  From the mount on, a
    peak is at least every score rendered (so it is the largest of them,
    or 0).  [handleStartSession] sets both peaks to 0 and the effect does
    not run on the render it causes: while the scores stay as they were
    the peaks stay 0, whatever the scores are; from the first render with
    changed scores on, the peaks are again at least every score
    rendered. *)
Theorem peak_effect_on_change (scores : list ReactionCount) (m : Mounted) (now : Z) :
  let m' := observe scores m in
  let started := handle (handleStartSession now) m in
  peakConfused (page m) <= peakConfused (page m') /\
  peakMore (page m) <= peakMore (page m') /\
  (peakConfused (page m') = peakConfused (page m) \/
   exists rc, In rc scores /\ peakConfused (page m') = count_confused rc) /\
  (peakMore (page m') = peakMore (page m) \/
   exists rc, In rc scores /\ peakMore (page m') = count_more rc) /\
  sessionStartTime (page m') = sessionStartTime (page m) /\
  sessionEndTime (page m') = sessionEndTime (page m) /\
  duration (page m') = duration (page m) /\
  (forall rc, In rc scores ->
     count_confused rc <= peakConfused (page (observe scores mount)) /\
     count_more rc <= peakMore (page (observe scores mount))) /\
  (covered m ->
   covered m' /\
   forall rc, In rc scores ->
     count_confused rc <= peakConfused (page m') /\
     count_more rc <= peakMore (page m')) /\
  peakConfused (page started) = 0 /\ peakMore (page started) = 0 /\
  (forall d n, peakDeps m = Some d ->
     observe (repeat d n) started = started) /\
  (forall d rc0 rest, peakDeps m = Some d -> sameDeps d rc0 = false ->
     forall rc, In rc (rc0 :: rest) ->
       count_confused rc <= peakConfused (page (observe (rc0 :: rest) started)) /\
       count_more rc <= peakMore (page (observe (rc0 :: rest) started))).
Proof.
  cbn zeta.
  destruct (observe_peaks scores m) as (C & M & Co & Mo & S1 & S2 & S3).
  split; [exact C|]. split; [exact M|]. split; [exact Co|]. split; [exact Mo|].
  split; [exact S1|]. split; [exact S2|]. split; [exact S3|].
  split.
  { apply observe_covered. intros d Hd. discriminate Hd. }
  split.
  { intros Hc. split; [|apply observe_covered, Hc].
    clear - Hc. revert m Hc.
    induction scores as [|rc scores IH]; intros m Hc; [exact Hc|].
    cbn [observe fold_left]. apply IH.
    exact (proj1 (render_covered rc m (or_introl Hc))). }
  split; [reflexivity|]. split; [reflexivity|].
  split.
  { intros d n Hd. apply observe_unchanged. exact Hd. }
  intros d rc0 rest Hd Hne rc Hin.
  cbn [observe fold_left].
  fold (observe rest (render rc0 (handle (handleStartSession now) m))).
  assert (Hno : forall d0, peakDeps (handle (handleStartSession now) m) = Some d0 ->
                           sameDeps d0 rc0 = false).
  { intros d0 Hd0. cbn in Hd0. rewrite Hd in Hd0. injection Hd0 as <-. exact Hne. }
  destruct (render_covered rc0 _ (or_intror Hno)) as (Hc' & H1 & H2).
  destruct Hin as [<-|Hin].
  - destruct (observe_peaks rest (render rc0 (handle (handleStartSession now) m)))
      as (C' & M' & _). lia.
  - exact (observe_covered rest _ Hc' rc Hin).
Qed.

Lemma peak_effect_on_change_witness :
  let shown := mkCount 7 2 in
  let m := observe [shown] mount in
  let started := handle (handleStartSession 1000) m in
  peakConfused (page m) = 7 /\ peakMore (page m) = 2 /\
  peakDeps m = Some shown /\
  observe [shown; shown; shown] started = started /\
  peakConfused (page started) = 0 /\ peakMore (page started) = 0 /\
  peakConfused (page (observe [shown; mkCount 7 3; mkCount 6 1] started)) = 7 /\
  peakMore (page (observe [shown; mkCount 7 3; mkCount 6 1] started)) = 3.
Proof.
  cbn zeta.
  split; [reflexivity|]. split; [reflexivity|]. split; [reflexivity|].
  pose proof (peak_effect_on_change [] (observe [mkCount 7 2] mount) 1000) as H.
  cbn zeta in H.
  destruct H as (_ & _ & _ & _ & _ & _ & _ & _ & _ & H1 & H2 & H3 & _).
  split; [exact (H3 (mkCount 7 2) 3%nat eq_refl)|].
  split; [exact H1|]. split; [exact H2|].
  split; reflexivity.
Defined.

End AdminProps.

(* ================================================================== *)
(** * Properties of the join page *)
(* ================================================================== *)

Module JoinProps.
Import Join.

Lemma toUpperCase_alnum (c : N) :
  isAlnum c = true ->
  isUpperAlnum (if ((97 <=? c) && (c <=? 122))%N then (c - 32)%N else c) = true.
Proof.
  unfold isAlnum, isUpperAlnum.
  destruct (N.leb_spec 97 c) as [L|L], (N.leb_spec c 122) as [U|U]; cbn [andb].
  - intros _.
    destruct (N.leb_spec 48 (c - 32)), (N.leb_spec (c - 32) 57),
      (N.leb_spec 65 (c - 32)), (N.leb_spec (c - 32) 90); cbn; try reflexivity; lia.
  - rewrite orb_false_r. intros A. exact A.
  - rewrite orb_false_r. intros A. exact A.
  - rewrite orb_false_r. intros A. exact A.
Qed.

(** A value that passes the length test becomes an admissible cell. *)
Lemma sanitized_cell (value : JsString) :
  (1 <? length (sanitize value))%nat = false ->
  cellOk (toUpperCase (sanitize value)).
Proof.
  intros H. apply Nat.ltb_ge in H.
  assert (A : Forall (fun c => isAlnum c = true) (sanitize value)).
  { apply Forall_forall. intros c Hin. apply filter_In in Hin. exact (proj2 Hin). }
  destruct (sanitize value) as [|c [|c' l]]; cbn in H.
  - left. reflexivity.
  - right. eexists. split; [reflexivity|].
    apply toUpperCase_alnum. inversion A. assumption.
  - lia.
Qed.

Lemma setCell_length (index : nat) (v : JsString) :
  forall code, (index < length code)%nat -> length (setCell index v code) = length code.
Proof.
  induction index as [|i IH]; intros [|c code] H; cbn in *; try lia.
  rewrite IH by lia. reflexivity.
Qed.

Lemma setCell_Forall (P : JsString -> Prop) (index : nat) (v : JsString) :
  forall code,
    (index < length code)%nat -> P v -> Forall P code -> Forall P (setCell index v code).
Proof.
  induction index as [|i IH]; intros [|c code] H Hv Hall; cbn in *; try lia.
  - inversion Hall; subst. constructor; assumption.
  - inversion Hall; subst. constructor; [assumption|]. apply IH; [lia|assumption..].
Qed.

Lemma nth_setCell (index : nat) (v : JsString) :
  forall code j,
    (index < length code)%nat ->
    nth j (setCell index v code) [] = if Nat.eqb j index then v else nth j code [].
Proof.
  induction index as [|i IH]; intros [|c code] j H; cbn in H; try lia.
  - destruct j; reflexivity.
  - destruct j as [|j]; [reflexivity|]. cbn [setCell nth Nat.eqb].
    apply IH. lia.
Qed.

Lemma typed_codeOk (p : Page) : typed p -> codeOk (code p) /\ navigations p = [].
Proof.
  induction 1 as [|index value p Hi _ [[Hlen Hall] Hnav]].
  - split; [|reflexivity]. split; [reflexivity|].
    repeat constructor; left; reflexivity.
  - unfold handleCodeChange.
    destruct (1 <? length (sanitize value))%nat eqn:E.
    + split; [split|]; assumption.
    + cbn [code navigations]. split; [|exact Hnav]. split.
      * rewrite setCell_length by lia. exact Hlen.
      * apply setCell_Forall; [lia|apply sanitized_cell, E|exact Hall].
Qed.

(** The joined code of admissible cells: as long as the number of
    non-empty cells, all of whose characters are upper-case letters or
    digits. *)
Lemma join_cells (cells : list JsString) :
  Forall cellOk cells ->
  (length (join cells) <= length cells)%nat /\
  (length (join cells) = length cells <-> Forall (fun cell => cell <> []) cells) /\
  forallb isUpperAlnum (join cells) = true.
Proof.
  unfold join. induction 1 as [|cell cells Hc _ (IH1 & IH2 & IH3)]; cbn [concat length].
  - split; [lia|]. split; [|reflexivity]. split; [constructor|reflexivity].
  - rewrite length_app, forallb_app, IH3.
    destruct Hc as [->|(c & -> & Hu)]; cbn [length app forallb].
    + split; [lia|]. split; [|reflexivity]. split.
      * intros E. lia.
      * intros F. inversion F; subst. congruence.
    + rewrite Hu. split; [lia|]. split; [|reflexivity]. split.
      * intros E. constructor; [discriminate|]. apply IH2. lia.
      * intros F. inversion F; subst. cbn. f_equal. apply IH2. assumption.
Qed.

(** X14.  Whatever is typed or pasted into the six cells, the code stays
    six cells that are each empty or one upper-case letter or digit, and
    nothing navigates.  [handleJoin] then either finds an empty cell, shows
    the six-character error and does not navigate, or finds all six filled
    and navigates once, to [/s/] followed by six characters that are
    upper-case letters or digits, with no error shown and loading off. *)
Theorem join_code_entry (p : Page) :
  typed p ->
  codeOk (code p) /\
  navigations p = [] /\
  ((In [] (code p) /\
    navigations (handleJoin p) = [] /\ error (handleJoin p) = Some ENTER_SIX)
   \/
   (~ In [] (code p) /\
    exists sessionCode,
      navigations (handleJoin p) = [[47; 115; 47]%N ++ sessionCode] /\
      sessionCode = join (code p) /\
      length sessionCode = 6%nat /\
      forallb isUpperAlnum sessionCode = true /\
      error (handleJoin p) = None /\ isLoading (handleJoin p) = false)).
Proof.
  intros H. destruct (typed_codeOk p H) as [[Hlen Hall] Hnav].
  split; [split; assumption|]. split; [exact Hnav|].
  destruct (join_cells (code p) Hall) as (Hle & Hiff & Hup).
  unfold handleJoin.
  destruct (Nat.eqb_spec (length (join (code p))) 6) as [E|E]; cbn [negb].
  - right. split.
    + rewrite <- Hlen in E. apply Hiff in E. rewrite Forall_forall in E.
      intros Hin. exact (E [] Hin eq_refl).
    + exists (join (code p)). cbn [navigations error isLoading]. rewrite Hnav.
      repeat split; assumption.
  - left. cbn [navigations error]. split; [|split; [exact Hnav|reflexivity]].
    destruct (in_dec (list_eq_dec N.eq_dec) [] (code p)) as [Hin|Hnin]; [exact Hin|].
    exfalso. apply E. rewrite <- Hlen. apply Hiff, Forall_forall.
    intros cell Hc ->. exact (Hnin Hc).
Qed.

Lemma join_code_entry_witness :
  let p := handleCodeChange 5 [57]%N
             (handleCodeChange 4 [120]%N
                (handleCodeChange 3 [50; 45]%N
                   (handleCodeChange 2 [49]%N
                      (handleCodeChange 1 [98]%N
                         (handleCodeChange 0 [97]%N initialPage))))) in
  navigations (handleJoin p) = [[47; 115; 47; 65; 66; 49; 50; 88; 57]%N] /\
  codeOk (code p).
Proof.
  cbn zeta.
  split; [reflexivity|].
  apply join_code_entry.
  repeat (apply typed_change; [lia|]). apply typed_initial.
Defined.

(** X15.  [handleCodeChange(index, value)] on a cell of the array: a value
    with two or more letters or digits is ignored; otherwise the cell at
    [index] becomes the one letter or digit of the value in upper case, or
    empty when the value has none, every other cell keeps its content and
    the array its length. *)
Theorem code_change_cell (index : nat) (value : JsString) (p : Page) :
  (index < length (code p))%nat ->
  let p' := handleCodeChange index value p in
  ((2 <= length (sanitize value))%nat -> p' = p) /\
  ((length (sanitize value) <= 1)%nat ->
   nth index (code p') [] = toUpperCase (sanitize value) /\
   (forall j, j <> index -> nth j (code p') [] = nth j (code p) []) /\
   length (code p') = length (code p) /\
   isLoading p' = isLoading p /\ error p' = error p /\
   navigations p' = navigations p) /\
  (sanitize value = [] -> nth index (code p') [] = []).
Proof.
  intros Hi. cbn zeta. unfold handleCodeChange.
  split; [|split].
  - intros H. apply Nat.ltb_lt in H. rewrite H. reflexivity.
  - intros H. assert (E : (1 <? length (sanitize value))%nat = false)
      by (apply Nat.ltb_ge; lia).
    rewrite E. cbn [code isLoading error navigations].
    split; [rewrite nth_setCell, Nat.eqb_refl by lia; reflexivity|].
    split.
    + intros j Hj. rewrite nth_setCell by lia.
      destruct (Nat.eqb_spec j index); [contradiction|reflexivity].
    + rewrite setCell_length by lia. repeat split.
  - intros ->. cbn [length Nat.ltb Nat.leb code].
    rewrite nth_setCell, Nat.eqb_refl by lia. reflexivity.
Qed.

Lemma code_change_cell_witness :
  code (handleCodeChange 2 [32; 113; 33]%N initialPage) = [[]; []; [81]%N; []; []; []] /\
  handleCodeChange 2 [113; 119]%N initialPage = initialPage.
Proof.
  pose proof (code_change_cell 2 [113; 119]%N initialPage) as H.
  cbn zeta in H. destruct H as (H & _); [cbn; lia|].
  split; [reflexivity|apply H; cbn; lia].
Defined.

End JoinProps.

(* ================================================================== *)
(** * Further properties of the audience page *)
(* ================================================================== *)

Module AudienceExtra.
Import Js Audience AudienceView.

(** X16.  A click after a pause: when every remembered click is 5 seconds
    old or older, the click window becomes the current click alone, the
    click is not rapid and shows no feedback, the toast and its timeouts
    are untouched, the haptic call (where there is one) is the short
    pulse, and a cleanup tick at that time would have emptied the
    window. *)
Theorem click_after_pause (hasVibrate : bool) (now : Z) (p : Page) :
  (forall ts, In ts (clickTimestamps p) -> 5000 <= now - ts) ->
  let p' := fst (handleReaction hasVibrate now p) in
  let l := snd (handleReaction hasVibrate now p) in
  newClicks l = [now] /\
  isRapidClick l = false /\ showsFeedback l = false /\
  clickTimestamps p' = [now] /\
  lastClickFeedback p' = lastClickFeedback p /\
  feedbackTimeouts p' = feedbackTimeouts p /\
  vibrations p' = (if hasVibrate then vibrations p ++ [[50]] else vibrations p) /\
  clickTimestamps (cleanupTick now p) = [].
Proof.
  intros Hold. cbn zeta.
  assert (E : filter (fun ts => now - ts <? 5000) (clickTimestamps p) = []).
  { apply StoreExtra.filter_none. intros ts Hin. apply Z.ltb_ge, Hold, Hin. }
  unfold handleReaction, locals, cleanupTick.
  cbn [fst snd newClicks isRapidClick showsFeedback clickTimestamps lastClickFeedback
       feedbackTimeouts vibrations].
  rewrite E. cbn. repeat split.
Qed.

Lemma click_after_pause_witness :
  let p := mkPage None [] false [] [0; 200; 400; 600] None [] [] [] [] in
  snd (handleReaction true 800 p)
  = mkLocals [0; 200; 400; 600] [0; 200; 400; 600; 800] true true /\
  newClicks (snd (handleReaction true 5600 p)) = [5600] /\
  isRapidClick (snd (handleReaction true 5600 p)) = false.
Proof.
  cbn zeta. split; [reflexivity|].
  pose proof (click_after_pause true 5600
                (mkPage None [] false [] [0; 200; 400; 600] None [] [] [] [])) as H.
  cbn zeta in H. destruct H as (H1 & H2 & _).
  - intros ts Hin. cbn in Hin.
    repeat (destruct Hin as [<-|Hin]; [lia|]). destruct Hin.
  - split; [exact H1|exact H2].
Defined.

Lemma trimStart_split (s : JsString) :
  exists pre, s = pre ++ trimStart s /\ forallb isWhiteSpace pre = true.
Proof.
  induction s as [|c s (pre & E & W)]; cbn [trimStart].
  - exists []. split; reflexivity.
  - destruct (isWhiteSpace c) eqn:C.
    + exists (c :: pre). cbn [app forallb]. rewrite C, W, <- E. split; reflexivity.
    + exists []. split; reflexivity.
Qed.

Lemma trimStart_head (s : JsString) (c : N) (rest : JsString) :
  trimStart s = c :: rest -> isWhiteSpace c = false.
Proof.
  induction s as [|d s IH]; cbn [trimStart]; [discriminate|].
  destruct (isWhiteSpace d) eqn:D; [exact IH|].
  intros E. injection E as <- _. exact D.
Qed.

Lemma trimStart_blank (s : JsString) :
  trimStart s = [] <-> forallb isWhiteSpace s = true.
Proof.
  induction s as [|c s IH]; cbn [trimStart forallb]; [split; reflexivity|].
  destruct (isWhiteSpace c); cbn [andb]; [exact IH|].
  split; discriminate.
Qed.

(** Reversal keeps a string blank or not. *)
Lemma blank_rev (s : JsString) :
  forallb isWhiteSpace (rev s) = forallb isWhiteSpace s.
Proof.
  apply eq_true_iff_eq. rewrite !forallb_forall.
  split; intros H c Hin; apply H; apply in_rev; [rewrite rev_involutive|]; exact Hin.
Qed.

Lemma trimEnd_split (s : JsString) :
  exists post, s = trimEnd s ++ post /\ forallb isWhiteSpace post = true.
Proof.
  unfold trimEnd. destruct (trimStart_split (rev s)) as (pre & E & W).
  exists (rev pre). split; [|rewrite blank_rev; exact W].
  rewrite <- rev_app_distr, <- E, rev_involutive. reflexivity.
Qed.

Lemma trimEnd_last (s front : JsString) (c : N) :
  trimEnd s = front ++ [c] -> isWhiteSpace c = false.
Proof.
  unfold trimEnd. intros E.
  apply (f_equal (@rev N)) in E. rewrite rev_involutive, rev_app_distr in E.
  cbn in E. exact (trimStart_head _ _ _ E).
Qed.

Lemma trim_blank (s : JsString) :
  trim s = [] <-> forallb isWhiteSpace s = true.
Proof.
  unfold trim, trimEnd. split.
  - intros E. apply (f_equal (@rev N)) in E. rewrite rev_involutive in E. cbn in E.
    apply trimStart_blank in E. rewrite blank_rev in E.
    destruct (trimStart s) as [|c rest] eqn:T.
    + apply trimStart_blank. exact T.
    + apply trimStart_head in T. cbn in E. rewrite T in E. discriminate.
  - intros W. apply trimStart_blank in W. rewrite W. reflexivity.
Qed.

(** X17.  A question made of white space alone (the empty question
    included) is exactly one whose trimmed text is empty, and submitting it
    does nothing at all: no request, no record, no log line, the input left
    as typed, whatever the backend would have answered. *)
Theorem blank_question_ignored (during : Page -> Page) (outcome : Settled)
  (now1 now2 : Z) (p : Page) :
  (forallb isWhiteSpace (question p) = true <-> trim (question p) = []) /\
  (forallb isWhiteSpace (question p) = true ->
   handleSubmitQuestion during outcome now1 now2 p = (p, Normal tt)).
Proof.
  split; [symmetry; apply trim_blank|].
  intros W. apply trim_blank in W. unfold handleSubmitQuestion. rewrite W. reflexivity.
Qed.

Lemma blank_question_ignored_witness :
  let p := mkPage None [32; 9; 12288; 10]%N false [] [] None [] [] [] [] in
  handleSubmitQuestion (fun q => q) Resolved 5 6 p = (p, Normal tt).
Proof.
  cbn zeta.
  apply (blank_question_ignored (fun q => q) Resolved 5 6
           (mkPage None [32; 9; 12288; 10]%N false [] [] None [] [] [] [])).
  reflexivity.
Defined.

(** X18.  The text recorded and sent for a question that is not blank is
    the typed question without the white space before and after it, and
    nothing else is removed: the question is that text between two runs of
    white space, and the text begins and ends with a character that is not
    white space.  The request carries the same text, with the session code
    or the empty string when there is none. *)
Theorem submitted_text (during : Page -> Page) (outcome : Settled)
  (now1 now2 : Z) (p : Page) :
  trim (question p) <> [] ->
  let p' := fst (handleSubmitQuestion during outcome now1 now2 p) in
  exists pre txt post,
    question p = pre ++ txt ++ post /\
    forallb isWhiteSpace pre = true /\ forallb isWhiteSpace post = true /\
    (exists c rest, txt = c :: rest /\ isWhiteSpace c = false) /\
    (exists front c, txt = front ++ [c] /\ isWhiteSpace c = false) /\
    option_map text (hd_error (sentQuestions p')) = Some txt /\
    questionRequests (fst (handleSubmitQuestion (fun q => q) outcome now1 now2 p))
    = questionRequests p ++ [(orEmpty (sessionCode p), txt)].
Proof.
  intros Hne. cbn zeta.
  rewrite !QuestionProps.handleSubmitQuestion_run by exact Hne. cbn [fst].
  destruct (trimStart_split (question p)) as (pre & Epre & Wpre).
  destruct (trimEnd_split (trimStart (question p))) as (post & Epost & Wpost).
  fold (trim (question p)) in Epost.
  exists pre, (trim (question p)), post.
  split; [rewrite <- Epost; exact Epre|].
  split; [exact Wpre|]. split; [exact Wpost|].
  split.
  { destruct (trim (question p)) as [|c rest] eqn:T; [congruence|].
    exists c, rest. split; [reflexivity|].
    rewrite Epost in Epre. cbn in Epre.
    destruct (trimStart (question p)) as [|d r] eqn:S.
    - discriminate.
    - injection Epost as -> _. exact (trimStart_head _ _ _ S). }
  split.
  { destruct (exists_last Hne) as (front & c & E). exists front, c.
    split; [exact E|]. unfold trim in E. exact (trimEnd_last _ _ _ E). }
  split; reflexivity.
Qed.

Lemma submitted_text_witness :
  let p := mkPage (Some [65; 66]%N) [32; 104; 105; 32; 63; 10]%N false [] [] None
             [] [] [] [] in
  exists pre txt post,
    [32; 104; 105; 32; 63; 10]%N = pre ++ txt ++ post /\
    forallb isWhiteSpace pre = true /\ forallb isWhiteSpace post = true /\
    option_map text
      (hd_error (sentQuestions
                   (fst (handleSubmitQuestion (fun q => q) Resolved 11 12 p))))
    = Some txt.
Proof.
  cbn zeta.
  destruct (submitted_text (fun q => q) Resolved 11 12
              (mkPage (Some [65; 66]%N) [32; 104; 105; 32; 63; 10]%N false [] [] None
                 [] [] [] []))
    as (pre & txt & post & E & Wpre & Wpost & _ & _ & H & _).
  - vm_compute. discriminate.
  - exists pre, txt, post. repeat split; assumption.
Defined.

(** X19.  After a question that is not blank is submitted, whether the
    backend accepted it or not, its record is the first of the questions
    shown, followed by the two shown first before; at most three are shown;
    the "more" count is the number of sent questions beyond three, positive
    exactly when three or more were already listed; and the shown
    questions followed by the hidden ones are all the sent questions. *)
Theorem displayed_after_submit (during : Page -> Page) (outcome : Settled)
  (now1 now2 : Z) (p : Page) :
  trim (question p) <> [] ->
  let p' := fst (handleSubmitQuestion during outcome now1 now2 p) in
  let before := sentQuestions (whenSettled during p) in
  displayedQuestions p'
  = mkSentQuestion (toString now1) (trim (question p)) now2 :: firstn 2 before /\
  (length (displayedQuestions p') <= 3)%nat /\
  remainingCount p' = Z.of_nat (length before) - 2 /\
  (0 < remainingCount p' <-> (3 <= length before)%nat) /\
  (0 < remainingCount p' ->
   remainingCount p' = Z.of_nat (length (skipn 3 (sentQuestions p')))) /\
  displayedQuestions p' ++ skipn 3 (sentQuestions p') = sentQuestions p'.
Proof.
  intros Hne. cbn zeta.
  rewrite QuestionProps.handleSubmitQuestion_run by exact Hne. cbn [fst].
  unfold displayedQuestions, remainingCount. cbn [sentQuestions].
  split; [reflexivity|].
  split; [rewrite length_firstn; lia|].
  split; [cbn [length]; lia|].
  split; [cbn [length]; lia|].
  split; [rewrite length_skipn; cbn [length]; lia|].
  apply firstn_skipn.
Qed.

Lemma displayed_after_submit_witness :
  let old := [mkSentQuestion [51]%N [99]%N 3; mkSentQuestion [50]%N [98]%N 2;
              mkSentQuestion [49]%N [97]%N 1] in
  let p := mkPage None [100]%N false old [] None [] [] [] [] in
  let p' := fst (handleSubmitQuestion (fun q => q) (Rejected (Error "offline")) 4 4 p) in
  displayedQuestions p'
  = [mkSentQuestion [52]%N [100]%N 4; mkSentQuestion [51]%N [99]%N 3;
     mkSentQuestion [50]%N [98]%N 2] /\
  remainingCount p' = 1.
Proof.
  cbn zeta.
  pose proof (displayed_after_submit (fun q => q) (Rejected (Error "offline")) 4 4
                (mkPage None [100]%N false
                   [mkSentQuestion [51]%N [99]%N 3; mkSentQuestion [50]%N [98]%N 2;
                    mkSentQuestion [49]%N [97]%N 1] [] None [] [] [] [])) as H.
  cbn zeta in H. destruct H as (H1 & _ & H3 & _); [vm_compute; discriminate|].
  split; [exact H1|exact H3].
Defined.

Lemma sameString_refl (a : JsString) : sameString a a = true.
Proof. unfold sameString. destruct (list_eq_dec N.eq_dec a a); congruence. Qed.

Lemma sameString_neq (a b : JsString) : a <> b -> sameString a b = false.
Proof. unfold sameString. destruct (list_eq_dec N.eq_dec a b); congruence. Qed.

(** X20.  Onboarding is remembered per session code: with nothing stored
    the onboarding screen shows; once dismissed for a code it no longer
    shows on a later mount with that code, whatever else is stored
    afterwards under other keys; and dismissing it for one code changes
    nothing for a different code.  A missing code is stored under the
    word [undefined]. *)
Theorem onboarding_remembered (code : option JsString) (s : Storage) :
  showOnboardingOnMount code [] = true /\
  showOnboardingOnMount code (handleDismissOnboarding code s) = false /\
  (forall key value,
     key <> onboardingKey code ->
     showOnboardingOnMount code
       (setItem key value (handleDismissOnboarding code s)) = false) /\
  (forall c c', c <> c' ->
     showOnboardingOnMount (Some c') (handleDismissOnboarding (Some c) s)
     = showOnboardingOnMount (Some c') s) /\
  onboardingKey None = onboardingKey (Some [117; 110; 100; 101; 102; 105; 110; 101; 100]%N).
Proof.
  split; [reflexivity|].
  split.
  { unfold showOnboardingOnMount, handleDismissOnboarding, setItem. cbn [getItem].
    rewrite sameString_refl. reflexivity. }
  split.
  { intros key value Hk.
    unfold showOnboardingOnMount, handleDismissOnboarding, setItem. cbn [getItem].
    rewrite sameString_neq by congruence. rewrite sameString_refl. reflexivity. }
  split; [|reflexivity].
  intros c c' Hc.
  unfold showOnboardingOnMount, handleDismissOnboarding, setItem. cbn [getItem].
  rewrite sameString_neq; [reflexivity|].
  unfold onboardingKey. intros E. apply app_inv_head in E. congruence.
Qed.

End AudienceExtra.

(* ================================================================== *)
(** * Further properties of the live update channel *)
(* ================================================================== *)

Module ChannelExtra.
Import Js Channel ChannelMore ChannelProps.

Lemma countOf_total (data : JsValue) (key legacy : string) :
  isNullish data = false ->
  exists v, countOf data key legacy = Normal v /\ isNullish v = false.
Proof.
  intros H. destruct data; try discriminate; try (eexists; split; reflexivity).
  unfold countOf. cbn [member andThen].
  destruct (lookup "reactionCounts" fields) as [| |b|n|s|items|inner]; cbn [optMember member andThen nullish];
    try (destruct (lookup legacy fields); cbn; eexists; split; reflexivity).
  destruct (lookup key inner); cbn [nullish andThen];
    try (eexists; split; reflexivity);
    destruct (lookup legacy fields); cbn; eexists; split; reflexivity.
Qed.

(** X21.  What the handler hands to [setReactionsFromBackend] is never
    [null] or [undefined]: on any parsed value but [null] the two counts
    are computed without throwing; a count that is [null] or missing in the
    count map gives way to the legacy field, and that to 0; a value that is
    not an object (a boolean, number, string or array) counts as the
    all-zero snapshot; on [null] the first property read throws. *)
Theorem normalize_edge_cases (data : JsValue) :
  (isNullish data = false ->
   exists c m, normalize data = Normal (c, m) /\
               isNullish c = false /\ isNullish m = false) /\
  (isNullish data = true -> normalize data = Throw (Error "TypeError")) /\
  ((forall fields, data <> JObject fields) -> isNullish data = false ->
   normalize data = Normal (JNumber 0, JNumber 0)) /\
  (forall n sid,
     normalize (JObject [("sessionId"%string, JString sid);
                         ("reactionCounts"%string,
                          JObject [("CONFUSED"%string, JNull)]);
                         ("confusedCount"%string, JNumber n)])
     = Normal (JNumber n, JNumber 0)) /\
  (forall n k,
     normalize (JObject [("reactionCounts"%string, JNull);
                         ("confusedCount"%string, JNumber n);
                         ("moreCount"%string, JNumber k)])
     = Normal (JNumber n, JNumber k)).
Proof.
  split.
  { intros H. unfold normalize.
    destruct (countOf_total data "CONFUSED" "confusedCount" H) as (c & -> & Hc).
    destruct (countOf_total data "MORE" "moreCount" H) as (m & -> & Hm).
    exists c, m. repeat split; assumption. }
  split; [destruct data; cbn; intros; try discriminate; reflexivity|].
  split; [|split; reflexivity].
  intros Hno H. destruct data; try discriminate; try reflexivity.
  exfalso. exact (Hno fields eq_refl).
Qed.

Lemma normalize_edge_cases_witness :
  normalize (JArray [JNumber 7; JNumber 2]) = Normal (JNumber 0, JNumber 0).
Proof.
  refine (proj1 (proj2 (proj2 (normalize_edge_cases (JArray [JNumber 7; JNumber 2])))) _ _).
  - intros fields. discriminate.
  - reflexivity.
Defined.

Lemma append_cancel_r (t : string) :
  forall s1 s2 : string, (s1 ++ t = s2 ++ t)%string -> s1 = s2.
Proof.
  assert (L : forall s u : string, String.length (s ++ u) = (String.length s + String.length u)%nat).
  { induction s as [|a s IH]; intros u; cbn; [reflexivity|]. rewrite IH. reflexivity. }
  induction s1 as [|a s1 IH]; intros [|b s2] E.
  - reflexivity.
  - exfalso. apply (f_equal String.length) in E. cbn in E. rewrite L in E. lia.
  - exfalso. apply (f_equal String.length) in E. cbn in E. rewrite L in E. lia.
  - cbn in E. injection E as -> E. f_equal. apply IH, E.
Qed.

(** X22.  Sessions do not share a topic: [getReactionTopic] gives
    different topics for different session ids, none of them the
    destination reactions are sent to. *)
Theorem topic_per_session (s1 s2 : string) :
  (getReactionTopic s1 = getReactionTopic s2 -> s1 = s2) /\
  getReactionTopic s1 <> getReactionDestination.
Proof.
  split.
  - unfold getReactionTopic. intros E.
    cbn [String.append] in E. repeat injection E as E.
    exact (append_cancel_r _ _ _ E).
  - unfold getReactionTopic, getReactionDestination. cbn [String.append].
    intros E. discriminate E.
Qed.

Section Machine.

Variable JSON_parse : string -> Completion JsValue.
Variable session : string.

(** Case analysis on the refs a callback branches on. *)
Ltac callback_cases h :=
  destruct h as [st [[a c subs]|] [tid|] tm nid ic ce oe co]; cbn;
  repeat match goal with
         | |- context [if ?b then _ else _] => destruct b; cbn
         end.

Lemma onMessage_store_cases (body : string) (h : Hook) :
  store (fst (onMessage JSON_parse body h)) = store h \/
  exists c m,
    store (fst (onMessage JSON_parse body h))
    = ReactionStore.setReactionsFromBackend c m (store h).
Proof.
  unfold onMessage, tryCatch, bind, lift, modify.
  destruct (JSON_parse body) as [data|e|]; cbn; try (left; reflexivity).
  destruct (normalize data) as [[c m]|e|]; cbn; try (left; reflexivity).
  destruct c; try (left; reflexivity). destruct m; try (left; reflexivity).
  right. eexists _, _. reflexivity.
Qed.

(** Only a message changes the store. *)
Lemma step_store (now : Z) (ev : Event) (h h' : Hook) :
  step JSON_parse session now ev h = Some h' ->
  (forall body, ev <> Message body) ->
  store h' = store h.
Proof.
  intros Hs Hm. destruct ev; cbn [step] in Hs.
  - injection Hs as <-. unfold connect. callback_cases h; reflexivity.
  - injection Hs as <-. unfold disconnect. callback_cases h; reflexivity.
  - destruct (clientActive h); [|discriminate]. injection Hs as <-.
    unfold onConnect. callback_cases h; reflexivity.
  - injection Hs as <-. callback_cases h; reflexivity.
  - injection Hs as <-. reflexivity.
  - injection Hs as <-. unfold onWebSocketError. callback_cases h; reflexivity.
  - injection Hs as <-. callback_cases h; reflexivity.
  - destruct (dueOf id h); [|discriminate]. destruct (_ <=? now); [|discriminate].
    injection Hs as <-. unfold graceExpired. callback_cases h; reflexivity.
  - exfalso. exact (Hm body eq_refl).
Qed.

Lemma step_store_cases (now : Z) (ev : Event) (h h' : Hook) :
  step JSON_parse session now ev h = Some h' ->
  store h' = store h \/
  exists c m, store h' = ReactionStore.setReactionsFromBackend c m (store h).
Proof.
  intros Hs. destruct ev;
    try (left; apply (step_store now _ h h' Hs); intros body; discriminate).
  cbn [step] in Hs. destruct (subscribed session h); [|discriminate].
  pose proof (onMessage_store_cases body h) as C.
  destruct (onMessage JSON_parse body h) as [h1 r]. cbn [fst] in C.
  destruct r; try discriminate. injection Hs as <-. exact C.
Qed.

Lemma snapshot_overwrites (c m c' m' : Z) (s : ReactionStore.ReactionState) :
  ReactionStore.setReactionsFromBackend c m
    (ReactionStore.setReactionsFromBackend c' m' s)
  = ReactionStore.setReactionsFromBackend c m s.
Proof. reflexivity. Qed.

(** A message that is handled to the end writes its snapshot, or nothing
    when it carries none. *)
Lemma onMessage_written (body : string) (h h' : Hook) :
  onMessage JSON_parse body h = (h', Normal tt) ->
  store h' = written (snapshotOf JSON_parse body) (store h).
Proof.
  unfold onMessage, tryCatch, bind, lift, modify, snapshotOf, written.
  destruct (JSON_parse body) as [data|e|]; cbn;
    try (intros E; injection E as <-; reflexivity); try discriminate.
  destruct (normalize data) as [[c m]|e|]; cbn;
    try (intros E; injection E as <-; reflexivity); try discriminate.
  destruct c; cbn; try discriminate.
  destruct m; cbn; try discriminate.
  intros E; injection E as <-; reflexivity.
Qed.

Lemma written_twice (a b : option (Z * Z)) (s : ReactionStore.ReactionState) :
  written a (written b s) = written (match a with Some cm => Some cm | None => b end) s.
Proof.
  destruct a as [[c m]|]; [|reflexivity].
  destruct b as [[c' m']|]; reflexivity.
Qed.

Lemma run_written (tr : list (Z * Event)) :
  forall h0 h : Hook,
    run JSON_parse session tr h0 = Some h ->
    store h = written (lastSnapshot JSON_parse tr) (store h0).
Proof.
  induction tr as [|[now ev] tr IH]; intros h0 h Hrun; cbn [run] in Hrun.
  - injection Hrun as <-. reflexivity.
  - destruct (step JSON_parse session now ev h0) as [h1|] eqn:Hs; [|discriminate].
    rewrite (IH h1 h Hrun).
    destruct ev;
      try (cbn [lastSnapshot];
           rewrite (step_store now _ h0 h1 Hs)
             by (intros body; discriminate);
           reflexivity).
    cbn [step] in Hs. destruct (subscribed session h0); [|discriminate].
    destruct (onMessage JSON_parse body h0) as [h2 r] eqn:E.
    destruct r as [[]| |]; try discriminate. injection Hs as <-.
    rewrite (onMessage_written body h0 h2 E).
    cbn [lastSnapshot]. apply written_twice.
Qed.

(** X23.  Over any sequence of events the hook takes, from whatever
    store it starts with, the store is what the last snapshot handled
    wrote over the starting store, or the starting store when no message
    carried a snapshot: the displayed fields are those of the last
    snapshot and the event log is never written.  So after a run from the
    initial hook the log is empty and the glow rule holds.  A message of
    the declared shape is always handled, and writes its counts. *)
Theorem hook_writes_snapshots_only (tr : list (Z * Event)) (h0 h : Hook) :
  run JSON_parse session tr h0 = Some h ->
  store h = written (lastSnapshot JSON_parse tr) (store h0) /\
  ReactionStore.reactions (store h) = ReactionStore.reactions (store h0) /\
  (store h0 = ReactionStore.initial ->
   ReactionStore.reactions (store h) = [] /\ ReactionStore.glowRule (store h)) /\
  (forall now body msg,
     subscribed session h = true ->
     JSON_parse body = Normal (toJs msg) ->
     snapshotOf JSON_parse body = Some (ruleConfused msg, ruleMore msg) /\
     exists h',
       step JSON_parse session now (Message body) h = Some h' /\
       store h'
       = ReactionStore.setReactionsFromBackend (ruleConfused msg) (ruleMore msg)
           (store h0)).
Proof.
  intros Hrun.
  pose proof (run_written tr h0 h Hrun) as W.
  split; [exact W|].
  split; [rewrite W; destruct (lastSnapshot JSON_parse tr) as [[c m]|]; reflexivity|].
  split.
  { intros H0. rewrite W, H0.
    destruct (lastSnapshot JSON_parse tr) as [[c m]|]; cbn [written].
    - split; [reflexivity|apply StoreProps.glowRule_setReactionsFromBackend].
    - split; [reflexivity|apply StoreProps.glowRule_initial]. }
  intros now body msg Hsub Hp.
  split; [unfold snapshotOf; rewrite Hp, normalize_toJs; reflexivity|].
  cbn [step]. rewrite Hsub.
  rewrite (onMessage_counts JSON_parse body (toJs msg) (ruleConfused msg) (ruleMore msg)
             h Hp (normalize_toJs msg)).
  eexists. split; [reflexivity|].
  cbn [setStore store log]. rewrite W.
  destruct (lastSnapshot JSON_parse tr) as [[c m]|]; reflexivity.
Qed.

(** Closes the cases of [flagsOk] on explicit refs. *)
Ltac flags_done :=
  repeat split; intros; try discriminate; try congruence; auto;
  try match goal with
      | H : Some _ = Some ?c |- active ?c = true =>
          injection H as <-;
          first [ reflexivity
                | match goal with
                  | H2 : forall c0, Some _ = Some c0 -> active c0 = true |- _ =>
                      exact (H2 _ eq_refl)
                  end ]
      end.

Lemma flagsOk_step (now : Z) (ev : Event) (h h' : Hook) :
  flagsOk h -> step JSON_parse session now ev h = Some h' -> flagsOk h'.
Proof.
  unfold flagsOk. intros (H1 & H2 & H3) Hs. destruct ev; cbn [step] in Hs.
  - injection Hs as <-. unfold connect. revert H1 H2 H3. callback_cases h;
      intros H1 H2 H3; flags_done.
  - injection Hs as <-. unfold disconnect. revert H1 H2 H3. callback_cases h;
      intros H1 H2 H3; flags_done.
  - destruct (clientActive h) eqn:A; [|discriminate]. injection Hs as <-.
    unfold onConnect. revert H1 H2 H3 A. callback_cases h;
      intros H1 H2 H3 A; flags_done.
  - injection Hs as <-. revert H1 H2 H3. callback_cases h;
      intros H1 H2 H3; flags_done.
  - injection Hs as <-. revert H1 H2 H3. callback_cases h;
      intros H1 H2 H3; flags_done;
      destruct message as [[|x s]|]; discriminate.
  - injection Hs as <-. unfold onWebSocketError. revert H1 H2 H3. callback_cases h;
      intros H1 H2 H3; flags_done.
  - injection Hs as <-. revert H1 H2 H3. callback_cases h;
      intros H1 H2 H3; flags_done.
  - destruct (dueOf id h); [|discriminate]. destruct (_ <=? now); [|discriminate].
    injection Hs as <-. unfold graceExpired. revert H1 H2 H3. callback_cases h;
      intros H1 H2 H3; flags_done.
  - destruct (subscribed session h); [|discriminate].
    pose proof (onMessage_connection JSON_parse body h) as Hc.
    destruct (onMessage JSON_parse body h) as [h1 r]. cbn [fst] in Hc.
    destruct r; try discriminate. injection Hs as <-.
    unfold connection in Hc. injection Hc as Ec _ _ _ Ei Ee _.
    unfold clientActive. rewrite Ec, Ei, Ee. repeat split; assumption.
Qed.

Lemma flagsOk_run (tr : list (Z * Event)) :
  forall h h', flagsOk h -> run JSON_parse session tr h = Some h' -> flagsOk h'.
Proof.
  induction tr as [|[now ev] tr IH]; intros h h' H Hr; cbn [run] in Hr.
  - injection Hr as <-. exact H.
  - destruct (step JSON_parse session now ev h) as [h1|] eqn:Hs; [|discriminate].
    exact (IH h1 h' (flagsOk_step now ev h h1 H Hs) Hr).
Qed.

Lemma flagsOk_initial : flagsOk initialHook.
Proof. repeat split; try discriminate. Qed.

(** X24.  In every state a mounted hook reaches: the connected flag is
    shown only while an active client is held, and an error shown is never
    the empty text.  When the client connects, the hook shows connected
    with no error and holds the subscription to the topic of its session.
    [connect] never makes a second client: with an active client it does
    nothing, so calling it twice is calling it once. *)
Theorem connection_flags (tr : list (Z * Event)) (h : Hook) :
  run JSON_parse session tr initialHook = Some h ->
  (isConnected h = true -> clientActive h = true) /\
  connectionError h <> Some EmptyString /\
  (forall now h',
     step JSON_parse session now OnConnect h = Some h' ->
     isConnected h' = true /\ connectionError h' = None /\
     clientConnected h' = true /\ subscribed session h' = true) /\
  (clientActive h = true -> connect h = h) /\
  clientActive (connect h) = true /\
  connect (connect h) = connect h.
Proof.
  intros Hrun.
  destruct (flagsOk_run tr _ _ flagsOk_initial Hrun) as (H1 & H2 & H3).
  split; [exact H1|]. split; [exact H3|]. split.
  { intros now h' Hs. cbn [step] in Hs.
    destruct (clientActive h) eqn:A; [|discriminate]. injection Hs as <-.
    unfold onConnect, subscribed. clear H1 H3. revert H2 A.
    destruct h as [st [[a c subs]|] [tid|] tm nid ic ce oe co]; cbn;
      intros H2 A; try discriminate;
      rewrite existsb_app; cbn; rewrite String.eqb_refl, orb_true_r;
      repeat split. }
  assert (G : forall x, clientActive x = true -> connect x = x)
    by (intros x A; unfold connect; rewrite A; reflexivity).
  assert (A : clientActive (connect h) = true).
  { unfold connect. destruct (clientActive h) eqn:E; [exact E|reflexivity]. }
  split; [apply G|]. split; [exact A|apply G, A].
Qed.

(** X25.  Teardown: after [disconnect], from any state a mounted hook
    reaches, no client is held, the connected flag is off, the error
    timeout is cancelled and no timeout is left to fire, so a WebSocket
    error seen before cannot surface afterwards.  The store and the error
    text are left as they were.  A later [connect] starts a fresh client,
    unconnected and without subscriptions. *)
Theorem teardown (tr : list (Z * Event)) (h : Hook) :
  run JSON_parse session tr initialHook = Some h ->
  let h' := disconnect h in
  clientRef h' = None /\ isConnected h' = false /\
  errorTimeoutRef h' = None /\ timers h' = [] /\
  store h' = store h /\ connectionError h' = connectionError h /\
  (forall now id, step JSON_parse session now (TimerFired id) h' = None) /\
  clientRef (connect h') = Some (mkClient true false []) /\
  errorTimeoutRef (connect h') = None /\ timers (connect h') = [].
Proof.
  intros Hrun. cbn zeta.
  assert (G : graceInv tr h).
  { apply (graceInv_run JSON_parse session tr [] initialHook h); [|exact Hrun].
    apply graceInv_cleared; reflexivity. }
  destruct (flagsOk_run tr _ _ flagsOk_initial Hrun) as (H1 & _ & _).
  destruct (disconnect_cleared tr h G) as [G' Hce].
  assert (C : clientRef (disconnect h) = None /\ isConnected (disconnect h) = false /\
              store (disconnect h) = store h).
  { clear G G' Hce Hrun. unfold clientActive in H1. revert H1. unfold disconnect.
    destruct h as [st [[a c subs]|] [tid|] tm nid ic ce oe co]; cbn; intros H1;
      repeat split; destruct ic; try reflexivity; discriminate (H1 eq_refl). }
  destruct C as (C1 & C2 & C3).
  assert (R : errorTimeoutRef (disconnect h) = None /\ timers (disconnect h) = []).
  { unfold graceInv in G'. destruct (errorTimeoutRef (disconnect h)) eqn:E.
    - exfalso. clear - E. unfold disconnect in E.
      destruct h as [st [[a c subs]|] [tid|] tm nid ic ce oe co]; cbn in E; discriminate.
    - split; [reflexivity|exact G']. }
  destruct R as [R1 R2].
  split; [exact C1|]. split; [exact C2|]. split; [exact R1|]. split; [exact R2|].
  split; [exact C3|]. split; [exact Hce|].
  split; [intros now id; cbn [step]; unfold dueOf; rewrite R2; reflexivity|].
  assert (E : connect (disconnect h)
              = setClient (Some (mkClient true false []))
                  (log LogConnecting (disconnect h))).
  { unfold connect, clientActive, clearPendingError. rewrite C1, R1. reflexivity. }
  rewrite E. cbn [setClient log clientRef errorTimeoutRef timers].
  split; [reflexivity|]. split; [exact R1|exact R2].
Qed.

(** X26.  The grace period runs from the first WebSocket error.  In a
    state a mounted hook reaches with no error timeout pending and the
    client unconnected, a WebSocket error at [now] sets one timeout, due at
    [now + 10000]; a further WebSocket error before it fires changes the
    console alone (the deadline does not move and no second timeout is
    set); the timeout cannot run before its deadline, and when it runs with
    the client still unconnected it shows 'WebSocket connection failed',
    reports the error to [onError] once and leaves no timeout behind.
    While the client is connected a WebSocket error sets no timeout. *)
Theorem first_error_sets_deadline (tr : list (Z * Event)) (h : Hook) (now : Z) :
  run JSON_parse session tr initialHook = Some h ->
  errorTimeoutRef h = None ->
  let h1 := onWebSocketError now h in
  let id := nextTimerId h in
  (clientConnected h = true -> connection h1 = connection h) /\
  (clientConnected h = false ->
   errorTimeoutRef h1 = Some id /\ timers h1 = [(id, now + 10000)] /\
   (forall later, connection (onWebSocketError later h1) = connection h1) /\
   (forall fire, fire < now + 10000 ->
      step JSON_parse session fire (TimerFired id) h1 = None) /\
   (forall fire, now + 10000 <= fire ->
      exists h2,
        step JSON_parse session fire (TimerFired id) h1 = Some h2 /\
        connectionError h2 = Some WS_FAILED /\
        onErrorCalls h2 = onErrorCalls h ++ [Error WS_FAILED] /\
        errorTimeoutRef h2 = None /\ timers h2 = [])).
Proof.
  intros Hrun Href. cbn zeta.
  assert (G : graceInv tr h).
  { apply (graceInv_run JSON_parse session tr [] initialHook h); [|exact Hrun].
    apply graceInv_cleared; reflexivity. }
  unfold graceInv in G. rewrite Href in G.
  unfold onWebSocketError. cbn [log errorTimeoutRef]. rewrite Href.
  replace (clientConnected (log ErrWebSocket h)) with (clientConnected h) by reflexivity.
  split.
  - intros C. rewrite C. reflexivity.
  - intros C. rewrite C. cbn [negb].
    cbn [armErrorTimeout log errorTimeoutRef timers nextTimerId]. rewrite G.
    cbn [app]. unfold GRACE_MS.
    split; [reflexivity|]. split; [reflexivity|]. split; [reflexivity|].
    split.
    + intros fire Hlt. cbn [step]. unfold dueOf.
      cbn [timers armErrorTimeout log nextTimerId]. rewrite G.
      cbn [app find fst snd]. rewrite Nat.eqb_refl. cbn [snd].
      assert (E : (now + 10000 <=? fire) = false) by (apply Z.leb_gt; lia).
      rewrite E. reflexivity.
    + intros fire Hge. cbn [step]. unfold dueOf.
      cbn [timers armErrorTimeout log nextTimerId]. rewrite G.
      cbn [app find fst snd]. rewrite Nat.eqb_refl. cbn [snd].
      assert (E : (now + 10000 <=? fire) = true) by (apply Z.leb_le; lia).
      rewrite E. eexists. split; [reflexivity|].
      unfold graceExpired.
      replace (clientConnected (clearTimeout (nextTimerId h) _))
        with (clientConnected h) by reflexivity.
      rewrite C.
      cbn [negb setErrorTimeoutRef callOnError setConnectionError clearTimeout
           armErrorTimeout log connectionError onErrorCalls errorTimeoutRef timers
           nextTimerId].
      rewrite G. cbn [app filter fst]. rewrite Nat.eqb_refl. repeat split.
Qed.

End Machine.

Lemma first_error_sets_deadline_witness :
  let parse := parseOnly "update" emptyCounts in
  let h := mkHook ReactionStore.initial (Some (mkClient true false [])) None [] 1
             false None [] [LogConnecting] in
  run parse "AB12" [(0, Connect)] initialHook = Some h /\
  timers (onWebSocketError 100 h) = [(1%nat, 10100)] /\
  connection (onWebSocketError 700 (onWebSocketError 100 h))
  = connection (onWebSocketError 100 h).
Proof.
  cbn zeta. split; [reflexivity|].
  pose proof (first_error_sets_deadline (parseOnly "update" emptyCounts) "AB12"
                [(0, Connect)] _ 100 eq_refl eq_refl) as H.
  cbn zeta in H. destruct H as (_ & H). destruct (H eq_refl) as (_ & Ht & Hk & _).
  split; [exact Ht|exact (Hk 700)].
Defined.

Lemma connection_flags_witness :
  let parse := parseOnly "update" emptyCounts in
  let tr := [(0, Connect); (100, OnWebSocketError)] in
  exists h h',
    run parse "AB12" tr initialHook = Some h /\
    step parse "AB12" 900 OnConnect h = Some h' /\
    isConnected h' = true /\ subscribed "AB12" h' = true /\ timers h' = [].
Proof.
  cbn zeta. eexists. eexists. split; [reflexivity|]. split; [reflexivity|].
  destruct (proj1 (proj2 (proj2
              (connection_flags (parseOnly "update" emptyCounts) "AB12"
                 [(0, Connect); (100, OnWebSocketError)] _ eq_refl)))
              900 _ eq_refl) as (Hi & _ & _ & Hs).
  split; [exact Hi|]. split; [exact Hs|reflexivity].
Defined.

Lemma teardown_witness :
  let parse := parseOnly "update" emptyCounts in
  let tr := [(0, Connect); (100, OnWebSocketError)] in
  exists h,
    run parse "AB12" tr initialHook = Some h /\
    timers h = [(1%nat, 10100)] /\
    timers (disconnect h) = [] /\
    step parse "AB12" 10100 (TimerFired 1) (disconnect h) = None.
Proof.
  cbn zeta. eexists. split; [reflexivity|]. split; [reflexivity|].
  pose proof (teardown (parseOnly "update" emptyCounts) "AB12"
                [(0, Connect); (100, OnWebSocketError)] _ eq_refl) as H.
  cbn zeta in H. destruct H as (_ & _ & _ & Ht & _ & _ & Hf & _).
  split; [exact Ht|exact (Hf 10100 1%nat)].
Defined.

Lemma hook_writes_snapshots_only_witness :
  let parse := parseTable [("first"%string, countMap 7 2); ("second"%string, countMap 1 8)] in
  let tr := [(0, Connect); (40, OnConnect); (90, Message "first"%string);
             (95, Message "second"%string); (99, Message "<html>"%string);
             (200, SocketClosed)] in
  exists h,
    run parse "AB12" tr initialHook = Some h /\
    lastSnapshot parse tr = Some (1, 8) /\
    store h = ReactionStore.setReactionsFromBackend 1 8 ReactionStore.initial.
Proof.
  cbn zeta. eexists.
  split; [vm_compute; reflexivity|]. split; [vm_compute; reflexivity|].
  refine (proj1 (hook_writes_snapshots_only
                   (parseTable [("first"%string, countMap 7 2);
                                ("second"%string, countMap 1 8)])
                   "AB12"
                   [(0, Connect); (40, OnConnect); (90, Message "first"%string);
                    (95, Message "second"%string); (99, Message "<html>"%string);
                    (200, SocketClosed)]
                   initialHook _ _)).
  vm_compute. reflexivity.
Defined.

End ChannelExtra.
